(** * indo-dev-utils: the Rupiah currency codec, NIK and phone numbers

    A shallow embedding of the currency module of [@indodev/toolkit]
    ([currency/format.ts], [currency/parse.ts], [currency/words.ts],
    [currency/utils.ts]) together with the properties its specification
    states about it, followed by further properties of the same code, of
    the NIK module ([nik/validate.ts], [nik/parse.ts], [nik/format.ts])
    and of the E.164 notation and the mask of [phone/format.ts].

    Modelling conventions.

    - A JavaScript [number] is modelled as an exact rational ([Q]).  Every
      finite double is a rational; comparisons, [Math.abs], [Math.floor],
      [Math.round] and [% 1] are exact on doubles and are modelled exactly.
      Products and quotients are taken exactly as well, so the rounding of
      IEEE-754 arithmetic, the infinities and the sign of zero are outside
      the model.  [NaN] only arises from [parseFloat]; the results of
      parsing are of type [JS.number], a rational or [NaN].
    - A JavaScript string is modelled as a [string] of 8-bit characters;
      case mapping and white space are those of ASCII.
    - [undefined] read from an array out of range is modelled by the text
      it turns into when concatenated, ["undefined"].
    - The numbers in the options of the two masks ([start], [end]) are
      integers ([Z]).
    - A [Date] is the calendar day it shows in local time (year, month
      index, day of the month); the current instant enters [validateNIK]
      as the calendar day it falls on. *)

From Stdlib Require Import ZArith QArith Qround Qabs Qpower Lqa.
From Stdlib Require Import String Ascii List Bool Lia.
Import ListNotations.

Open Scope string_scope.
Open Scope Z_scope.

(** ** JavaScript primitives on characters and strings *)

Module JS.

Definition isDigit (c : ascii) : bool :=
  match c with
  | "0" | "1" | "2" | "3" | "4" | "5" | "6" | "7" | "8" | "9" => true
  | _ => false
  end%char.

Definition digitValue (c : ascii) : Z :=
  match c with
  | "1" => 1 | "2" => 2 | "3" => 3 | "4" => 4 | "5" => 5
  | "6" => 6 | "7" => 7 | "8" => 8 | "9" => 9 | _ => 0
  end%char.

Definition digitChar (d : Z) : ascii :=
  match d with
  | 1 => "1" | 2 => "2" | 3 => "3" | 4 => "4" | 5 => "5"
  | 6 => "6" | 7 => "7" | 8 => "8" | 9 => "9" | _ => "0"
  end%char.

(** [\w] of regular expressions: letters, digits and the underscore. *)
Definition isWordChar (c : ascii) : bool :=
  let n := N_of_ascii c in
  ((48 <=? n) && (n <=? 57) || (65 <=? n) && (n <=? 90)
   || (97 <=? n) && (n <=? 122) || (n =? 95))%N.

(** White space as [String.prototype.trim] and [parseFloat] skip it
    (the ASCII part: TAB, LF, VT, FF, CR, SPACE). *)
Definition isSpace (c : ascii) : bool :=
  let n := N_of_ascii c in
  ((9 <=? n) && (n <=? 13) || (n =? 32))%N.

Definition toLowerChar (c : ascii) : ascii :=
  let n := N_of_ascii c in
  if ((65 <=? n) && (n <=? 90))%N then ascii_of_N (n + 32) else c.

Definition toUpperChar (c : ascii) : ascii :=
  let n := N_of_ascii c in
  if ((97 <=? n) && (n <=? 122))%N then ascii_of_N (n - 32) else c.

Fixpoint toLowerCase (s : string) : string :=
  match s with
  | "" => ""
  | String c r => String (toLowerChar c) (toLowerCase r)
  end.

(** Truthiness of a string: the empty string is falsy. *)
Definition truthy (s : string) : bool :=
  match s with "" => false | _ => true end.

Definition isEmpty (s : string) : bool :=
  match s with "" => true | _ => false end.

(** *** Searching and editing *)

(** [s.startsWith(p)] *)
Fixpoint startsWith (p s : string) : bool :=
  match p with
  | "" => true
  | String c p' =>
    match s with
    | "" => false
    | String d s' => Ascii.eqb c d && startsWith p' s'
    end
  end.

(** [s.includes(sub)] *)
Fixpoint includes (sub s : string) : bool :=
  startsWith sub s
  || match s with
     | "" => false
     | String _ r => includes sub r
     end.

(** [s.includes(c)] for a one-character pattern. *)
Fixpoint hasChar (c : ascii) (s : string) : bool :=
  match s with
  | "" => false
  | String d r => Ascii.eqb d c || hasChar c r
  end.

(** [s.replace(/c/g, '')] for a single character [c]. *)
Fixpoint removeAll (c : ascii) (s : string) : string :=
  match s with
  | "" => ""
  | String d r =>
    if Ascii.eqb d c then removeAll c r else String d (removeAll c r)
  end.

(** [s.replace(c, d)] with one-character strings: only the first
    occurrence is replaced. *)
Fixpoint replaceFirst (c d : ascii) (s : string) : string :=
  match s with
  | "" => ""
  | String x r =>
    if Ascii.eqb x c then String d r else String x (replaceFirst c d r)
  end.

(** [s.lastIndexOf(c)], [-1] when [c] does not occur. *)
Fixpoint lastIndexFrom (i : Z) (c : ascii) (s : string) (found : Z) : Z :=
  match s with
  | "" => found
  | String d r =>
    lastIndexFrom (i + 1) c r (if Ascii.eqb d c then i else found)
  end.

Definition lastIndexOf (c : ascii) (s : string) : Z :=
  lastIndexFrom 0 c s (-1).

(** [s.split(c)] *)
Fixpoint split (c : ascii) (s : string) : list string :=
  match s with
  | "" => [""]
  | String d r =>
    if Ascii.eqb d c then "" :: split c r
    else match split c r with
         | h :: t => String d h :: t
         | [] => [String d ""]
         end
  end.

Fixpoint trimStart (s : string) : string :=
  match s with
  | "" => ""
  | String c r => if isSpace c then trimStart r else s
  end.

Fixpoint trimEnd (s : string) : string :=
  match s with
  | "" => ""
  | String c r =>
    let r' := trimEnd r in
    if isEmpty r' && isSpace c then "" else String c r'
  end.

Definition trim (s : string) : string := trimEnd (trimStart s).

(** *** Digits *)

Fixpoint takeDigits (s : string) : string :=
  match s with
  | "" => ""
  | String c r => if isDigit c then String c (takeDigits r) else ""
  end.

Fixpoint dropDigits (s : string) : string :=
  match s with
  | "" => ""
  | String c r => if isDigit c then dropDigits r else s
  end.

Fixpoint allDigits (s : string) : bool :=
  match s with
  | "" => true
  | String c r => isDigit c && allDigits r
  end.

(** Value of a digit string read left to right. *)
Fixpoint digitsValue (acc : Z) (s : string) : Z :=
  match s with
  | "" => acc
  | String c r => digitsValue (acc * 10 + digitValue c) r
  end.

Fixpoint digitsFuel (fuel : nat) (n : Z) (acc : string) : string :=
  match fuel with
  | O => acc
  | S f =>
    let acc' := String (digitChar (n mod 10)) acc in
    if n / 10 =? 0 then acc' else digitsFuel f (n / 10) acc'
  end.

(** Decimal digits of a natural number, most significant first. *)
Definition digitsOf (n : Z) : string :=
  digitsFuel (S (Z.to_nat (Z.log2 n))) n "".

(** Exactly [w] digits of [n], with leading zeros. *)
Fixpoint fixedDigits (w : nat) (n : Z) (acc : string) : string :=
  match w with
  | O => acc
  | S w' => fixedDigits w' (n / 10) (String (digitChar (n mod 10)) acc)
  end.

(** Digits of the fraction [r / d] (with [0 <= r < d]) up to the end of
    its decimal expansion. *)
Fixpoint fracDigits (fuel : nat) (r d : Z) : string :=
  match fuel with
  | O => ""
  | S f =>
    if r =? 0 then ""
    else String (digitChar (r * 10 / d)) (fracDigits f (r * 10 mod d) d)
  end.

Fixpoint stripTrailingZeros (s : string) : string :=
  match s with
  | "" => ""
  | String c r =>
    let r' := stripTrailingZeros r in
    if isEmpty r' && Ascii.eqb c "0" then "" else String c r'
  end.

Fixpoint leadingZeros (s : string) : nat :=
  match s with
  | String "0" r => S (leadingZeros r)
  | _ => O
  end.

(** *** Numbers *)

Definition Qltb (x y : Q) : bool := negb (Qle_bool y x).

Definition isInteger (x : Q) : bool := Qeq_bool (inject_Z (Qfloor x)) x.

(** [Math.round]: the nearest integer, a tie going towards +infinity. *)
Definition Math_round (x : Q) : Q := inject_Z (Qfloor (x + (1 # 2))).

Definition Math_floor (x : Q) : Q := inject_Z (Qfloor x).

(** [m * 10^e] *)
Definition scale10 (m e : Z) : Q :=
  if 0 <=? e then inject_Z (m * 10 ^ e) else m # Z.to_pos (10 ^ (- e)).

(** Significand [d.ddd] and exponent, as in [1.5e+21]. *)
Definition exponential (sig : string) (sign : string) (e : Z) : string :=
  match sig with
  | "" => "0"
  | String c r =>
    String c (if isEmpty r then "" else "." ++ r) ++ "e" ++ sign ++ digitsOf e
  end.

(** [Number.prototype.toString] on a positive number, from the exact
    decimal expansion of its value. *)
Definition toStringPos (x : Q) : string :=
  let ip := Qfloor x in
  let den := Zpos (Qden x) in
  let fr := fracDigits 1100 (Qnum x mod den) den in
  if ip >? 0 then
    let ds := digitsOf ip in
    let n := Z.of_nat (String.length ds) in
    if n <=? 21 then ds ++ (if isEmpty fr then "" else "." ++ fr)
    else exponential (stripTrailingZeros (ds ++ fr)) "+" (n - 1)
  else
    let z := leadingZeros fr in
    if (z <=? 5)%nat then "0." ++ fr
    else exponential (substring z (String.length fr - z) fr) "-"
           (Z.of_nat z + 1).

Definition toString (x : Q) : string :=
  if Qeq_bool x 0 then "0"
  else if Qltb x 0 then "-" ++ toStringPos (- x)
  else toStringPos x.

(** [Number.prototype.toFixed] for a digit count it accepts. *)
Definition toFixedDigits (x : Q) (f : nat) : string :=
  let sign := if Qltb x 0 then "-" else "" in
  let ax := Qabs x in
  if Qle_bool (inject_Z (10 ^ 21)) ax then sign ++ toString ax
  else
    let p := 10 ^ Z.of_nat f in
    let n := Qfloor (ax * inject_Z p + (1 # 2)) in
    sign ++ match f with
            | O => digitsOf n
            | _ => digitsOf (n / p) ++ "." ++ fixedDigits f (n mod p) ""
            end.

(** [x.toFixed(digits)]; [None] is the [RangeError] raised for a digit
    count outside 0..100. *)
Definition toFixed (x : Q) (digits : Z) : option string :=
  if (digits <? 0) || (100 <? digits) then None
  else Some (toFixedDigits x (Z.to_nat digits)).

(** [Math.pow(10, p)] for an integer [p]. *)
Definition Math_pow10 (p : Z) : Q := Qpower (inject_Z 10) p.

(** The replacement text of [String.prototype.replace] for a match of the
    empty string with one capture group: [$$], [$&], [$`], [$'] and
    [$1]/[$01] are expanded, every other character is copied. *)
Fixpoint getSubstitution (before after capture template : string) : string :=
  match template with
  | "" => ""
  | String "$" (String c r as t) =>
    if Ascii.eqb c "$" then String "$" (getSubstitution before after capture r)
    else if Ascii.eqb c "&" then getSubstitution before after capture r
    else if Ascii.eqb c "`" then
      before ++ getSubstitution before after capture r
    else if Ascii.eqb c "'" then
      after ++ getSubstitution before after capture r
    else if Ascii.eqb c "1" then
      capture ++ getSubstitution before after capture r
    else if Ascii.eqb c "0" then
      match r with
      | String "1" r' => capture ++ getSubstitution before after capture r'
      | _ => String "$" (getSubstitution before after capture t)
      end
    else String "$" (getSubstitution before after capture t)
  | String c r => String c (getSubstitution before after capture r)
  end.

(** [s.replace(/\B(?=(\d{3})+(?!\d))/g, separator)]: the separator is
    inserted before every digit that is preceded by a word character and
    followed, itself included, by a run of digits whose length is a
    positive multiple of three. *)
Fixpoint groupFrom (separator before : string) (prevWord : bool)
    (s : string) : string :=
  match s with
  | "" => ""
  | String c r =>
    let k := String.length (takeDigits s) in
    let here :=
      if prevWord && (3 <=? k)%nat && (k mod 3 =? 0)%nat
      then getSubstitution before s (substring (k - 3) 3 s) separator
      else "" in
    here ++ String c (groupFrom separator (before ++ String c "")
                        (isWordChar c) r)
  end.

Definition groupThousands (separator s : string) : string :=
  groupFrom separator "" false s.

(** [s.replace(/rp/gi, '')] *)
Fixpoint removeRp (s : string) : string :=
  match s with
  | "" => ""
  | String c t =>
    match t with
    | String d r =>
      if Ascii.eqb (toLowerChar c) "r" && Ascii.eqb (toLowerChar d) "p"
      then removeRp r
      else String c (removeRp t)
    | "" => s
    end
  end.

(** The first match of the number pattern of [parseRupiah]: an optional
    minus sign, one or more digits, an optional comma or dot, and any
    further digits. *)
Definition numericBody (s : string) : string :=
  let ip := takeDigits s in
  match dropDigits s with
  | String c r =>
    if Ascii.eqb c "," || Ascii.eqb c "." then ip ++ String c (takeDigits r)
    else ip
  | "" => ip
  end.

Definition startsWithDigit (s : string) : bool :=
  match s with String c _ => isDigit c | "" => false end.

Fixpoint matchNumber (s : string) : option string :=
  match s with
  | "" => None
  | String c r =>
    if Ascii.eqb c "-" && startsWithDigit r
    then Some (String "-" (numericBody r))
    else if isDigit c then Some (numericBody s)
    else matchNumber r
  end.

(** A number as [parseFloat] returns it. *)
Inductive number : Type :=
| NaN : number
| Num : Q -> number.

Definition isNaN (n : number) : bool :=
  match n with NaN => true | Num _ => false end.

Definition mul (n : number) (k : Q) : number :=
  match n with NaN => NaN | Num q => Num (q * k) end.

(** An optional sign, as in a numeric literal. *)
Definition readSign (s : string) : bool * string :=
  match s with
  | String "-" r => (true, r)
  | String "+" r => (false, r)
  | _ => (false, s)
  end.

Definition signed (neg : bool) (z : Z) : Z := if neg then - z else z.

(** The exponent part [e[+-]ddd] of a literal, [0] when absent or
    malformed. *)
Definition readExponent (s : string) : Z :=
  match s with
  | String c r =>
    if Ascii.eqb c "e" || Ascii.eqb c "E" then
      let (neg, r') := readSign r in
      let ds := takeDigits r' in
      if isEmpty ds then 0 else signed neg (digitsValue 0 ds)
    else 0
  | "" => 0
  end.

(** [parseFloat]: the longest prefix that is a decimal literal, after
    leading white space.  The literal [Infinity] is left out: every text
    this module parses has been lower-cased first. *)
Definition parseFloat (s : string) : number :=
  let (neg, s0) := readSign (trimStart s) in
  let ip := takeDigits s0 in
  let s1 := dropDigits s0 in
  let '(fp, s2) :=
    match s1 with
    | String "." r => (takeDigits r, dropDigits r)
    | _ => ("", s1)
    end in
  if isEmpty ip && isEmpty fp then NaN
  else
    let e := readExponent s2 in
    Num (scale10 (signed neg (digitsValue 0 (ip ++ fp)))
           (e - Z.of_nat (String.length fp))).

(** [arr[i]] read inside a string concatenation. *)
Definition at_ (arr : list string) (i : Z) : string :=
  if i <? 0 then "undefined" else nth (Z.to_nat i) arr "undefined".

End JS.

(** ** currency/words.ts *)

Module Words.
Import JS.

Record WordOptions := {
  uppercase : option bool;
  withCurrency : option bool
}.

Definition BASIC_NUMBERS : list string :=
  [""; "satu"; "dua"; "tiga"; "empat"; "lima"; "enam"; "tujuh"; "delapan";
   "sembilan"].

Definition TEENS : list string :=
  ["sepuluh"; "sebelas"; "dua belas"; "tiga belas"; "empat belas";
   "lima belas"; "enam belas"; "tujuh belas"; "delapan belas";
   "sembilan belas"].

Definition TENS : list string :=
  [""; ""; "dua puluh"; "tiga puluh"; "empat puluh"; "lima puluh";
   "enam puluh"; "tujuh puluh"; "delapan puluh"; "sembilan puluh"].

Definition capitalize (str : string) : string :=
  match str with
  | "" => ""
  | String c r => String (toUpperChar c) r
  end.

Definition convertTwoDigits (num : Z) : string :=
  if num =? 0 then ""
  else if num <? 10 then at_ BASIC_NUMBERS num
  else if (10 <=? num) && (num <? 20) then at_ TEENS (num - 10)
  else
    let tens := num / 10 in
    let ones := num mod 10 in
    let result := at_ TENS tens in
    if ones >? 0 then result ++ " " ++ at_ BASIC_NUMBERS ones else result.

Definition convertGroup (num : Z) : string :=
  if num =? 0 then ""
  else
    let result := "" in
    let hundreds := num / 100 in
    let result :=
      if hundreds >? 0
      then (if hundreds =? 1 then "seratus"
            else at_ BASIC_NUMBERS hundreds ++ " ratus")
      else result in
    let remainder := num mod 100 in
    if remainder >? 0
    then (if truthy result then result ++ " " else result)
           ++ convertTwoDigits remainder
    else result.

(** [if (words) words += ' '] *)
Definition spaced (words : string) : string :=
  if truthy words then words ++ " " else words.

(** [const { uppercase = false, withCurrency = true } = options || {}] *)
Definition optUppercase (options : option WordOptions) : bool :=
  match options with
  | Some {| uppercase := Some b |} => b
  | _ => false
  end.

Definition optWithCurrency (options : option WordOptions) : bool :=
  match options with
  | Some {| withCurrency := Some b |} => b
  | _ => true
  end.

Definition toWords (amount : Q) (options : option WordOptions) : string :=
  let uppercase := optUppercase options in
  let withCurrency := optWithCurrency options in
  if Qeq_bool amount 0 then
    let result := "nol" in
    let result := if withCurrency then result ++ " rupiah" else result in
    if uppercase then capitalize result else result
  else
    let isNegative := negb (Qle_bool 0 amount) in
    let absAmount := Qfloor (Qabs amount) in
    let words := "" in
    let triliun := absAmount / 1000000000000 in
    let miliar := (absAmount mod 1000000000000) / 1000000000 in
    let juta := (absAmount mod 1000000000) / 1000000 in
    let ribu := (absAmount mod 1000000) / 1000 in
    let sisa := absAmount mod 1000 in
    let words :=
      if triliun >? 0 then words ++ convertGroup triliun ++ " triliun"
      else words in
    let words :=
      if miliar >? 0 then spaced words ++ convertGroup miliar ++ " miliar"
      else words in
    let words :=
      if juta >? 0 then spaced words ++ convertGroup juta ++ " juta"
      else words in
    let words :=
      if ribu >? 0
      then spaced words
             ++ (if ribu =? 1 then "seribu" else convertGroup ribu ++ " ribu")
      else words in
    let words :=
      if sisa >? 0 then spaced words ++ convertGroup sisa else words in
    let words := if isNegative then "minus " ++ words else words in
    let words := if withCurrency then words ++ " rupiah" else words in
    if uppercase then capitalize words else words.

End Words.

(** ** currency/utils.ts *)

Module Utils.
Import JS.

Inductive RoundUnit : Type := ribu | ratus_ribu | juta.

Definition divisors (unit : RoundUnit) : Q :=
  match unit with
  | ribu => 1000
  | ratus_ribu => 100000
  | juta => 1000000
  end.

Definition roundToClean (amount : Q) (unit : option RoundUnit) : Q :=
  let unit := match unit with Some u => u | None => ribu end in
  let divisor := divisors unit in
  (Math_round (amount / divisor) * divisor)%Q.

End Utils.

(** ** currency/format.ts *)

Module Format.
Import JS.

Record RupiahOptions := {
  symbol : option bool;
  decimal : option bool;
  separator : option string;
  decimalSeparator : option string;
  precision : option Z;
  spaceAfterSymbol : option bool
}.

Definition noOptions : RupiahOptions :=
  {| symbol := None; decimal := None; separator := None;
     decimalSeparator := None; precision := None;
     spaceAfterSymbol := None |}.

Definition orDefault {A : Type} (field : option A) (default : A) : A :=
  match field with Some v => v | None => default end.

(** [None] stands for the [RangeError] of [toFixed]. *)
Definition formatRupiah (amount : Q) (options : option RupiahOptions)
  : option string :=
  let opts := orDefault options noOptions in
  let symbol := orDefault opts.(symbol) true in
  let decimal := orDefault opts.(decimal) false in
  let separator := orDefault opts.(separator) "." in
  let decimalSeparator := orDefault opts.(decimalSeparator) "," in
  let spaceAfterSymbol := orDefault opts.(spaceAfterSymbol) true in
  let precision :=
    match opts.(precision) with
    | Some p => p
    | None => if decimal then 2 else 0
    end in
  let isNegative := Qltb amount 0 in
  let absAmount := Qabs amount in
  let result :=
    if decimal then
      let factor := Math_pow10 precision in
      let rounded := (Math_round (absAmount * factor) / factor)%Q in
      if precision >? 0 then
        match toFixed rounded precision with
        | None => None
        | Some fixed =>
          let parts := split "." fixed in
          let intPart := at_ parts 0 in
          let decPart := at_ parts 1 in
          let formattedInt := groupThousands separator intPart in
          Some (formattedInt ++ decimalSeparator ++ decPart)
        end
      else
        let intPart := toString rounded in
        Some (groupThousands separator intPart)
    else
      let intAmount := Math_floor absAmount in
      Some (groupThousands separator (toString intAmount)) in
  match result with
  | None => None
  | Some result =>
    let result := if isNegative then "-" ++ result else result in
    let result :=
      if symbol
      then "Rp" ++ (if spaceAfterSymbol then " " else "") ++ result
      else result in
    Some result
  end.

Definition formatCompactValue (value : Q) (unit : string) : string :=
  let rounded := (Math_round (value * 10) / 10)%Q in
  if isInteger rounded
  then toFixedDigits rounded 0 ++ " " ++ unit
  else replaceFirst "." "," (toString rounded) ++ " " ++ unit.

Definition formatCompact (amount : Q) : string :=
  let isNegative := Qltb amount 0 in
  let abs := Qabs amount in
  let result :=
    if Qle_bool 1000000000000 abs then
      formatCompactValue (abs / 1000000000000) "triliun"
    else if Qle_bool 1000000000 abs then
      formatCompactValue (abs / 1000000000) "miliar"
    else if Qle_bool 1000000 abs then
      formatCompactValue (abs / 1000000) "juta"
    else if Qle_bool 100000 abs then
      formatCompactValue (abs / 1000) "ribu"
    else if Qle_bool 1000 abs then
      groupThousands "." (toString abs)
    else toString abs in
  let result := if isNegative then "-" ++ result else result in
  "Rp " ++ result.

End Format.

(** ** currency/parse.ts *)

Module Parse.
Import JS.

Definition compactUnits : list (string * Q) :=
  [("triliun", 1000000000000%Q); ("miliar", 1000000000%Q);
   ("juta", 1000000%Q); ("ribu", 1000%Q)].

(** The loop over [Object.entries(compactUnits)]; [None] when it falls
    through. *)
Fixpoint compactLoop (cleaned : string) (units : list (string * Q))
  : option number :=
  match units with
  | [] => None
  | (unit, multiplier) :: rest =>
    if includes unit cleaned then
      match matchNumber cleaned with
      | Some m =>
        let num := parseFloat (replaceFirst "," "." m) in
        Some (mul num multiplier)
      | None => compactLoop cleaned rest
      end
    else compactLoop cleaned rest
  end.

(** The text handed to the final [parseFloat]. *)
Definition canonical (numStr : string) : string :=
  let hasDot := hasChar "." numStr in
  let hasComma := hasChar "," numStr in
  if hasDot && hasComma then
    let lastDot := lastIndexOf "." numStr in
    let lastComma := lastIndexOf "," numStr in
    if lastComma >? lastDot
    then replaceFirst "," "." (removeAll "." numStr)
    else removeAll "," numStr
  else if hasComma then
    let parts := split "," numStr in
    if (length parts =? 2)%nat && (String.length (at_ parts 1) <=? 2)%nat
    then replaceFirst "," "." numStr
    else removeAll "," numStr
  else if hasDot then
    let parts := split "." numStr in
    if (2 <? length parts)%nat
       || (length parts =? 2)%nat && (2 <? String.length (at_ parts 1))%nat
    then removeAll "." numStr
    else numStr
  else numStr.

(** [None] is the [null] sentinel. *)
Definition parseRupiah (formatted : string) : option number :=
  if isEmpty formatted then None
  else
    let cleaned := toLowerCase (trim formatted) in
    match compactLoop cleaned compactUnits with
    | Some result => Some result
    | None =>
      let numStr := trim (removeRp cleaned) in
      let numStr := canonical numStr in
      let parsed := parseFloat numStr in
      if isNaN parsed then None else Some parsed
    end.

End Parse.

(** ** Further JavaScript primitives: substrings, repetition, dates *)

Module Builtins.
Import JS.

(** [s.substring(start, finish)]: both indices are clamped to the text
    and swapped when out of order. *)
Definition clamp (len i : Z) : Z := Z.max 0 (Z.min i len).

Definition substring (s : string) (start finish : Z) : string :=
  let len := Z.of_nat (String.length s) in
  let a := clamp len start in
  let b := clamp len finish in
  let lo := Z.min a b in
  let hi := Z.max a b in
  String.substring (Z.to_nat lo) (Z.to_nat (hi - lo)) s.

(** [s.substring(start)] *)
Definition substringFrom (s : string) (start : Z) : string :=
  substring s start (Z.of_nat (String.length s)).

(** [s.repeat(count)] for a count that is not negative. *)
Fixpoint repeatNat (s : string) (count : nat) : string :=
  match count with
  | O => ""
  | S k => s ++ repeatNat s k
  end.

Definition repeat (s : string) (count : Z) : string :=
  repeatNat s (Z.to_nat count).

(** [parts.join(separator)] *)
Definition join (separator : string) (parts : list string) : string :=
  String.concat separator parts.

(** [s.split('')] *)
Fixpoint chars (s : string) : list string :=
  match s with
  | "" => []
  | String c r => String c "" :: chars r
  end.

(** [s.split(separator)] for a separator that is not empty: the text is
    cut at every occurrence of the separator, found from left to right;
    [skip] counts the characters of a separator still to be passed over. *)
Fixpoint splitFrom (separator : string) (skip : nat) (piece s : string)
  : list string :=
  match s with
  | "" => [piece]
  | String c r =>
    match skip with
    | S k => splitFrom separator k piece r
    | O =>
      if startsWith separator s
      then piece :: splitFrom separator (String.length separator - 1) "" r
      else splitFrom separator O (piece ++ String c "") r
    end
  end.

Definition splitOn (separator s : string) : list string :=
  if isEmpty separator then chars s else splitFrom separator O "" s.

(** [/^\d+$/.test(s)] *)
Definition isDigits (s : string) : bool := negb (isEmpty s) && allDigits s.

(** [parseInt(s, 10)] on a text of digits. *)
Definition parseInt (s : string) : Z := digitsValue 0 s.

(** *** Calendar dates

    A [Date] built from a year, a month index and a day of the month, and
    read back with [getFullYear], [getMonth] and [getDate], in local
    time: only the calendar day matters.  The constructor carries a month
    index outside 0..11 into the years, and a day outside the month into
    the months before or after it. *)
Record Date : Type := {
  getFullYear : Z;
  getMonth : Z;
  getDate : Z
}.

Definition isLeapYear (y : Z) : bool :=
  (y mod 4 =? 0) && (negb (y mod 100 =? 0) || (y mod 400 =? 0)).

Definition daysInMonth (y m : Z) : Z :=
  if m =? 1 then (if isLeapYear y then 29 else 28)
  else if (m =? 3) || (m =? 5) || (m =? 8) || (m =? 10) then 30
  else 31.

Definition monthBefore (y m : Z) : Z * Z :=
  if m =? 0 then (y - 1, 11) else (y, m - 1).

Definition monthAfter (y m : Z) : Z * Z :=
  if m =? 11 then (y + 1, 0) else (y, m + 1).

Fixpoint carryDays (fuel : nat) (y m d : Z) : Date :=
  match fuel with
  | O => {| getFullYear := y; getMonth := m; getDate := d |}
  | S f =>
    if d <? 1 then
      let (y', m') := monthBefore y m in
      carryDays f y' m' (d + daysInMonth y' m')
    else if d >? daysInMonth y m then
      let (y', m') := monthAfter y m in
      carryDays f y' m' (d - daysInMonth y m)
    else {| getFullYear := y; getMonth := m; getDate := d |}
  end.

(** [new Date(year, monthIndex, day)] *)
Definition newDate (year monthIndex day : Z) : Date :=
  let year := if (0 <=? year) && (year <=? 99) then 1900 + year else year in
  carryDays (S (Z.to_nat (Z.abs day)))
    (year + monthIndex / 12) (monthIndex mod 12) day.

(** [a > b] on dates. *)
Definition dateAfter (a b : Date) : bool :=
  (b.(getFullYear) <? a.(getFullYear))
  || (b.(getFullYear) =? a.(getFullYear))
     && ((b.(getMonth) <? a.(getMonth))
         || (b.(getMonth) =? a.(getMonth))
            && (b.(getDate) <? a.(getDate))).

End Builtins.

(** ** nik/constants.ts, nik/validate.ts, nik/parse.ts, nik/format.ts *)

Module NIK.
Import JS Builtins.

Definition PROVINCES : list (string * string) :=
  [("11", "Aceh"); ("12", "Sumatera Utara"); ("13", "Sumatera Barat");
   ("14", "Riau"); ("15", "Jambi"); ("16", "Sumatera Selatan");
   ("17", "Bengkulu"); ("18", "Lampung");
   ("19", "Kepulauan Bangka Belitung"); ("21", "Kepulauan Riau");
   ("31", "DKI Jakarta"); ("32", "Jawa Barat"); ("33", "Jawa Tengah");
   ("34", "DI Yogyakarta"); ("35", "Jawa Timur"); ("36", "Banten");
   ("51", "Bali"); ("52", "Nusa Tenggara Barat");
   ("53", "Nusa Tenggara Timur"); ("61", "Kalimantan Barat");
   ("62", "Kalimantan Tengah"); ("63", "Kalimantan Selatan");
   ("64", "Kalimantan Timur"); ("65", "Kalimantan Utara");
   ("71", "Sulawesi Utara"); ("72", "Sulawesi Tengah");
   ("73", "Sulawesi Selatan"); ("74", "Sulawesi Tenggara");
   ("75", "Gorontalo"); ("76", "Sulawesi Barat"); ("81", "Maluku");
   ("82", "Maluku Utara"); ("91", "Papua"); ("92", "Papua Barat");
   ("93", "Papua Selatan"); ("94", "Papua Tengah");
   ("95", "Papua Pegunungan"); ("96", "Papua Barat Daya")].

Definition REGENCIES : list (string * list (string * string)) :=
  [("32", [("01", "Kab. Bogor"); ("02", "Kab. Sukabumi");
           ("03", "Kab. Cianjur"); ("71", "Kota Bandung");
           ("72", "Kota Bekasi"); ("73", "Kota Depok")]);
   ("31", [("01", "Kota Jakarta Selatan"); ("02", "Kota Jakarta Timur");
           ("03", "Kota Jakarta Pusat"); ("04", "Kota Jakarta Barat");
           ("05", "Kota Jakarta Utara")])].

(** [table[key]] *)
Fixpoint lookup {A : Type} (table : list (string * A)) (key : string)
  : option A :=
  match table with
  | [] => None
  | (k, v) :: rest => if String.eqb k key then Some v else lookup rest key
  end.

(** [/^\d{16}$/.test(nik)] *)
Definition isSixteenDigits (nik : string) : bool :=
  allDigits nik && (String.length nik =? 16)%nat.

(** The instant [new Date()] enters [validateNIK] as the calendar day
    [now] it falls on. *)
Definition validateNIK (now : Date) (nik : string) : bool :=
  if negb (isSixteenDigits nik) then false
  else
    let provinceCode := substring nik 0 2 in
    match lookup PROVINCES provinceCode with
    | None => false
    | Some name =>
      if negb (truthy name) then false
      else
        let yearStr := substring nik 6 8 in
        let monthStr := substring nik 8 10 in
        let dayStr := substring nik 10 12 in
        let year := parseInt yearStr in
        let fullYear := if year >? 30 then 1900 + year else 2000 + year in
        let month := parseInt monthStr in
        let day := parseInt dayStr in
        let day := if day >? 40 then day - 40 else day in
        if (month <? 1) || (month >? 12) then false
        else if (day <? 1) || (day >? 31) then false
        else
          let testDate := newDate fullYear (month - 1) day in
          if negb (testDate.(getFullYear) =? fullYear)
             || negb (testDate.(getMonth) =? month - 1)
             || negb (testDate.(getDate) =? day)
          then false
          else if dateAfter testDate now
                  || dateAfter (newDate 1900 0 1) testDate
          then false
          else true
    end.

Inductive Gender : Type := male | female.

Record Coded (A : Type) : Type := {
  code : string;
  name : A
}.
Arguments code {A}.
Arguments name {A}.

Record NIKInfo : Type := {
  province : Coded string;
  regency : Coded string;
  district : Coded (option string);
  birthDate : option Date;
  gender : option Gender;
  serialNumber : option string;
  isValid : bool
}.

Definition parseNIK (nik : string) : option NIKInfo :=
  if negb (isSixteenDigits nik) then None
  else
    let provinceCode := substring nik 0 2 in
    let regencyCode := substring nik 2 4 in
    let districtCode := substring nik 4 6 in
    let yearStr := substring nik 6 8 in
    let monthStr := substring nik 8 10 in
    let dayStr := substring nik 10 12 in
    let serialNumber := substring nik 12 16 in
    match lookup PROVINCES provinceCode with
    | None => None
    | Some province =>
      if negb (truthy province) then None
      else
        let regencies :=
          match lookup REGENCIES provinceCode with
          | Some table => table
          | None => []
          end in
        let regency :=
          match lookup regencies regencyCode with
          | Some r => if truthy r then r else "Unknown"
          | None => "Unknown"
          end in
        let day := parseInt dayStr in
        let month := parseInt monthStr in
        let year := parseInt yearStr in
        let '(gender, day) :=
          if day >? 40 then (female, day - 40) else (male, day) in
        let fullYear := if year >? 30 then 1900 + year else 2000 + year in
        let birthDate := newDate fullYear (month - 1) day in
        if negb (birthDate.(getFullYear) =? fullYear)
           || negb (birthDate.(getMonth) =? month - 1)
           || negb (birthDate.(getDate) =? day)
        then None
        else
          Some {| province := {| code := provinceCode; name := province |};
                  regency := {| code := regencyCode; name := regency |};
                  district := {| code := districtCode; name := None |};
                  birthDate := Some birthDate;
                  gender := Some gender;
                  serialNumber := Some serialNumber;
                  isValid := true |}
    end.

(** [formatNIK(nik, separator = '-')] *)
Definition formatNIK (nik : string) (separator : option string) : string :=
  let separator := match separator with Some s => s | None => "-" end in
  if negb (isSixteenDigits nik) then nik
  else
    join separator
      [substring nik 0 2; substring nik 2 4; substring nik 4 6;
       substring nik 6 8; substring nik 8 10; substring nik 10 12;
       substring nik 12 16].

Record MaskOptions : Type := {
  start : option Z;
  end_ : option Z;
  char : option string;
  separator : option string
}.

Definition noMaskOptions : MaskOptions :=
  {| start := None; end_ := None; char := None; separator := None |}.

(** One step of [parts.map] in [maskNIK]: [charCount] is the number of
    characters of the parts before this one. *)
Definition maskPart (start end_ : Z) (char : string) (charCount : Z)
    (part : string) : string :=
  let partStart := charCount in
  let partEnd := charCount + Z.of_nat (String.length part) in
  if partEnd <=? start then part
  else if partStart >=? 16 - end_ then part
  else if (partStart >=? start) && (partEnd <=? 16 - end_)
  then repeat char (Z.of_nat (String.length part))
  else
    join ""
      (snd (fold_left
              (fun (st : Z * list string) (ch : string) =>
                 let (idx, out) := st in
                 let pos := partStart + idx in
                 (idx + 1,
                  (out ++ [if (pos <? start) || (pos >=? 16 - end_)
                           then ch else char])%list))
              (chars part) (0, []))).

Fixpoint maskParts (start end_ : Z) (char : string) (charCount : Z)
    (parts : list string) : list string :=
  match parts with
  | [] => []
  | part :: rest =>
    maskPart start end_ char charCount part
      :: maskParts start end_ char
           (charCount + Z.of_nat (String.length part)) rest
  end.

Definition maskNIK (nik : string) (options : option MaskOptions) : string :=
  let options := match options with Some o => o | None => noMaskOptions end in
  if negb (isSixteenDigits nik) then nik
  else
    let start := match options.(start) with Some v => v | None => 4 end in
    let end_ := match options.(end_) with Some v => v | None => 4 end in
    let char := match options.(char) with Some v => v | None => "*" end in
    if start + end_ >=? 16 then nik
    else
      match options.(separator) with
      | Some separator =>
        if truthy separator then
          let formatted := formatNIK nik (Some separator) in
          let parts := splitOn separator formatted in
          let maskedParts := maskParts start end_ char 0 parts in
          join separator maskedParts
        else
          let startPart := substring nik 0 start in
          let endPart := substringFrom nik (16 - end_) in
          let maskLength := 16 - start - end_ in
          startPart ++ repeat char maskLength ++ endPart
      | None =>
        let startPart := substring nik 0 start in
        let endPart := substringFrom nik (16 - end_) in
        let maskLength := 16 - start - end_ in
        startPart ++ repeat char maskLength ++ endPart
      end.

End NIK.

(** ** phone/format.ts: cleaning, the E.164 notation and masking *)

Module Phone.
Import JS Builtins.

(** [s.replace(/[^\d+]/g, '')] *)
Fixpoint keepDigitsAndPlus (s : string) : string :=
  match s with
  | "" => ""
  | String c r =>
    if isDigit c || Ascii.eqb c "+" then String c (keepDigitsAndPlus r)
    else keepDigitsAndPlus r
  end.

Definition cleanPhoneNumber (phone : string) : string :=
  if negb (truthy phone) then "" else keepDigitsAndPlus phone.

Definition normalizeToNational (phone : string) : string :=
  if startsWith "+62" phone then "0" ++ substringFrom phone 3
  else if startsWith "62" phone && negb (startsWith "620" phone)
  then "0" ++ substringFrom phone 2
  else if startsWith "0" phone then phone
  else "".

Definition toE164 (phone : string) : string :=
  let cleaned := cleanPhoneNumber phone in
  if negb (truthy cleaned) then phone
  else
    let normalized := normalizeToNational cleaned in
    if negb (truthy normalized) then phone
    else "62" ++ substringFrom normalized 1.

Record MaskOptions : Type := {
  start : option Z;
  end_ : option Z;
  char : option string;
  separator : option string
}.

Definition noMaskOptions : MaskOptions :=
  {| start := None; end_ := None; char := None; separator := None |}.

Definition maskPhoneNumber (phone : string) (options : option MaskOptions)
  : string :=
  let options := match options with Some o => o | None => noMaskOptions end in
  let cleaned := cleanPhoneNumber phone in
  if negb (truthy cleaned) then phone
  else
    let isInternational := startsWith "+" cleaned in
    let toMask :=
      if isInternational then cleaned
      else
        let normalized := normalizeToNational cleaned in
        if truthy normalized then normalized else cleaned in
    let len := Z.of_nat (String.length toMask) in
    if len <? 4 then phone
    else
      let char := match options.(char) with Some v => v | None => "*" end in
      let separator := options.(separator) in
      let start := match options.(start) with Some v => v | None => 4 end in
      let end_ := match options.(end_) with Some v => v | None => 4 end in
      let finish (start end_ : Z) : string :=
        let startPart := substring toMask 0 start in
        let endPart := substringFrom toMask (len - end_) in
        let maskLength := len - start - end_ in
        let masked := startPart ++ repeat char maskLength ++ endPart in
        let mlen := Z.of_nat (String.length masked) in
        match separator with
        | Some sep =>
          if truthy sep
          then substring masked 0 start ++ sep
                 ++ substring masked start (mlen - end_) ++ sep
                 ++ substringFrom masked (mlen - end_)
          else masked
        | None => masked
        end in
      if start + end_ >=? len then
        if len <? 10 then
          let minMaskLength := 1 in
          let availableForVisible := len - minMaskLength in
          if availableForVisible >=? 2 then
            let start := availableForVisible / 2 in
            let end_ := availableForVisible - start in
            finish start end_
          else toMask
        else toMask
      else finish start end_.

End Phone.

(** ** The specification's wording

    Definitions written after the sentences of the specification, to be
    compared with the code above. *)

Module Spec.
Import JS.

(** "nearest ... with exact half-way values rounded away from zero" *)
Definition roundHalfAway (x : Q) : Q :=
  if Qltb x 0 then (- inject_Z (Qfloor (- x + (1 # 2))))%Q
  else inject_Z (Qfloor (x + (1 # 2))).

(** "the integer multiple of the unit's divisor nearest to the amount" *)
Definition nearestMultiple (amount divisor : Q) : Q :=
  (roundHalfAway (amount / divisor) * divisor)%Q.

(** Words of one magnitude group: "a ribu-count of exactly 1 renders as
    seribu; triliun/miliar/juta counts of 1 use the regular form". *)
Definition unitWords (unit : string) (count : Z) : string :=
  if count =? 0 then ""
  else if String.eqb unit "ribu" && (count =? 1) then "seribu"
  else Words.convertGroup count ++ " " ++ unit.

(** "Nonzero groups are joined with single spaces; zero-valued groups
    contribute nothing." *)
Fixpoint joinWords (groups : list string) : string :=
  match groups with
  | [] => ""
  | w :: rest =>
    let tail := joinWords rest in
    if isEmpty w then tail
    else if isEmpty tail then w
    else w ++ " " ++ tail
  end.

(** "Selects the largest unit U such that abs(amount) >= threshold(U)":
    the unit's name and divisor, if any. *)
Definition selectedUnit (abs : Q) : option (string * Q) :=
  if Qle_bool 1000000000000 abs then Some ("triliun", 1000000000000%Q)
  else if Qle_bool 1000000000 abs then Some ("miliar", 1000000000%Q)
  else if Qle_bool 1000000 abs then Some ("juta", 1000000%Q)
  else if Qle_bool 100000 abs then Some ("ribu", 1000%Q)
  else None.

(** "half a unit's smallest displayed increment": one twentieth of the
    divisor, nothing where no unit is used. *)
Definition halfIncrement (amount : Q) : Q :=
  match selectedUnit (Qabs amount) with
  | Some (_, divisor) => (divisor / 20)%Q
  | None => 0%Q
  end.

(** "the separator that appears last (rightmost)" *)
Definition isSeparator (c : ascii) : bool :=
  Ascii.eqb c "." || Ascii.eqb c ",".

Definition hasSeparator (s : string) : bool :=
  hasChar "." s || hasChar "," s.

Fixpoint lastSeparator (s : string) : option ascii :=
  match s with
  | "" => None
  | String c r =>
    match lastSeparator r with
    | Some x => Some x
    | None => if isSeparator c then Some c else None
    end
  end.

Fixpoint occurrences (c : ascii) (s : string) : nat :=
  match s with
  | "" => O
  | String d r => ((if Ascii.eqb d c then 1 else 0) + occurrences c r)%nat
  end.

(** "the separator that appears last is treated as the decimal marker;
    every earlier occurrence of either punctuation character is treated
    as a thousands separator and removed" *)
Fixpoint canonical (s : string) : string :=
  match s with
  | "" => ""
  | String c r =>
    if isSeparator c then
      if hasSeparator r then canonical r else String "." r
    else String c (canonical r)
  end.

End Spec.

(** ** Reference definitions

    Plain descriptions of what the code is shown to compute. *)

Module Reference.
Import JS.

(** The digits of [n] cut from the right into groups of three, the groups
    joined by [separator]. *)
Fixpoint groupsFuel (fuel : nat) (separator : string) (n : Z) : string :=
  match fuel with
  | O => digitsOf n
  | S f =>
    if n <? 1000 then digitsOf n
    else groupsFuel f separator (n / 1000) ++ separator
           ++ fixedDigits 3 (n mod 1000) ""
  end.

Definition digitGroups (separator : string) (n : Z) : string :=
  groupsFuel 7 separator n.


(** A text with every character from position [start] up to (not
    including) position [16 - end_] replaced by [char]; [i] is the
    position of the first character of [s]. *)
Fixpoint maskFrom (start end_ : Z) (char : string) (i : Z) (s : string)
  : string :=
  match s with
  | "" => ""
  | String ch r =>
    (if (i <? start) || (i >=? 16 - end_) then String ch "" else char)
      ++ maskFrom start end_ char (i + 1) r
  end.

End Reference.

(** * Properties *)

(** ** Rounding to clean amounts *)

Module UtilsFacts.
Import JS Utils.
Open Scope Q_scope.

Lemma divisors_pos (unit : RoundUnit) : 0 < divisors unit.
Proof. destruct unit; reflexivity. Qed.

Lemma Math_round_bounds (x : Q) :
  x - (1 # 2) < Math_round x /\ Math_round x <= x + (1 # 2).
Proof.
  unfold Math_round.
  pose proof (Qfloor_le (x + (1 # 2))) as Hle.
  pose proof (Qlt_floor (x + (1 # 2))) as Hlt.
  rewrite inject_Z_plus in Hlt. change (inject_Z 1) with 1 in Hlt.
  split; lra.
Qed.

Lemma roundToClean_default (amount : Q) :
  roundToClean amount None = roundToClean amount (Some ribu).
Proof. reflexivity. Qed.

Lemma roundHalfAway_nonneg (x : Q) :
  0 <= x -> Spec.roundHalfAway x = Math_round x.
Proof.
  intros Hx. unfold Spec.roundHalfAway, Qltb.
  destruct (Qle_bool 0 x) eqn:E; [reflexivity|].
  apply Qle_bool_iff in Hx. congruence.
Qed.




End UtilsFacts.

(** ** Exhaustive checks over a range of integers *)

Module Range.

Fixpoint upto (lo : Z) (n : nat) : list Z :=
  match n with
  | O => []
  | S k => lo :: upto (lo + 1) k
  end.

Lemma in_upto (n : nat) (lo z : Z) :
  lo <= z < lo + Z.of_nat n -> In z (upto lo n).
Proof.
  revert lo. induction n as [|n IH]; intros lo H; [lia|].
  cbn [upto In]. destruct (Z.eq_dec lo z) as [E | E]; [left; exact E|].
  right. apply IH. lia.
Qed.

Lemma forallb_upto (P : Z -> bool) (lo : Z) (n : nat) :
  forallb P (upto lo n) = true ->
  forall z, lo <= z < lo + Z.of_nat n -> P z = true.
Proof.
  intros H z Hz. rewrite forallb_forall in H. apply H, in_upto, Hz.
Qed.

End Range.

(** ** Strings *)

Module StringFacts.
Import JS.

Lemma app_nil_r (s : string) : s ++ "" = s.
Proof. induction s as [|c s IH]; simpl; congruence. Qed.

Lemma app_assoc (a b c : string) : (a ++ b) ++ c = a ++ b ++ c.
Proof. induction a as [|x a IH]; simpl; congruence. Qed.

Lemma length_app (a b : string) :
  String.length (a ++ b) = (String.length a + String.length b)%nat.
Proof. induction a as [|x a IH]; simpl; congruence. Qed.

Lemma isEmpty_truthy (s : string) : isEmpty s = negb (truthy s).
Proof. destruct s; reflexivity. Qed.

Lemma isEmpty_app (a b : string) : isEmpty (a ++ b) = isEmpty a && isEmpty b.
Proof. destruct a; reflexivity. Qed.

Lemma isEmpty_true (s : string) : isEmpty s = true -> s = "".
Proof. destruct s; [reflexivity | discriminate]. Qed.

Lemma hasChar_app (c : ascii) (a b : string) :
  hasChar c (a ++ b) = hasChar c a || hasChar c b.
Proof.
  induction a as [|x a IH]; simpl; [reflexivity|].
  rewrite IH. apply orb_assoc.
Qed.

Lemma toLowerCase_app (a b : string) :
  toLowerCase (a ++ b) = toLowerCase a ++ toLowerCase b.
Proof. induction a as [|x a IH]; simpl; congruence. Qed.

Lemma toLower_toUpper (c : ascii) : toLowerChar (toUpperChar c) = toLowerChar c.
Proof. destruct c as [[] [] [] [] [] [] [] []]; reflexivity. Qed.

End StringFacts.

(** ** Terbilang *)

Module WordsFacts.
Import JS Words StringFacts.

(** The words of the five magnitude groups, as [toWords] accumulates them
    between [let words = ''] and the sign. *)
Definition groupWords (absAmount : Z) : string :=
  let words := "" in
  let triliun := absAmount / 1000000000000 in
  let miliar := (absAmount mod 1000000000000) / 1000000000 in
  let juta := (absAmount mod 1000000000) / 1000000 in
  let ribu := (absAmount mod 1000000) / 1000 in
  let sisa := absAmount mod 1000 in
  let words :=
    if triliun >? 0 then words ++ convertGroup triliun ++ " triliun"
    else words in
  let words :=
    if miliar >? 0 then spaced words ++ convertGroup miliar ++ " miliar"
    else words in
  let words :=
    if juta >? 0 then spaced words ++ convertGroup juta ++ " juta"
    else words in
  let words :=
    if ribu >? 0
    then spaced words
           ++ (if ribu =? 1 then "seribu" else convertGroup ribu ++ " ribu")
    else words in
  if sisa >? 0 then spaced words ++ convertGroup sisa else words.

(** The currency suffix. *)
Definition suffix (options : option WordOptions) : string :=
  if optWithCurrency options then " rupiah" else "".

Definition cased (options : option WordOptions) (s : string) : string :=
  if optUppercase options then capitalize s else s.

Lemma toWords_zero (amount : Q) (options : option WordOptions) :
  amount == 0 -> toWords amount options = cased options ("nol" ++ suffix options).
Proof.
  intros H. unfold toWords, cased, suffix.
  apply Qeq_bool_iff in H. rewrite H.
  destruct (optWithCurrency options); reflexivity.
Qed.

Lemma toWords_nonzero (amount : Q) (options : option WordOptions) :
  ~ amount == 0 ->
  toWords amount options
  = cased options
      ((if Qltb amount 0 then "minus " else "")
         ++ groupWords (Qfloor (Qabs amount)) ++ suffix options).
Proof.
  intros H. unfold toWords, cased, suffix, Qltb.
  destruct (Qeq_bool amount 0) eqn:E.
  - apply Qeq_bool_iff in E. contradiction.
  - fold (groupWords (Qfloor (Qabs amount))).
    destruct (negb (Qle_bool 0 amount)), (optWithCurrency options); simpl;
      rewrite ?app_nil_r; reflexivity.
Qed.

(** *** No group word holds the letter o *)

Definition lowO (s : string) : bool := hasChar "o" (toLowerCase s).

Lemma lowO_app (a b : string) : lowO (a ++ b) = lowO a || lowO b.
Proof. unfold lowO. rewrite toLowerCase_app. apply hasChar_app. Qed.

Lemma lowO_capitalize (s : string) : lowO (capitalize s) = lowO s.
Proof.
  destruct s as [|c s]; [reflexivity|].
  unfold lowO. simpl. rewrite toLower_toUpper. reflexivity.
Qed.

Lemma lowO_spaced (w : string) : lowO (spaced w) = lowO w.
Proof.
  unfold spaced. destruct (truthy w); [|reflexivity].
  rewrite lowO_app. apply orb_false_r.
Qed.

Lemma lowO_table (table : list string) (i : Z) :
  forallb (fun w => negb (lowO w)) table = true -> lowO (at_ table i) = false.
Proof.
  intros H. unfold at_. destruct (i <? 0); [reflexivity|].
  rewrite forallb_forall in H.
  destruct (nth_in_or_default (Z.to_nat i) table "undefined") as [Hin | ->];
    [|reflexivity].
  apply H in Hin. now apply negb_true_iff in Hin.
Qed.

Lemma lowO_convertTwoDigits (num : Z) : lowO (convertTwoDigits num) = false.
Proof.
  unfold convertTwoDigits.
  repeat match goal with
         | |- context [if ?b then _ else _] => destruct b
         end;
    rewrite ?lowO_app, ?lowO_table; reflexivity.
Qed.

Lemma lowO_convertGroup (num : Z) : lowO (convertGroup num) = false.
Proof.
  unfold convertGroup.
  repeat match goal with
         | |- context [if ?b then _ else _] => destruct b
         end;
    rewrite ?lowO_app, ?lowO_convertTwoDigits, ?lowO_app, ?lowO_table;
    reflexivity.
Qed.

Lemma lowO_groupWords (absAmount : Z) : lowO (groupWords absAmount) = false.
Proof.
  unfold groupWords.
  repeat match goal with
         | |- context [if ?b then _ else _] => destruct b
         end;
    repeat (rewrite ?lowO_app, ?lowO_spaced, ?lowO_convertGroup; simpl);
    reflexivity.
Qed.

Lemma includes_nol (s : string) : includes "nol" s = true -> hasChar "o" s = true.
Proof.
  induction s as [|c s IH]; [discriminate|].
  cbn [includes hasChar]. intros H.
  apply orb_true_iff in H. destruct H as [H | H].
  - destruct s as [|d s]; cbn [startsWith] in H.
    + rewrite andb_false_r in H. discriminate.
    + apply andb_true_iff in H. destruct H as [_ H].
      apply andb_true_iff in H. destruct H as [H _].
      apply Ascii.eqb_eq in H. subst d. cbn. apply orb_true_r.
  - rewrite (IH H). apply orb_true_r.
Qed.

(** *** The group words are the nonzero groups joined by single spaces *)

Definition step (words piece : string) : string :=
  if isEmpty piece then words else spaced words ++ piece.

Lemma joinWords_step (acc piece : string) (rest : list string) :
  Spec.joinWords (step acc piece :: rest) = Spec.joinWords (acc :: piece :: rest).
Proof.
  unfold step, spaced. cbn [Spec.joinWords].
  destruct piece as [|c piece], acc as [|a acc];
    cbn [isEmpty truthy]; try reflexivity.
  cbn. destruct (isEmpty (Spec.joinWords rest));
    rewrite ?app_assoc; reflexivity.
Qed.

Lemma fold_step (pieces : list string) (acc : string) :
  fold_left step pieces acc = Spec.joinWords (acc :: pieces).
Proof.
  revert acc. induction pieces as [|p pieces IH]; intros acc.
  - cbn. destruct acc; reflexivity.
  - cbn [fold_left]. rewrite IH. apply joinWords_step.
Qed.

Lemma step_unit (words unit : string) (count : Z) :
  0 <= count -> String.eqb unit "ribu" = false ->
  (if count >? 0 then spaced words ++ convertGroup count ++ " " ++ unit
   else words)
  = step words (Spec.unitWords unit count).
Proof.
  intros Hc Hu. unfold step, Spec.unitWords. rewrite Hu. cbn [andb].
  destruct (Z.gtb_spec count 0) as [Hpos | Hle].
  - replace (count =? 0) with false by (symmetry; apply Z.eqb_neq; lia).
    rewrite isEmpty_app. cbn. rewrite andb_false_r. reflexivity.
  - replace count with 0 by lia. reflexivity.
Qed.

Lemma step_ribu (words : string) (count : Z) :
  0 <= count ->
  (if count >? 0
   then spaced words
          ++ (if count =? 1 then "seribu" else convertGroup count ++ " ribu")
   else words)
  = step words (Spec.unitWords "ribu" count).
Proof.
  intros Hc. unfold step, Spec.unitWords. cbn [String.eqb Ascii.eqb Bool.eqb andb].
  destruct (Z.gtb_spec count 0) as [Hpos | Hle].
  - replace (count =? 0) with false by (symmetry; apply Z.eqb_neq; lia).
    destruct (count =? 1); [reflexivity|].
    rewrite isEmpty_app. cbn. rewrite andb_false_r. reflexivity.
  - replace count with 0 by lia. reflexivity.
Qed.

Lemma convertGroup_nonempty (sisa : Z) :
  0 < sisa < 1000 -> isEmpty (convertGroup sisa) = false.
Proof.
  intros H.
  apply negb_true_iff.
  apply (Range.forallb_upto (fun z => negb (isEmpty (convertGroup z))) 1 999);
    [vm_compute; reflexivity | lia].
Qed.

Lemma step_sisa (words : string) (sisa : Z) :
  0 <= sisa < 1000 ->
  (if sisa >? 0 then spaced words ++ convertGroup sisa else words)
  = step words (convertGroup sisa).
Proof.
  intros H. unfold step.
  destruct (Z.gtb_spec sisa 0) as [Hpos | Hle].
  - rewrite convertGroup_nonempty by lia. reflexivity.
  - replace sisa with 0 by lia. reflexivity.
Qed.

Lemma groupWords_join (n : Z) :
  0 <= n ->
  groupWords n
  = Spec.joinWords
      [Spec.unitWords "triliun" (n / 1000000000000);
       Spec.unitWords "miliar" (n mod 1000000000000 / 1000000000);
       Spec.unitWords "juta" (n mod 1000000000 / 1000000);
       Spec.unitWords "ribu" (n mod 1000000 / 1000);
       convertGroup (n mod 1000)].
Proof.
  intros Hn. unfold groupWords.
  rewrite (step_sisa _ (n mod 1000))
    by (apply Z.mod_pos_bound; lia).
  rewrite (step_ribu _ (n mod 1000000 / 1000))
    by (apply Z.div_pos; [apply Z.mod_pos_bound; lia | lia]).
  rewrite (step_unit _ "juta" (n mod 1000000000 / 1000000))
    by (first [reflexivity | apply Z.div_pos; [apply Z.mod_pos_bound; lia | lia]]).
  rewrite (step_unit _ "miliar" (n mod 1000000000000 / 1000000000))
    by (first [reflexivity | apply Z.div_pos; [apply Z.mod_pos_bound; lia | lia]]).
  change ("" ++ convertGroup (n / 1000000000000) ++ " triliun")
    with (spaced "" ++ convertGroup (n / 1000000000000) ++ " " ++ "triliun").
  rewrite (step_unit "" "triliun" (n / 1000000000000))
    by (first [reflexivity | apply Z.div_pos; lia]).
  match goal with
  | |- step (step (step (step (step "" ?a) ?b) ?c) ?d) ?e = _ =>
    change (fold_left step [a; b; c; d; e] "" = Spec.joinWords [a; b; c; d; e])
  end.
  rewrite fold_step. reflexivity.
Qed.

(** Options that switch both the capital and the suffix off. *)
Definition bare : option WordOptions :=
  Some {| uppercase := Some false; withCurrency := Some false |}.

(** The words [toWords] gives for a magnitude, nothing for zero. *)
Definition wordsOfMagnitude (n : Z) : string :=
  if n =? 0 then "" else toWords (inject_Z n) bare.

Lemma Qfloor_abs_inject (n : Z) : 0 <= n -> Qfloor (Qabs (inject_Z n)) = n.
Proof.
  intros H. unfold Qabs, inject_Z. cbn [Qnum Qden].
  rewrite Z.abs_eq by lia. apply (Qfloor_Z n).
Qed.

Lemma wordsOfMagnitude_groupWords (n : Z) :
  0 <= n -> wordsOfMagnitude n = groupWords n.
Proof.
  intros H. unfold wordsOfMagnitude.
  destruct (Z.eqb_spec n 0) as [-> | Hne]; [reflexivity|].
  rewrite toWords_nonzero.
  - unfold cased, suffix, Qltb. cbn [bare optUppercase optWithCurrency].
    replace (Qle_bool 0 (inject_Z n)) with true.
    + cbn [negb]. rewrite Qfloor_abs_inject by lia. cbn [append].
      apply app_nil_r.
    + symmetry. apply Qle_bool_iff. unfold Qle. cbn. lia.
  - unfold Qeq. cbn. lia.
Qed.

Lemma Qfloor_abs_nonneg (amount : Q) : 0 <= Qfloor (Qabs amount).
Proof.
  change 0 with (Qfloor 0). apply Qfloor_resp_le, Qabs_nonneg.
Qed.




(** C8.  The irregular forms: 1000 is "seribu", a hundreds digit of 1 is
    "seratus", 11 is "sebelas"; a ribu group of exactly 1 is spelled
    "seribu", while a triliun, miliar or juta group of 1 is spelled
    "satu" followed by the unit. *)
Theorem irregular_forms :
  toWords 1000 None = "seribu rupiah"
  /\ toWords 100 None = "seratus rupiah"
  /\ toWords 11 None = "sebelas rupiah"
  /\ toWords 1001001001000 None
     = "satu triliun satu miliar satu juta seribu rupiah"
  /\ (forall n : Z, 100 <= n < 200 ->
        convertGroup n
        = "seratus"
            ++ (if n mod 100 =? 0 then ""
                else " " ++ convertTwoDigits (n mod 100)))
  /\ convertTwoDigits 11 = "sebelas"
  /\ (forall n : Z, 0 < n ->
        toWords (inject_Z n) None
        = Spec.joinWords
            [Spec.unitWords "triliun" (n / 1000000000000);
             Spec.unitWords "miliar" (n mod 1000000000000 / 1000000000);
             Spec.unitWords "juta" (n mod 1000000000 / 1000000);
             Spec.unitWords "ribu" (n mod 1000000 / 1000);
             convertGroup (n mod 1000)]
            ++ " rupiah")
  /\ Spec.unitWords "ribu" 1 = "seribu"
  /\ Spec.unitWords "juta" 1 = "satu juta"
  /\ Spec.unitWords "miliar" 1 = "satu miliar"
  /\ Spec.unitWords "triliun" 1 = "satu triliun".
Proof.
  repeat split; try reflexivity.
  - intros n Hn. unfold convertGroup.
    replace (n / 100) with 1 by (apply Z.div_unique with (n - 100); lia).
    replace (n =? 0) with false by (symmetry; apply Z.eqb_neq; lia).
    cbn [Z.gtb Z.compare Z.eqb Pos.eqb truthy].
    destruct (Z.eqb_spec (n mod 100) 0) as [E | E].
    + rewrite E. reflexivity.
    + replace (n mod 100 >? 0) with true; [reflexivity|].
      symmetry. apply Z.gtb_lt.
      pose proof (Z.mod_pos_bound n 100). lia.
  - intros n Hn. rewrite toWords_nonzero by (unfold Qeq; cbn; lia).
    unfold cased, suffix, Qltb. cbn [optUppercase optWithCurrency].
    replace (Qle_bool 0 (inject_Z n)) with true
      by (symmetry; apply Qle_bool_iff; unfold Qle; cbn; lia).
    cbn [negb append]. rewrite Qfloor_abs_inject by lia.
    rewrite groupWords_join by lia. reflexivity.
Qed.

(** C10.  Zero is spelled "nol"; no other amount yields that word; and an
    amount strictly between 0 and 1 yields no number word at all, so the
    result is the bare suffix [" rupiah"] (with its leading space), or the
    empty string when the suffix is switched off. *)
Theorem nol_only_for_zero (amount : Q) (options : option WordOptions) :
  (amount == 0 ->
   toWords amount options = cased options ("nol" ++ suffix options))
  /\ (~ amount == 0 ->
      includes "nol" (toLowerCase (toWords amount options)) = false)
  /\ ((0 < amount)%Q -> (amount < 1)%Q ->
      toWords amount options
      = if optWithCurrency options then " rupiah" else "").
Proof.
  split; [apply toWords_zero | split].
  - intros Hne. apply not_true_iff_false. intros H.
    apply includes_nol in H. rewrite toWords_nonzero in H by assumption.
    fold (lowO (cased options
                  ((if Qltb amount 0 then "minus " else "")
                     ++ groupWords (Qfloor (Qabs amount)) ++ suffix options)))
      in H.
    assert (E : forall s, lowO (cased options s) = lowO s)
      by (intros s; unfold cased; destruct (optUppercase options);
          [apply lowO_capitalize | reflexivity]).
    rewrite E, !lowO_app, lowO_groupWords in H.
    unfold suffix in H.
    destruct (Qltb amount 0), (optWithCurrency options); discriminate H.
  - intros Hpos Hlt.
    rewrite toWords_nonzero
      by (intros E; rewrite E in Hpos; discriminate Hpos).
    assert (Hfloor : Qfloor (Qabs amount) = 0).
    { rewrite Qabs_pos by (apply Qlt_le_weak; assumption).
      pose proof (Qfloor_le amount) as Hle.
      pose proof (Qlt_floor amount) as Hgt.
      assert (H1 : (inject_Z (Qfloor amount) < inject_Z 1)%Q)
        by (eapply Qle_lt_trans; eassumption).
      assert (H0 : (inject_Z 0 < inject_Z (Qfloor amount + 1))%Q)
        by (eapply Qlt_trans; eassumption).
      rewrite <- Zlt_Qlt in H1, H0. lia. }
    rewrite Hfloor. unfold Qltb.
    replace (Qle_bool 0 amount) with true
      by (symmetry; apply Qle_bool_iff, Qlt_le_weak; assumption).
    unfold cased, suffix.
    destruct (optUppercase options), (optWithCurrency options); reflexivity.
Qed.

Lemma nol_only_for_zero_witness :
  toWords (1 # 2) None = " rupiah"
  /\ toWords (1 # 2) bare = "".
Proof.
  split.
  - exact (proj2 (proj2 (nol_only_for_zero (1 # 2) None)) eq_refl eq_refl).
  - exact (proj2 (proj2 (nol_only_for_zero (1 # 2) bare)) eq_refl eq_refl).
Defined.

End WordsFacts.

(** ** Parsing *)

Module ParseFacts.
Import JS Parse StringFacts.

(** Closed facts are settled by evaluation, conjunct by conjunct. *)
Ltac evaluate :=
  repeat match goal with |- _ /\ _ => split end;
  vm_compute; try reflexivity; try (intros H; discriminate H).

(** The result of a parse is the number [v]. *)
Definition parsesTo (result : option number) (v : Q) : Prop :=
  match result with
  | Some (Num q) => q == v
  | _ => False
  end.

(** The text [parseRupiah] canonicalises when no compact unit applies. *)
Definition plainText (formatted : string) : string :=
  trim (removeRp (toLowerCase (trim formatted))).

(** [null] for [NaN], as the last line of [parseRupiah] has it. *)
Definition orNull (parsed : number) : option number :=
  if isNaN parsed then None else Some parsed.

(** C2.  The four pinned results of the plain-notation parser. *)
Theorem parseRupiah_pinned :
  parsesTo (parseRupiah "1.500.000,50") 1500000.5
  /\ parsesTo (parseRupiah "1,500,000.50") 1500000.5
  /\ parsesTo (parseRupiah "1.500.000") 1500000
  /\ parsesTo (parseRupiah "1,50") 1.5
  /\ canonical "1.500.000" = "1500000"
  /\ canonical "1,50" = "1.50".
Proof. evaluate. Qed.

(** *** The number pattern always parses *)

Lemma digit_cases (c : ascii) :
  isDigit c = true ->
  isSpace c = false /\ Ascii.eqb c "-" = false /\ Ascii.eqb c "+" = false
  /\ Ascii.eqb c "," = false /\ Ascii.eqb c "." = false.
Proof.
  destruct c as [[] [] [] [] [] [] [] []]; cbn; intros H;
    first [discriminate H | repeat split].
Qed.

Lemma parseFloat_digit (c : ascii) (r : string) :
  isDigit c = true -> isNaN (parseFloat (String c r)) = false.
Proof.
  intros Hd. destruct (digit_cases c Hd) as (Hs & Hm & Hp & _).
  unfold parseFloat. cbn [trimStart]. rewrite Hs.
  assert (E : readSign (String c r) = (false, String c r)).
  { unfold readSign.
    destruct c as [[] [] [] [] [] [] [] []]; try reflexivity;
      discriminate. }
  rewrite E. cbn [takeDigits dropDigits]. rewrite Hd.
  destruct (dropDigits r) as [|[[] [] [] [] [] [] [] []] t]; reflexivity.
Qed.

Lemma parseFloat_minus_digit (c : ascii) (r : string) :
  isDigit c = true -> isNaN (parseFloat (String "-" (String c r))) = false.
Proof.
  intros Hd. unfold parseFloat. cbn [trimStart readSign].
  change (isSpace "-") with false. cbv iota.
  cbn [readSign takeDigits dropDigits]. rewrite Hd.
  destruct (dropDigits r) as [|[[] [] [] [] [] [] [] []] t]; reflexivity.
Qed.

Lemma numericBody_head (c : ascii) (r : string) :
  isDigit c = true -> exists t, numericBody (String c r) = String c t.
Proof.
  intros Hd. unfold numericBody. cbn [takeDigits dropDigits]. rewrite Hd.
  destruct (dropDigits r) as [|x t]; [eexists; reflexivity|].
  destruct (Ascii.eqb x "," || Ascii.eqb x "."); eexists; reflexivity.
Qed.

Lemma matchNumber_parses (s m : string) :
  matchNumber s = Some m ->
  isNaN (parseFloat (replaceFirst "," "." m)) = false.
Proof.
  induction s as [|c s IH]; [discriminate|].
  cbn [matchNumber].
  destruct (Ascii.eqb c "-" && startsWithDigit s) eqn:Hminus.
  - intros [= <-]. apply andb_true_iff in Hminus. destruct Hminus as [_ Hs].
    destruct s as [|d s]; [discriminate|]. cbn in Hs.
    destruct (numericBody_head d s Hs) as [t ->].
    destruct (digit_cases d Hs) as (_ & _ & _ & Hc & _).
    cbn [replaceFirst]. change (Ascii.eqb "-" ",") with false. cbv iota.
    rewrite Hc. apply parseFloat_minus_digit, Hs.
  - destruct (isDigit c) eqn:Hd; [|exact IH].
    intros [= <-]. destruct (numericBody_head c s Hd) as [t ->].
    destruct (digit_cases c Hd) as (_ & _ & _ & Hc & _).
    cbn [replaceFirst]. rewrite Hc. apply parseFloat_digit, Hd.
Qed.

Lemma compactLoop_number (cleaned : string) (units : list (string * Q))
    (result : number) :
  compactLoop cleaned units = Some result -> isNaN result = false.
Proof.
  induction units as [|[unit multiplier] units IH]; [discriminate|].
  cbn [compactLoop].
  destruct (includes unit cleaned); [|exact IH].
  destruct (matchNumber cleaned) as [m|] eqn:Hm; [|exact IH].
  intros [= <-]. apply matchNumber_parses in Hm.
  destruct (parseFloat (replaceFirst "," "." m)); [discriminate | reflexivity].
Qed.

Lemma parseRupiah_plain (formatted : string) :
  isEmpty formatted = false ->
  compactLoop (toLowerCase (trim formatted)) compactUnits = None ->
  parseRupiah formatted
  = orNull (parseFloat (canonical (plainText formatted))).
Proof.
  intros He Hc. unfold parseRupiah, orNull, plainText.
  rewrite He, Hc. reflexivity.
Qed.



(** *** The separator that comes last *)

(** Position of the last occurrence of [c], counted from the front. *)
Fixpoint lastPos (c : ascii) (s : string) : option Z :=
  match s with
  | "" => None
  | String d r =>
    match lastPos c r with
    | Some k => Some (k + 1)
    | None => if Ascii.eqb d c then Some 0 else None
    end
  end.

Lemma lastIndexFrom_lastPos (c : ascii) (s : string) (i found : Z) :
  lastIndexFrom i c s found
  = match lastPos c s with Some k => i + k | None => found end.
Proof.
  revert i found. induction s as [|d r IH]; intros i found; [reflexivity|].
  cbn [lastIndexFrom lastPos]. rewrite IH.
  destruct (lastPos c r) as [k|]; [lia|].
  destruct (Ascii.eqb d c); [lia | reflexivity].
Qed.

Lemma lastIndexOf_lastPos (c : ascii) (s : string) :
  lastIndexOf c s = match lastPos c s with Some k => k | None => -1 end.
Proof.
  unfold lastIndexOf. rewrite lastIndexFrom_lastPos.
  destruct (lastPos c s); reflexivity.
Qed.

Lemma lastPos_nonneg (c : ascii) (s : string) (k : Z) :
  lastPos c s = Some k -> 0 <= k.
Proof.
  revert k. induction s as [|d r IH]; intros k; [discriminate|].
  cbn [lastPos]. destruct (lastPos c r) as [j|].
  - intros [= <-]. specialize (IH j eq_refl). lia.
  - destruct (Ascii.eqb d c); intros [= <-]. lia.
Qed.

Lemma lastPos_none (c : ascii) (s : string) :
  lastPos c s = None <-> hasChar c s = false.
Proof.
  induction s as [|d r IH]; [split; reflexivity|].
  cbn [lastPos hasChar]. destruct (lastPos c r) as [k|].
  - split; [discriminate|]. intros H. apply orb_false_iff in H.
    destruct H as [_ H]. apply IH in H. discriminate H.
  - destruct (Ascii.eqb d c); cbn [orb].
    + split; discriminate.
    + split; [intros _; apply IH; reflexivity | reflexivity].
Qed.

(** When both separators occur, the comparison of the two last indices
    tells which of them closes the text. *)
Lemma lastSeparator_compare (s : string) :
  match Spec.lastSeparator s with
  | None => lastPos "." s = None /\ lastPos "," s = None
  | Some c =>
    (c = "."%char /\ exists d, lastPos "." s = Some d
                    /\ forall k, lastPos "," s = Some k -> k < d)
    \/ (c = ","%char /\ exists k, lastPos "," s = Some k
                      /\ forall d, lastPos "." s = Some d -> d < k)
  end.
Proof.
  induction s as [|x r IH]; [split; reflexivity|].
  cbn [Spec.lastSeparator lastPos].
  destruct (Spec.lastSeparator r) as [c|].
  - destruct IH as [(-> & d & Hd & Hlt) | (-> & k & Hk & Hlt)].
    + left. split; [reflexivity|]. exists (d + 1). rewrite Hd.
      split; [reflexivity|]. intros k.
      destruct (lastPos "," r) as [j|] eqn:Hj.
      * intros [= <-]. specialize (Hlt j eq_refl). lia.
      * apply lastPos_nonneg in Hd.
        destruct (Ascii.eqb x ","); intros [= <-]. lia.
    + right. split; [reflexivity|]. exists (k + 1). rewrite Hk.
      split; [reflexivity|]. intros d.
      destruct (lastPos "." r) as [j|] eqn:Hj.
      * intros [= <-]. specialize (Hlt j eq_refl). lia.
      * apply lastPos_nonneg in Hk.
        destruct (Ascii.eqb x "."); intros [= <-]. lia.
  - destruct IH as [Hd Hk]. rewrite Hd, Hk. unfold Spec.isSeparator.
    destruct (Ascii.eqb_spec x ".") as [-> | Hnd]; cbn [orb].
    + left. split; [reflexivity|]. exists 0. split; [reflexivity|].
      discriminate.
    + destruct (Ascii.eqb_spec x ",") as [-> | Hnc].
      * right. split; [reflexivity|]. exists 0. split; [reflexivity|].
        discriminate.
      * split; reflexivity.
Qed.

Lemma canonical_both (s : string) :
  hasChar "." s = true -> hasChar "," s = true ->
  canonical s
  = match Spec.lastSeparator s with
    | Some ","%char => replaceFirst "," "." (removeAll "." s)
    | _ => removeAll "," s
    end.
Proof.
  intros Hdot Hcomma. unfold canonical. rewrite Hdot, Hcomma. cbn [andb].
  rewrite !lastIndexOf_lastPos.
  pose proof (lastSeparator_compare s) as H.
  destruct (Spec.lastSeparator s) as [c|].
  - destruct H as [(-> & d & Hd & Hlt) | (-> & k & Hk & Hlt)].
    + rewrite Hd. destruct (lastPos "," s) as [k|] eqn:Hk.
      * specialize (Hlt k eq_refl).
        destruct (Z.gtb_spec k d); [lia | reflexivity].
      * apply lastPos_none in Hk. congruence.
    + rewrite Hk. destruct (lastPos "." s) as [d|] eqn:Hd.
      * specialize (Hlt d eq_refl).
        destruct (Z.gtb_spec k d); [reflexivity | lia].
      * apply lastPos_none in Hd. congruence.
  - destruct H as [Hd _]. apply lastPos_none in Hd. congruence.
Qed.

Lemma occurrences_none (c : ascii) (s : string) :
  Spec.occurrences c s = O -> hasChar c s = false.
Proof.
  induction s as [|d r IH]; [reflexivity|].
  cbn [Spec.occurrences hasChar]. destruct (Ascii.eqb d c); cbn; [lia|].
  exact IH.
Qed.

Lemma removeAll_absent (c : ascii) (s : string) :
  hasChar c s = false -> removeAll c s = s.
Proof.
  induction s as [|d r IH]; [reflexivity|].
  cbn [hasChar removeAll]. intros H. apply orb_false_iff in H.
  destruct H as [-> H]. rewrite IH by assumption. reflexivity.
Qed.

Lemma lastSeparator_present (s : string) (c : ascii) :
  Spec.lastSeparator s = Some c ->
  hasChar c s = true /\ Spec.hasSeparator s = true.
Proof.
  pose proof (lastSeparator_compare s) as H. intros E. rewrite E in H.
  assert (P : forall x k, lastPos x s = Some k -> hasChar x s = true).
  { intros x k Hk. apply not_false_iff_true. intros F.
    apply lastPos_none in F. congruence. }
  unfold Spec.hasSeparator.
  destruct H as [(-> & d & Hd & _) | (-> & k & Hk & _)].
  - rewrite (P _ _ Hd). split; reflexivity.
  - rewrite (P _ _ Hk). split; [reflexivity | apply orb_true_r].
Qed.

Lemma lastSeparator_absent (s : string) :
  Spec.lastSeparator s = None -> Spec.hasSeparator s = false.
Proof.
  pose proof (lastSeparator_compare s) as H. intros E. rewrite E in H.
  destruct H as [Hd Hk]. apply lastPos_none in Hd, Hk.
  unfold Spec.hasSeparator. rewrite Hd, Hk. reflexivity.
Qed.

(** The Indonesian reading agrees with the specification when the comma
    that closes the text is the only comma. *)
Lemma comma_last_canonical (s : string) :
  Spec.lastSeparator s = Some ","%char -> Spec.occurrences "," s = 1%nat ->
  replaceFirst "," "." (removeAll "." s) = Spec.canonical s.
Proof.
  induction s as [|c r IH]; [discriminate|].
  cbn [Spec.lastSeparator Spec.occurrences removeAll Spec.canonical].
  unfold Spec.isSeparator.
  destruct (Ascii.eqb_spec c ".") as [-> | Hnd]; cbn [orb].
  - change (Ascii.eqb "." ",") with false. cbn [Nat.add].
    destruct (Spec.lastSeparator r) as [x|] eqn:Hr; [|discriminate].
    intros [= ->] Hocc.
    rewrite (proj2 (lastSeparator_present r _ Hr)). apply IH; auto.
  - destruct (Ascii.eqb_spec c ",") as [-> | Hnc].
    + intros Hlast Hocc.
      assert (Hno : hasChar "," r = false)
        by (apply occurrences_none; cbn in Hocc; lia).
      destruct (Spec.lastSeparator r) as [x|] eqn:Hr.
      * injection Hlast as ->.
        apply lastSeparator_present in Hr. destruct Hr as [Hr _]. congruence.
      * apply lastSeparator_absent in Hr. rewrite Hr.
        unfold Spec.hasSeparator in Hr. apply orb_false_iff in Hr.
        rewrite removeAll_absent by apply Hr. reflexivity.
    + cbn [Nat.add replaceFirst].
      replace (Ascii.eqb c ",") with false
        by (symmetry; apply Ascii.eqb_neq; assumption).
      destruct (Spec.lastSeparator r) as [x|] eqn:Hr; [|discriminate].
      intros [= ->] Hocc. rewrite IH; auto.
Qed.

(** The international reading agrees with the specification when the dot
    that closes the text is the only dot. *)
Lemma dot_last_canonical (s : string) :
  Spec.lastSeparator s = Some "."%char -> Spec.occurrences "." s = 1%nat ->
  removeAll "," s = Spec.canonical s.
Proof.
  induction s as [|c r IH]; [discriminate|].
  cbn [Spec.lastSeparator Spec.occurrences removeAll Spec.canonical].
  unfold Spec.isSeparator.
  destruct (Ascii.eqb_spec c ".") as [-> | Hnd]; cbn [orb].
  - change (Ascii.eqb "." ",") with false. cbv iota.
    intros Hlast Hocc.
    assert (Hno : hasChar "." r = false)
      by (apply occurrences_none; cbn in Hocc; lia).
    destruct (Spec.lastSeparator r) as [x|] eqn:Hr.
    + injection Hlast as ->.
      apply lastSeparator_present in Hr. destruct Hr as [Hr _]. congruence.
    + apply lastSeparator_absent in Hr. rewrite Hr.
      unfold Spec.hasSeparator in Hr. apply orb_false_iff in Hr.
      rewrite removeAll_absent by apply Hr. reflexivity.
  - destruct (Ascii.eqb_spec c ",") as [-> | Hnc].
    + cbn [Nat.add].
      destruct (Spec.lastSeparator r) as [x|] eqn:Hr; [|discriminate].
      intros [= ->] Hocc.
      rewrite (proj2 (lastSeparator_present r _ Hr)). apply IH; auto.
    + cbn [Nat.add].
      destruct (Spec.lastSeparator r) as [x|] eqn:Hr; [|discriminate].
      intros [= ->] Hocc. rewrite IH; auto.
Qed.

Lemma compactLoop_no_unit (cleaned : string) :
  includes "triliun" cleaned = false -> includes "miliar" cleaned = false ->
  includes "juta" cleaned = false -> includes "ribu" cleaned = false ->
  compactLoop cleaned compactUnits = None.
Proof.
  intros Ht Hm Hj Hr. cbn [compactLoop compactUnits].
  rewrite Ht, Hm, Hj, Hr. reflexivity.
Qed.

(** C1, as the code has it.  With both a dot and a comma in the text and
    no compact unit, the kind of separator that comes last is the decimal
    marker; when that separator occurs only once, the text handed to
    [parseFloat] is the one of the specification: the last separator
    turned into the decimal point and every earlier separator removed. *)
Theorem parseRupiah_mixed_separators (formatted : string) :
  let cleaned := toLowerCase (trim formatted) in
  let numStr := plainText formatted in
  isEmpty formatted = false ->
  includes "triliun" cleaned = false -> includes "miliar" cleaned = false ->
  includes "juta" cleaned = false -> includes "ribu" cleaned = false ->
  hasChar "." numStr = true -> hasChar "," numStr = true ->
  (forall c, Spec.lastSeparator numStr = Some c ->
             Spec.occurrences c numStr = 1%nat) ->
  canonical numStr = Spec.canonical numStr
  /\ parseRupiah formatted = orNull (parseFloat (Spec.canonical numStr)).
Proof.
  intros cleaned numStr He Ht Hm Hj Hr Hdot Hcomma Honce.
  assert (Hcanon : canonical numStr = Spec.canonical numStr).
  { rewrite canonical_both by assumption.
    pose proof (lastSeparator_compare numStr) as H.
    destruct (Spec.lastSeparator numStr) as [c|] eqn:Hlast.
    - specialize (Honce c eq_refl).
      destruct H as [(-> & _) | (-> & _)].
      + apply dot_last_canonical; assumption.
      + apply comma_last_canonical; assumption.
    - destruct H as [H _]. apply lastPos_none in H. congruence. }
  split; [exact Hcanon|].
  rewrite parseRupiah_plain
    by (try assumption; apply compactLoop_no_unit; assumption).
  fold numStr. rewrite Hcanon. reflexivity.
Qed.

Lemma parseRupiah_mixed_separators_witness :
  parsesTo (parseRupiah "1.500.000,50") 1500000.5
  /\ parsesTo (parseRupiah "1,500,000.50") 1500000.5.
Proof.
  split.
  - assert (H : parseRupiah "1.500.000,50"
                = orNull (parseFloat (Spec.canonical "1.500.000,50"))).
    { apply (parseRupiah_mixed_separators "1.500.000,50");
        try reflexivity.
      intros c [= <-]. reflexivity. }
    rewrite H. vm_compute. reflexivity.
  - assert (H : parseRupiah "1,500,000.50"
                = orNull (parseFloat (Spec.canonical "1,500,000.50"))).
    { apply (parseRupiah_mixed_separators "1,500,000.50");
        try reflexivity.
      intros c [= <-]. reflexivity. }
    rewrite H. vm_compute. reflexivity.
Defined.

(** C1, as the specification states it, fails when the separator that
    comes last occurs more than once: in "1.234,567.89" the commas are
    removed and both dots stay, so the number read is 1.234567, not
    1234567.89. *)
Lemma parseRupiah_repeated_decimal_separator :
  canonical (plainText "1.234,567.89") = "1.234567.89"
  /\ Spec.canonical (plainText "1.234,567.89") = "1234567.89"
  /\ parsesTo (parseRupiah "1.234,567.89") 1.234567
  /\ parsesTo (orNull (parseFloat (Spec.canonical (plainText "1.234,567.89"))))
       1234567.89
  /\ canonical (plainText "1,234.567,89") = "1.234567,89"
  /\ parsesTo (parseRupiah "1,234.567,89") 1.234567.
Proof. evaluate. Qed.

End ParseFacts.

(** ** Printing numbers *)

Module NumberFacts.
Import JS StringFacts.

Lemma digitChar_isDigit (d : Z) : 0 <= d < 10 -> isDigit (digitChar d) = true.
Proof.
  intros H.
  apply (Range.forallb_upto (fun z => isDigit (digitChar z)) 0 10);
    [reflexivity | lia].
Qed.

Lemma digitValue_digitChar (d : Z) :
  0 <= d < 10 -> digitValue (digitChar d) = d.
Proof.
  intros H. apply Z.eqb_eq.
  apply (Range.forallb_upto (fun z => digitValue (digitChar z) =? z) 0 10);
    [reflexivity | lia].
Qed.

Lemma digitsFuel_app (fuel : nat) (n : Z) (acc : string) :
  digitsFuel fuel n acc = digitsFuel fuel n "" ++ acc.
Proof.
  revert n acc. induction fuel as [|f IH]; intros n acc; [reflexivity|].
  cbn [digitsFuel]. destruct (n / 10 =? 0); [reflexivity|].
  rewrite IH. rewrite (IH _ (String _ "")). rewrite app_assoc. reflexivity.
Qed.

Lemma digitsFuel_enough (f g : nat) (n : Z) (acc : string) :
  0 <= n < 2 ^ Z.of_nat (S f) -> n < 2 ^ Z.of_nat (S g) ->
  digitsFuel (S f) n acc = digitsFuel (S g) n acc.
Proof.
  revert g n acc. induction f as [|f IH]; intros g n acc Hf Hg.
  - assert (E : n / 10 = 0) by (apply Z.div_small; cbn in Hf; lia).
    cbn [digitsFuel]. rewrite E. reflexivity.
  - cbn [digitsFuel]. destruct (Z.eqb_spec (n / 10) 0) as [E | E];
      [reflexivity|].
    fold (digitsFuel (S f)).
    assert (Hq : 1 <= n / 10).
    { assert (0 <= n / 10) by (apply Z.div_pos; lia). lia. }
    assert (Hhalf : forall k : nat, n < 2 ^ Z.of_nat (S k) ->
                               n / 10 < 2 ^ Z.of_nat k).
    { intros k Hk. rewrite Nat2Z.inj_succ, Z.pow_succ_r in Hk by lia.
      apply Z.div_lt_upper_bound; lia. }
    destruct g as [|g].
    + specialize (Hhalf O Hg). cbn in Hhalf. lia.
    + apply IH; [split; [lia | apply Hhalf, Hf] | apply Hhalf, Hg].
Qed.

Lemma log2_fuel (n : Z) : 0 <= n -> n < 2 ^ Z.of_nat (S (Z.to_nat (Z.log2 n))).
Proof.
  intros H. rewrite Nat2Z.inj_succ, Z2Nat.id by apply Z.log2_nonneg.
  destruct (Z.eq_dec n 0) as [-> | Hne]; [reflexivity|].
  apply Z.log2_spec. lia.
Qed.

Lemma digitsOf_small (n : Z) :
  0 <= n < 10 -> digitsOf n = String (digitChar n) "".
Proof.
  intros H. unfold digitsOf. cbn [digitsFuel].
  rewrite Z.div_small, Z.mod_small by lia. reflexivity.
Qed.

Lemma digitsOf_step (n : Z) :
  10 <= n -> digitsOf n = digitsOf (n / 10) ++ String (digitChar (n mod 10)) "".
Proof.
  intros H. unfold digitsOf at 1. cbn [digitsFuel].
  destruct (Z.eqb_spec (n / 10) 0) as [E | E].
  - assert (1 <= n / 10) by (apply Z.div_le_lower_bound; lia). lia.
  - assert (Hq : 0 <= n / 10) by (apply Z.div_pos; lia).
    assert (Hlog : (0 < Z.to_nat (Z.log2 n))%nat).
    { assert (0 < Z.log2 n) by (apply Z.log2_pos; lia). lia. }
    destruct (Z.to_nat (Z.log2 n)) as [|f] eqn:Ef; [lia|].
    rewrite digitsFuel_app. f_equal.
    apply digitsFuel_enough; [|apply log2_fuel, Hq].
    split; [exact Hq|].
    pose proof (log2_fuel n ltac:(lia)) as Hn. rewrite Ef in Hn.
    rewrite (Nat2Z.inj_succ (S f)), Z.pow_succ_r in Hn by lia.
    apply Z.div_lt_upper_bound; lia.
Qed.

(** Induction along the digits of a number. *)
Lemma digits_ind (P : Z -> Prop) :
  (forall n, 0 <= n < 10 -> P n) ->
  (forall n, 10 <= n -> P (n / 10) -> P n) ->
  forall n, 0 <= n -> P n.
Proof.
  intros Hsmall Hstep n Hn.
  pattern n. apply (Zlt_0_ind (fun n => P n)); [|exact Hn].
  intros x IH Hx. destruct (Z_lt_le_dec x 10) as [Hlt | Hge].
  - apply Hsmall. lia.
  - apply Hstep; [exact Hge|]. apply IH.
    split; [apply Z.div_pos; lia | apply Z.div_lt; lia].
Qed.

Lemma allDigits_app (a b : string) :
  allDigits (a ++ b) = allDigits a && allDigits b.
Proof.
  induction a as [|c a IH]; [reflexivity|].
  cbn [append allDigits]. rewrite IH. apply andb_assoc.
Qed.

Lemma digitsOf_allDigits (n : Z) : 0 <= n -> allDigits (digitsOf n) = true.
Proof.
  revert n. apply (digits_ind (fun n => allDigits (digitsOf n) = true)).
  - intros n H. rewrite digitsOf_small by assumption. cbn.
    rewrite digitChar_isDigit by assumption. reflexivity.
  - intros n H IH. rewrite digitsOf_step, allDigits_app, IH by assumption.
    cbn. rewrite digitChar_isDigit by (apply Z.mod_pos_bound; lia).
    reflexivity.
Qed.

Lemma digitsOf_nonempty (n : Z) : 0 <= n -> isEmpty (digitsOf n) = false.
Proof.
  intros H. destruct (Z_lt_le_dec n 10).
  - rewrite digitsOf_small by lia. reflexivity.
  - rewrite digitsOf_step, isEmpty_app by lia. apply andb_false_r.
Qed.

Lemma digitsValue_app (acc : Z) (a b : string) :
  digitsValue acc (a ++ b) = digitsValue (digitsValue acc a) b.
Proof.
  revert acc. induction a as [|c a IH]; intros acc; [reflexivity|].
  cbn [append digitsValue]. apply IH.
Qed.

Lemma digitsValue_digitsOf (n : Z) : 0 <= n -> digitsValue 0 (digitsOf n) = n.
Proof.
  revert n. apply (digits_ind (fun n => digitsValue 0 (digitsOf n) = n)).
  - intros n H. rewrite digitsOf_small by assumption. cbn.
    apply digitValue_digitChar, H.
  - intros n H IH. rewrite digitsOf_step, digitsValue_app, IH by assumption.
    cbn. rewrite digitValue_digitChar by (apply Z.mod_pos_bound; lia).
    pose proof (Z.div_mod n 10). lia.
Qed.

Lemma digitsOf_length (n : Z) (k : nat) :
  0 <= n < 10 ^ Z.of_nat (S k) -> (String.length (digitsOf n) <= S k)%nat.
Proof.
  revert n. induction k as [|k IH]; intros n H.
  - rewrite digitsOf_small by (cbn in H; lia). cbn. lia.
  - destruct (Z_lt_le_dec n 10) as [Hlt | Hge].
    + rewrite digitsOf_small by lia. cbn. lia.
    + rewrite digitsOf_step, length_app by assumption. cbn [String.length].
      assert (String.length (digitsOf (n / 10)) <= S k)%nat; [|lia].
      apply IH. split; [apply Z.div_pos; lia|].
      rewrite (Nat2Z.inj_succ (S k)), Z.pow_succ_r in H by lia.
      apply Z.div_lt_upper_bound; lia.
Qed.

Lemma fixedDigits_app (w : nat) (n : Z) (acc : string) :
  fixedDigits w n acc = fixedDigits w n "" ++ acc.
Proof.
  revert n acc. induction w as [|w IH]; intros n acc; [reflexivity|].
  cbn [fixedDigits]. rewrite IH. rewrite (IH _ (String _ "")).
  rewrite app_assoc. reflexivity.
Qed.

Lemma fixedDigits_allDigits (w : nat) (n : Z) :
  allDigits (fixedDigits w n "") = true.
Proof.
  revert n. induction w as [|w IH]; intros n; [reflexivity|].
  cbn [fixedDigits]. rewrite fixedDigits_app, allDigits_app, IH. cbn.
  rewrite digitChar_isDigit by (apply Z.mod_pos_bound; lia). reflexivity.
Qed.

Lemma fixedDigits_length (w : nat) (n : Z) :
  String.length (fixedDigits w n "") = w.
Proof.
  revert n. induction w as [|w IH]; intros n; [reflexivity|].
  cbn [fixedDigits]. rewrite fixedDigits_app, length_app, IH. cbn. lia.
Qed.

(** *** Numbers that print as plain digits *)

Lemma fracDigits_unfold (fuel : nat) (r d : Z) :
  fracDigits (S fuel) r d
  = if r =? 0 then ""
    else String (digitChar (r * 10 / d)) (fracDigits fuel (r * 10 mod d) d).
Proof. reflexivity. Qed.

Lemma Qltb_false (x : Q) : (0 <= x)%Q -> Qltb x 0 = false.
Proof.
  intros H. unfold Qltb. apply negb_false_iff, Qle_bool_iff, H.
Qed.

Lemma Qltb_true (x : Q) : (x < 0)%Q -> Qltb x 0 = true.
Proof.
  intros H. unfold Qltb. apply negb_true_iff, not_true_iff_false.
  intros E. apply Qle_bool_iff in E. apply (Qlt_not_le _ _ H E).
Qed.

Lemma Qle_bool_false (x y : Q) : (y < x)%Q -> Qle_bool x y = false.
Proof.
  intros H. apply not_true_iff_false. intros E.
  apply Qle_bool_iff in E. apply (Qlt_not_le _ _ H E).
Qed.

Lemma inject_Z_nonneg (n : Z) : 0 <= n -> (0 <= inject_Z n)%Q.
Proof. intros H. unfold Qle. cbn. lia. Qed.

Lemma inject_Z_le (a b : Z) : a <= b -> (inject_Z a <= inject_Z b)%Q.
Proof. intros H. rewrite <- Zle_Qle. exact H. Qed.

Lemma Qfloor_half (n : Z) (x : Q) :
  (x == inject_Z n)%Q -> Qfloor (x + (1 # 2)) = n.
Proof.
  intros H.
  assert (Hlo : (inject_Z n <= x + (1 # 2))%Q) by lra.
  assert (Hhi : (x + (1 # 2) < inject_Z (n + 1))%Q)
    by (rewrite inject_Z_plus; change (inject_Z 1) with 1%Q; lra).
  apply Qfloor_resp_le in Hlo. rewrite Qfloor_Z in Hlo.
  pose proof (Qfloor_le (x + (1 # 2))) as Hf.
  assert (Hz : (inject_Z (Qfloor (x + (1 # 2))) < inject_Z (n + 1))%Q)
    by (eapply Qle_lt_trans; eassumption).
  rewrite <- Zlt_Qlt in Hz. lia.
Qed.

Lemma Qeq_integer (x : Q) (n : Z) :
  (x == inject_Z n)%Q -> Qnum x = n * Zpos (Qden x).
Proof. unfold Qeq. cbn. lia. Qed.

Lemma inject_Z_lt_pow (n : Z) (k : Z) :
  n < 10 ^ k -> (inject_Z n < inject_Z (10 ^ k))%Q.
Proof. intros H. rewrite <- Zlt_Qlt. exact H. Qed.

Lemma toString_integer (x : Q) (n : Z) :
  (x == inject_Z n)%Q -> 0 <= n < 10 ^ 21 -> toString x = digitsOf n.
Proof.
  intros Hx Hn. unfold toString.
  destruct (Z.eq_dec n 0) as [-> | Hne].
  - replace (Qeq_bool x 0) with true
      by (symmetry; apply Qeq_bool_iff; exact Hx).
    reflexivity.
  - replace (Qeq_bool x 0) with false.
    2:{ symmetry. apply not_true_iff_false. intros E.
        apply Qeq_bool_iff in E. rewrite E in Hx.
        unfold Qeq in Hx. cbn in Hx. lia. }
    rewrite Qltb_false by (rewrite Hx; apply inject_Z_nonneg; lia).
    unfold toStringPos.
    rewrite (Qfloor_comp _ _ Hx), Qfloor_Z.
    rewrite (Qeq_integer x n Hx), Z.mod_mul by lia.
    change (fracDigits 1100 0 (Z.pos (Qden x))) with "".
    replace (n >? 0) with true by (symmetry; apply Z.gtb_lt; lia).
    pose proof (digitsOf_length n 20 Hn) as Hlen.
    replace (Z.of_nat (String.length (digitsOf n)) <=? 21) with true
      by (symmetry; apply Z.leb_le; lia).
    apply app_nil_r.
Qed.

Lemma toFixedDigits_integer (x : Q) (n : Z) :
  (x == inject_Z n)%Q -> 0 <= n < 10 ^ 21 -> toFixedDigits x 0 = digitsOf n.
Proof.
  intros Hx Hn. unfold toFixedDigits.
  assert (Hpos : (0 <= x)%Q) by (rewrite Hx; apply inject_Z_nonneg; lia).
  rewrite Qltb_false by assumption.
  assert (Habs : (Qabs x == inject_Z n)%Q) by (rewrite Qabs_pos; assumption).
  rewrite Qle_bool_false
    by (rewrite Habs; apply inject_Z_lt_pow; lia).
  cbn [append Z.of_nat Z.pow].
  rewrite Qfloor_half with (n := n); [reflexivity|].
  rewrite Habs. change (inject_Z (10 ^ 0)) with 1%Q. ring.
Qed.

(** A number with one fractional digit prints as [int.d]. *)
Lemma toString_tenths (x : Q) (m : Z) :
  (x == inject_Z m / 10)%Q -> 10 <= m < 10 ^ 22 -> m mod 10 <> 0 ->
  toString x = digitsOf (m / 10) ++ "." ++ String (digitChar (m mod 10)) "".
Proof.
  intros Hx Hm Hd. unfold toString.
  assert (Hmq : (10 <= inject_Z m)%Q) by (apply (inject_Z_le 10 m); lia).
  assert (Hpos : (0 < x)%Q).
  { change (x == inject_Z m * (1 # 10))%Q in Hx. lra. }
  replace (Qeq_bool x 0) with false.
  2:{ symmetry. apply not_true_iff_false. intros E.
      apply Qeq_bool_iff in E. rewrite E in Hpos. discriminate Hpos. }
  rewrite Qltb_false by (apply Qlt_le_weak; assumption).
  unfold toStringPos.
  destruct x as [a b]. cbn [Qnum Qden].
  assert (Hnum : a * 10 = m * Zpos b).
  { unfold Qeq, Qdiv, Qmult, Qinv in Hx. cbn in Hx. lia. }
  set (den := Zpos b) in *.
  assert (Hden : 0 < den) by (unfold den; lia).
  assert (Hfloor : a / den = m / 10).
  { symmetry. apply Z.div_unique with (a - den * (m / 10)); [|lia].
    left. pose proof (Z.div_mod m 10). pose proof (Z.mod_pos_bound m 10).
    nia. }
  assert (Hrem : a mod den * 10 = m mod 10 * den).
  { rewrite Z.mod_eq, Hfloor by lia. rewrite (Z.mod_eq m 10) by lia. lia. }
  change (Qfloor (a # b)) with (a / den).
  rewrite Hfloor.
  assert (Hq : 1 <= m / 10) by (apply Z.div_le_lower_bound; lia).
  replace (m / 10 >? 0) with true by (symmetry; apply Z.gtb_lt; lia).
  assert (Hlen : (String.length (digitsOf (m / 10)) <= 21)%nat).
  { apply (digitsOf_length (m / 10) 20). split; [lia|].
    apply Z.div_lt_upper_bound; lia. }
  replace (Z.of_nat (String.length (digitsOf (m / 10))) <=? 21) with true
    by (symmetry; apply Z.leb_le; lia).
  assert (Hfr : fracDigits 1100 (a mod den) den
                = String (digitChar (m mod 10)) "").
  { rewrite (fracDigits_unfold 1099).
    replace (a mod den =? 0) with false.
    2:{ symmetry. apply Z.eqb_neq. intros E. rewrite E in Hrem.
        pose proof (Z.mod_pos_bound m 10). nia. }
    rewrite Hrem, Z.div_mul, Z.mod_mul by lia.
    rewrite (fracDigits_unfold 1098). reflexivity. }
  rewrite Hfr. reflexivity.
Qed.

End NumberFacts.

(** ** Formatting *)

Module FormatFacts.
Import JS Format StringFacts NumberFacts.

Lemma pow10_inject (p : Z) : 0 <= p -> (Math_pow10 p == inject_Z (10 ^ p))%Q.
Proof. intros H. unfold Math_pow10. symmetry. apply Zpower_Qpower, H. Qed.

Lemma pow10_pos (p : Z) : 0 <= p -> (1 <= inject_Z (10 ^ p))%Q.
Proof.
  intros H. apply (inject_Z_le 1). 
  assert (0 < 10 ^ p) by (apply Z.pow_pos_nonneg; lia). lia.
Qed.

Lemma takeDigits_all (ds : string) : allDigits ds = true -> takeDigits ds = ds.
Proof.
  induction ds as [|c ds IH]; [reflexivity|].
  cbn [allDigits takeDigits]. intros H. apply andb_true_iff in H.
  destruct H as [-> H]. rewrite IH by assumption. reflexivity.
Qed.

Lemma hasChar_digits (c : ascii) (ds : string) :
  isDigit c = false -> allDigits ds = true -> hasChar c ds = false.
Proof.
  intros Hc. induction ds as [|d ds IH]; [reflexivity|].
  cbn [allDigits hasChar]. intros H. apply andb_true_iff in H.
  destruct H as [Hd H]. rewrite IH by assumption.
  destruct (Ascii.eqb_spec d c) as [-> | _]; [congruence | reflexivity].
Qed.

Lemma split_no_separator (c : ascii) (s : string) :
  hasChar c s = false -> split c s = [s].
Proof.
  induction s as [|d s IH]; [reflexivity|].
  cbn [hasChar split]. intros H. apply orb_false_iff in H.
  destruct H as [-> H]. rewrite IH by assumption. reflexivity.
Qed.

Lemma split_once (c : ascii) (a b : string) :
  hasChar c a = false -> hasChar c b = false ->
  split c (a ++ String c b) = [a; b].
Proof.
  intros Ha Hb. induction a as [|d a IH].
  - cbn [append split]. rewrite Ascii.eqb_refl, split_no_separator by assumption.
    reflexivity.
  - cbn [hasChar] in Ha. apply orb_false_iff in Ha. destruct Ha as [Hd Ha].
    cbn [append split]. rewrite Hd, IH by assumption. reflexivity.
Qed.

(** The rounded value stays below the bound where [toFixed] and
    [toString] switch to the exponential notation. *)
Lemma rounded_below (a P : Q) (N : Z) :
  (0 <= a)%Q -> (1 <= P)%Q -> (a + 1 <= inject_Z (10 ^ 21))%Q ->
  N = Qfloor (a * P + (1 # 2)) ->
  0 <= N /\ (inject_Z N < inject_Z (10 ^ 21) * P)%Q.
Proof.
  intros Ha HP Hbound ->.
  pose proof (Qfloor_le (a * P + (1 # 2))) as Hle.
  assert (H0 : (0 <= a * P)%Q) by (apply Qmult_le_0_compat; lra).
  split.
  - change 0 with (Qfloor 0). apply Qfloor_resp_le. lra.
  - assert (Hmul : ((a + 1) * P <= inject_Z (10 ^ 21) * P)%Q)
      by (apply Qmult_le_compat_r; lra).
    assert (E : ((a + 1) * P == a * P + P)%Q) by ring.
    lra.
Qed.

Lemma toFixedDigits_scaled (x : Q) (N : Z) (f : nat) :
  let P := 10 ^ Z.of_nat (S f) in
  (x * inject_Z P == inject_Z N)%Q -> 0 <= N ->
  (inject_Z N < inject_Z (10 ^ 21) * inject_Z P)%Q ->
  toFixedDigits x (S f)
  = digitsOf (N / P) ++ String "." (fixedDigits (S f) (N mod P) "").
Proof.
  intros P Hx HN Hbound.
  assert (HP : (1 <= inject_Z P)%Q) by (apply pow10_pos; lia).
  assert (Hpos : (0 <= x)%Q).
  { apply inject_Z_nonneg in HN. rewrite <- Hx in HN.
    destruct (Qlt_le_dec x 0) as [Hneg | H]; [|exact H].
    assert ((x * inject_Z P <= 0 * inject_Z P)%Q)
      by (apply Qmult_le_compat_r; lra).
    assert (E : (x * inject_Z P == 0)%Q) by lra.
    assert (Hx0 : (x == 0)%Q).
    { apply Qmult_integral in E. destruct E as [E | E]; [exact E | lra]. }
    lra. }
  unfold toFixedDigits. fold P.
  rewrite Qltb_false by assumption.
  assert (Habs : (Qabs x == x)%Q) by (apply Qabs_pos; assumption).
  rewrite Qle_bool_false.
  2:{ rewrite Habs.
      destruct (Qlt_le_dec x (inject_Z (10 ^ 21))) as [H | H]; [exact H|].
      assert ((inject_Z (10 ^ 21) * inject_Z P <= x * inject_Z P)%Q)
        by (apply Qmult_le_compat_r; lra).
      lra. }
  cbn [append].
  rewrite Qfloor_half with (n := N); [reflexivity|].
  rewrite Habs. exact Hx.
Qed.

(** The symbol, as the last step of [formatRupiah] prefixes it. *)
Definition symbolText (o : RupiahOptions) : string :=
  if orDefault o.(symbol) true
  then "Rp" ++ (if orDefault o.(spaceAfterSymbol) true then " " else "")
  else "".

Definition precisionOf (o : RupiahOptions) : Z :=
  match o.(precision) with
  | Some p => p
  | None => if orDefault o.(decimal) false then 2 else 0
  end.

(** The fraction shown: the decimal separator and exactly [p] digits. *)
Definition shownFraction (o : RupiahOptions) (p N : Z) : string :=
  if p =? 0 then ""
  else orDefault o.(decimalSeparator) ","
         ++ fixedDigits (Z.to_nat p) (N mod 10 ^ p) "".

Lemma roundHalfAway_abs (amount P : Q) :
  (0 < P)%Q ->
  (Qabs (Spec.roundHalfAway (amount * P))
   == inject_Z (Qfloor (Qabs amount * P + (1 # 2))))%Q.
Proof.
  intros HP. unfold Spec.roundHalfAway.
  assert (Hnn : forall y, (0 <= y)%Q -> 0 <= Qfloor (y + (1 # 2))).
  { intros y Hy. change 0 with (Qfloor 0). apply Qfloor_resp_le. lra. }
  destruct (Qlt_le_dec amount 0) as [Hneg | Hpos].
  - assert (Hx : (amount * P < 0)%Q).
    { setoid_replace 0%Q with (0 * P)%Q by ring.
      apply Qmult_lt_compat_r; assumption. }
    rewrite Qltb_true by assumption.
    rewrite Qabs_opp, Qabs_pos.
    + apply inject_Z_injective. apply Qfloor_comp.
      rewrite Qabs_neg by lra. ring.
    + apply inject_Z_nonneg, Hnn. lra.
  - assert (Hx : (0 <= amount * P)%Q) by (apply Qmult_le_0_compat; lra).
    rewrite Qltb_false by assumption.
    rewrite Qabs_pos by (apply inject_Z_nonneg, Hnn, Hx).
    apply inject_Z_injective. apply Qfloor_comp.
    rewrite Qabs_pos by assumption. reflexivity.
Qed.




(** *** The compact notation *)

Lemma formatCompact_select (amount : Q) :
  formatCompact amount
  = "Rp " ++ (if Qltb amount 0 then "-" else "")
      ++ match Spec.selectedUnit (Qabs amount) with
         | Some (unit, divisor) =>
           formatCompactValue (Qabs amount / divisor) unit
         | None =>
           if Qle_bool 1000 (Qabs amount)
           then groupThousands "." (toString (Qabs amount))
           else toString (Qabs amount)
         end.
Proof.
  unfold formatCompact, Spec.selectedUnit.
  destruct (Qltb amount 0);
    repeat match goal with
           | |- context [Qle_bool ?a ?b] => destruct (Qle_bool a b)
           end; reflexivity.
Qed.

(** The digits [formatCompactValue] shows for a value of [t] tenths. *)
Definition compactBody (t : Z) : string :=
  digitsOf (t / 10)
    ++ (if t mod 10 =? 0 then ""
        else String "," (String (digitChar (t mod 10)) "")).

Lemma replaceFirst_digits (c d : ascii) (ds r : string) :
  allDigits ds = true -> isDigit c = false ->
  replaceFirst c d (ds ++ String c r) = ds ++ String d r.
Proof.
  intros Hds Hc. induction ds as [|x ds IH].
  - cbn. rewrite Ascii.eqb_refl. reflexivity.
  - cbn [allDigits] in Hds. apply andb_true_iff in Hds.
    destruct Hds as [Hx Hds]. cbn [append replaceFirst].
    destruct (Ascii.eqb_spec x c) as [-> | _]; [congruence|].
    rewrite IH by assumption. reflexivity.
Qed.

Lemma tenths_bounds (value : Q) :
  (1 <= value)%Q -> (value <= inject_Z (10 ^ 20))%Q ->
  10 <= Qfloor (value * 10 + (1 # 2)) < 10 ^ 22.
Proof.
  intros Hlo Hhi. split.
  - change 10 with (Qfloor (inject_Z 10)) at 1. apply Qfloor_resp_le.
    change (inject_Z 10) with 10%Q. lra.
  - pose proof (Qfloor_le (value * 10 + (1 # 2))) as Hle.
    assert (H : (inject_Z (Qfloor (value * 10 + (1 # 2)))
                 < inject_Z (10 ^ 22))%Q).
    { change (inject_Z (10 ^ 22)) with (inject_Z (10 ^ 20) * 100)%Q. lra. }
    rewrite <- Zlt_Qlt in H. exact H.
Qed.

Lemma formatCompactValue_body (value : Q) (unit : string) :
  (1 <= value)%Q -> (value <= inject_Z (10 ^ 20))%Q ->
  formatCompactValue value unit
  = compactBody (Qfloor (value * 10 + (1 # 2))) ++ " " ++ unit.
Proof.
  intros Hlo Hhi.
  pose proof (tenths_bounds value Hlo Hhi) as Ht.
  unfold formatCompactValue, compactBody, Math_round.
  set (t := Qfloor (value * 10 + (1 # 2))) in *.
  set (rounded := (inject_Z t / 10)%Q).
  assert (Hdiv : 0 <= t / 10 < 10 ^ 21).
  { split; [apply Z.div_pos; lia | apply Z.div_lt_upper_bound; lia]. }
  pose proof (Z.div_mod t 10 ltac:(lia)) as Hdm.
  destruct (Z.eqb_spec (t mod 10) 0) as [E | E].
  - assert (Hint : (rounded == inject_Z (t / 10))%Q).
    { unfold rounded. replace t with (t / 10 * 10) at 1 by lia.
      rewrite inject_Z_mult. change (inject_Z 10) with 10%Q. field. }
    unfold isInteger.
    replace (Qeq_bool (inject_Z (Qfloor rounded)) rounded) with true.
    + rewrite (toFixedDigits_integer rounded (t / 10)) by assumption.
      rewrite app_nil_r. reflexivity.
    + symmetry. apply Qeq_bool_iff.
      rewrite (Qfloor_comp _ _ Hint), Qfloor_Z. symmetry. exact Hint.
  - unfold isInteger.
    replace (Qeq_bool (inject_Z (Qfloor rounded)) rounded) with false.
    + rewrite (toString_tenths rounded t) by (try reflexivity; assumption).
      cbn [append].
      rewrite replaceFirst_digits
        by (try reflexivity; apply digitsOf_allDigits; lia).
      rewrite app_assoc. reflexivity.
    + symmetry. apply not_true_iff_false. intros H.
      apply Qeq_bool_iff in H. unfold rounded in H.
      set (j := Qfloor (inject_Z t / 10)) in H. clearbody j t.
      unfold Qeq, Qdiv, Qmult, Qinv in H. cbn in H.
      apply E. replace t with (j * 10) by lia. apply Z.mod_mul. lia.
Qed.

Lemma selectedUnit_cases (abs : Q) (unit : string) (divisor : Q) :
  Spec.selectedUnit abs = Some (unit, divisor) ->
  (unit = "triliun" /\ divisor = 1000000000000%Q
   /\ (1000000000000 <= abs)%Q)
  \/ (unit = "miliar" /\ divisor = 1000000000%Q
      /\ (1000000000 <= abs < 1000000000000)%Q)
  \/ (unit = "juta" /\ divisor = 1000000%Q
      /\ (1000000 <= abs < 1000000000)%Q)
  \/ (unit = "ribu" /\ divisor = 1000%Q /\ (100000 <= abs < 1000000)%Q).
Proof.
  unfold Spec.selectedUnit.
  destruct (Qle_bool 1000000000000 abs) eqn:E1;
    [apply Qle_bool_iff in E1; intros [= <- <-]; auto|].
  destruct (Qle_bool 1000000000 abs) eqn:E2;
    [apply Qle_bool_iff in E2; intros [= <- <-]|].
  { right; left. repeat split; auto.
    apply Qnot_le_lt. intros H. apply Qle_bool_iff in H. congruence. }
  destruct (Qle_bool 1000000 abs) eqn:E3;
    [apply Qle_bool_iff in E3; intros [= <- <-]|].
  { right; right; left. repeat split; auto.
    apply Qnot_le_lt. intros H. apply Qle_bool_iff in H. congruence. }
  destruct (Qle_bool 100000 abs) eqn:E4;
    [apply Qle_bool_iff in E4; intros [= <- <-]|discriminate].
  right; right; right. repeat split; auto.
  apply Qnot_le_lt. intros H. apply Qle_bool_iff in H. congruence.
Qed.

Lemma selectedUnit_value (abs : Q) (unit : string) (divisor : Q) :
  Spec.selectedUnit abs = Some (unit, divisor) ->
  (abs <= inject_Z (10 ^ 32))%Q ->
  (0 < divisor)%Q /\ (1 <= abs / divisor)%Q
  /\ (abs / divisor <= inject_Z (10 ^ 20))%Q.
Proof.
  intros Hsel Hbound.
  assert (Hdiv : forall d : Q, (0 < d)%Q -> (abs / d == abs * / d)%Q)
    by (intros; reflexivity).
  destruct (selectedUnit_cases _ _ _ Hsel)
    as [(_ & -> & H) | [(_ & -> & H) | [(_ & -> & H) | (_ & -> & H)]]];
    (split; [reflexivity|]);
    unfold Qdiv;
    match goal with
    | |- context [(/ ?d)%Q] =>
      let v := eval vm_compute in (/ d)%Q in change (/ d)%Q with v
    end;
    change (inject_Z (10 ^ 32)) with 100000000000000000000000000000000%Q
      in Hbound;
    change (inject_Z (10 ^ 20)) with 100000000000000000000%Q;
    split; lra.
Qed.

Lemma formatCompact_unit (amount : Q) (unit : string) (divisor : Q) :
  Spec.selectedUnit (Qabs amount) = Some (unit, divisor) ->
  (Qabs amount <= inject_Z (10 ^ 32))%Q ->
  formatCompact amount
  = "Rp " ++ (if Qltb amount 0 then "-" else "")
      ++ compactBody (Qfloor (Qabs amount / divisor * 10 + (1 # 2)))
      ++ " " ++ unit.
Proof.
  intros Hsel Hbound. rewrite formatCompact_select, Hsel.
  destruct (selectedUnit_value _ _ _ Hsel Hbound) as (_ & Hlo & Hhi).
  rewrite formatCompactValue_body by assumption. reflexivity.
Qed.

Lemma hasChar_unit (abs : Q) (unit : string) (divisor : Q) :
  Spec.selectedUnit abs = Some (unit, divisor) ->
  hasChar "," unit = false.
Proof.
  intros H.
  destruct (selectedUnit_cases _ _ _ H)
    as [(-> & _) | [(-> & _) | [(-> & _) | (-> & _)]]]; reflexivity.
Qed.




End FormatFacts.

(** ** From the compact notation back to the amount *)

Module RoundTrip.
Import JS Format Parse StringFacts NumberFacts FormatFacts ParseFacts.

(** *** Reading a compact text *)

Lemma trimEnd_app (a b : string) :
  isEmpty (trimEnd b) = false -> trimEnd (a ++ b) = a ++ trimEnd b.
Proof.
  intros Hb. induction a as [|c a IH]; [reflexivity|].
  cbn [append trimEnd]. rewrite IH, isEmpty_app, Hb, andb_false_r.
  reflexivity.
Qed.

Lemma toLowerCase_digits (ds : string) :
  allDigits ds = true -> toLowerCase ds = ds.
Proof.
  induction ds as [|c ds IH]; [reflexivity|].
  cbn [allDigits toLowerCase]. intros H. apply andb_true_iff in H.
  destruct H as [Hc H]. rewrite IH by assumption. f_equal.
  destruct c as [[] [] [] [] [] [] [] []]; try discriminate Hc; reflexivity.
Qed.

Lemma includes_skip (c : ascii) (sub pre rest : string) :
  hasChar c pre = false ->
  includes (String c sub) (pre ++ rest) = includes (String c sub) rest.
Proof.
  induction pre as [|x pre IH]; [reflexivity|].
  cbn [hasChar]. intros H. apply orb_false_iff in H. destruct H as [Hx H].
  cbn [append includes startsWith].
  rewrite Ascii.eqb_sym, Hx, IH by assumption. reflexivity.
Qed.

Lemma includes_suffix (sub pre rest : string) :
  includes sub rest = true -> includes sub (pre ++ rest) = true.
Proof.
  intros H. induction pre as [|x pre IH]; [exact H|].
  cbn [append includes]. rewrite IH. apply orb_true_r.
Qed.

Lemma takeDigits_app (ds : string) (c : ascii) (r : string) :
  allDigits ds = true -> isDigit c = false ->
  takeDigits (ds ++ String c r) = ds.
Proof.
  intros Hds Hc. induction ds as [|d ds IH].
  - cbn. rewrite Hc. reflexivity.
  - cbn [allDigits] in Hds. apply andb_true_iff in Hds.
    destruct Hds as [Hd Hds]. cbn [append takeDigits].
    rewrite Hd, IH by assumption. reflexivity.
Qed.

Lemma dropDigits_app (ds : string) (c : ascii) (r : string) :
  allDigits ds = true -> isDigit c = false ->
  dropDigits (ds ++ String c r) = String c r.
Proof.
  intros Hds Hc. induction ds as [|d ds IH].
  - cbn. rewrite Hc. reflexivity.
  - cbn [allDigits] in Hds. apply andb_true_iff in Hds.
    destruct Hds as [Hd Hds]. cbn [append dropDigits].
    rewrite Hd, IH by assumption. reflexivity.
Qed.

Lemma dropDigits_all (ds : string) : allDigits ds = true -> dropDigits ds = "".
Proof.
  induction ds as [|d ds IH]; [reflexivity|].
  cbn [allDigits dropDigits]. intros H. apply andb_true_iff in H.
  destruct H as [-> H]. apply IH, H.
Qed.

Lemma replaceFirst_absent (c d : ascii) (s : string) :
  hasChar c s = false -> replaceFirst c d s = s.
Proof.
  induction s as [|x s IH]; [reflexivity|].
  cbn [hasChar replaceFirst]. intros H. apply orb_false_iff in H.
  destruct H as [-> H]. rewrite IH by assumption. reflexivity.
Qed.

(** The fraction of a compact text: nothing, or a comma and one digit. *)
Inductive fraction : Type :=
| Whole : fraction
| Tenth : Z -> fraction.

Definition fractionOf (t : Z) : fraction :=
  if t mod 10 =? 0 then Whole else Tenth (t mod 10).

Definition fractionText (mark : ascii) (f : fraction) : string :=
  match f with
  | Whole => ""
  | Tenth d => String mark (String (digitChar d) "")
  end.

Definition minus (neg : bool) : string := if neg then "-" else "".

(** The number pattern finds the signed digits with their fraction. *)
Lemma matchNumber_compact (neg : bool) (ds : string) (f : fraction)
    (unit : string) :
  allDigits ds = true -> isEmpty ds = false ->
  (forall d, f = Tenth d -> 0 <= d < 10) ->
  matchNumber ("rp " ++ minus neg ++ ds ++ fractionText "," f ++ " " ++ unit)
  = Some (minus neg ++ ds ++ fractionText "," f).
Proof.
  intros Hds Hne Hf.
  assert (Hbody : numericBody (ds ++ fractionText "," f ++ " " ++ unit)
                  = ds ++ fractionText "," f).
  { unfold numericBody. destruct f as [|d]; cbn [fractionText append].
    - rewrite takeDigits_app, dropDigits_app by (try reflexivity; assumption).
      change (Ascii.eqb " " "," || Ascii.eqb " " ".") with false.
      symmetry. apply app_nil_r.
    - rewrite takeDigits_app, dropDigits_app by (try reflexivity; assumption).
      change (Ascii.eqb "," "," || Ascii.eqb "," ".") with true. cbv iota.
      cbn [takeDigits]. rewrite digitChar_isDigit by (apply Hf; reflexivity).
      reflexivity. }
  destruct ds as [|c ds]; [discriminate|].
  assert (Hc : isDigit c = true)
    by (cbn [allDigits] in Hds; apply andb_true_iff in Hds; apply Hds).
  destruct (digit_cases c Hc) as (_ & Hm & _).
  destruct neg; cbn [minus append matchNumber].
  - change (Ascii.eqb "r" "-") with false. change (isDigit "r") with false.
    change (Ascii.eqb "p" "-") with false. change (isDigit "p") with false.
    change (Ascii.eqb " " "-") with false. change (isDigit " ") with false.
    cbn [andb]. cbn [startsWithDigit]. rewrite Hc, Ascii.eqb_refl. cbn [andb].
    cbn [append] in Hbody. rewrite Hbody. reflexivity.
  - change (Ascii.eqb "r" "-") with false. change (isDigit "r") with false.
    change (Ascii.eqb "p" "-") with false. change (isDigit "p") with false.
    change (Ascii.eqb " " "-") with false. change (isDigit " ") with false.
    cbn [andb]. rewrite Hm, Hc. cbn [andb].
    cbn [append] in Hbody. rewrite Hbody. reflexivity.
Qed.

Lemma compactBody_fraction (t : Z) :
  compactBody t = digitsOf (t / 10) ++ fractionText "," (fractionOf t).
Proof.
  unfold compactBody, fractionOf. destruct (t mod 10 =? 0); reflexivity.
Qed.

Lemma fractionOf_digit (t d : Z) : fractionOf t = Tenth d -> 0 <= d < 10.
Proof.
  unfold fractionOf. destruct (t mod 10 =? 0); [discriminate|].
  intros [= <-]. apply Z.mod_pos_bound. lia.
Qed.

(** Characters that occur in no number: the letters that start a unit
    name searched before or at the unit found. *)
Lemma hasChar_fraction (c mark : ascii) (f : fraction) :
  isDigit c = false -> Ascii.eqb mark c = false ->
  (forall d, f = Tenth d -> 0 <= d < 10) ->
  hasChar c (fractionText mark f) = false.
Proof.
  intros Hc Hmark Hf. destruct f as [|d]; [reflexivity|].
  cbn [fractionText hasChar]. rewrite Hmark.
  destruct (Ascii.eqb_spec (digitChar d) c) as [E | _]; [|reflexivity].
  rewrite <- E, digitChar_isDigit in Hc by (apply Hf; reflexivity).
  discriminate Hc.
Qed.

Section CompactText.

Variables (neg : bool) (ds : string) (f : fraction).
Hypothesis Hds : allDigits ds = true.
Hypothesis Hne : isEmpty ds = false.
Hypothesis Hf : forall d, f = Tenth d -> 0 <= d < 10.

(** The text in front of the unit, lower-cased. *)
Definition front : string := "rp " ++ minus neg ++ ds ++ fractionText "," f.

Lemma front_avoids (c : ascii) :
  isDigit c = false -> hasChar c "rp -," = false -> hasChar c front = false.
Proof.
  intros Hc Hlit. unfold front. rewrite !hasChar_app.
  cbn [hasChar] in Hlit. repeat (apply orb_false_iff in Hlit;
                                 destruct Hlit as [? Hlit]).
  rewrite (hasChar_digits c ds Hc Hds).
  rewrite (hasChar_fraction c "," f Hc) by assumption.
  cbn [hasChar]. destruct neg; cbn [minus hasChar];
    repeat match goal with H : Ascii.eqb _ c = false |- _ => rewrite H end;
    reflexivity.
Qed.

Lemma text_split (head unit : string) :
  head ++ minus neg ++ ds ++ fractionText "," f ++ " " ++ unit
  = (head ++ minus neg ++ ds ++ fractionText "," f) ++ " " ++ unit.
Proof. rewrite !app_assoc. reflexivity. Qed.

Lemma text_front (unit : string) :
  "rp " ++ minus neg ++ ds ++ fractionText "," f ++ " " ++ unit
  = front ++ " " ++ unit.
Proof. apply text_split. Qed.

Lemma cleaned_compact (unit : string) (multiplier : Q) :
  In (unit, multiplier) compactUnits ->
  toLowerCase
    (trim ("Rp " ++ minus neg ++ ds ++ fractionText "," f ++ " " ++ unit))
  = "rp " ++ minus neg ++ ds ++ fractionText "," f ++ " " ++ unit.
Proof.
  intros Hin.
  assert (Hunit : isEmpty (trimEnd (" " ++ unit)) = false
                  /\ trimEnd (" " ++ unit) = " " ++ unit
                  /\ toLowerCase unit = unit).
  { cbn [In compactUnits] in Hin.
    destruct Hin as [[= <- _] | [[= <- _] | [[= <- _] | [[= <- _] | []]]]];
      repeat split. }
  destruct Hunit as (Hblank & Hend & Hlow).
  unfold trim. change (trimStart ("Rp " ++ ?x)) with ("Rp " ++ x).
  rewrite (text_split "Rp "), trimEnd_app, Hend, <- text_split by assumption.
  rewrite !toLowerCase_app, Hlow, (toLowerCase_digits ds) by assumption.
  change (toLowerCase "Rp ") with "rp ". change (toLowerCase " ") with " ".
  f_equal. f_equal.
  - destruct neg; reflexivity.
  - f_equal. f_equal. destruct f as [|d]; [reflexivity|].
    cbn [fractionText toLowerCase]. f_equal. f_equal.
    assert (Hd : allDigits (String (digitChar d) "") = true)
      by (cbn; rewrite digitChar_isDigit by (apply Hf; reflexivity);
          reflexivity).
    apply toLowerCase_digits in Hd. cbn in Hd. congruence.
Qed.

Lemma replaceFirst_compact :
  replaceFirst "," "." (minus neg ++ ds ++ fractionText "," f)
  = minus neg ++ ds ++ fractionText "." f.
Proof.
  assert (H : replaceFirst "," "." (ds ++ fractionText "," f)
              = ds ++ fractionText "." f).
  { destruct f as [|d]; cbn [fractionText].
    - rewrite app_nil_r. apply replaceFirst_absent.
      apply hasChar_digits; [reflexivity | assumption].
    - apply replaceFirst_digits; [assumption | reflexivity]. }
  destruct neg; cbn [minus append replaceFirst]; [|exact H].
  change (Ascii.eqb "-" ",") with false. cbv iota. rewrite H. reflexivity.
Qed.

(** The value of the signed digits and their fraction. *)
Definition literalValue : Q :=
  match f with
  | Whole => scale10 (signed neg (digitsValue 0 ds)) 0
  | Tenth d =>
    scale10 (signed neg (digitsValue 0 (ds ++ String (digitChar d) ""))) (-1)
  end.

Lemma parseFloat_compact :
  parseFloat (minus neg ++ ds ++ fractionText "." f) = Num literalValue.
Proof.
  destruct ds as [|c r] eqn:Eds; [discriminate|]. rewrite <- Eds in *.
  assert (Hc : isDigit c = true).
  { rewrite Eds in Hds. cbn [allDigits] in Hds.
    apply andb_true_iff in Hds. apply Hds. }
  assert (Hsign : readSign (trimStart (minus neg ++ ds ++ fractionText "." f))
                  = (neg, ds ++ fractionText "." f)).
  { destruct neg; cbn [minus append]; [reflexivity|].
    rewrite Eds. cbn [append trimStart].
    destruct (digit_cases c Hc) as (-> & _). unfold readSign.
    destruct c as [[] [] [] [] [] [] [] []]; try discriminate Hc;
      reflexivity. }
  unfold parseFloat. rewrite Hsign. unfold literalValue.
  destruct f as [|d]; cbn [fractionText].
  - rewrite app_nil_r, takeDigits_all, dropDigits_all by assumption.
    rewrite Hne. cbn [andb isEmpty readExponent String.length Z.of_nat].
    rewrite app_nil_r. reflexivity.
  - rewrite takeDigits_app, dropDigits_app by (try reflexivity; assumption).
    cbn [takeDigits dropDigits].
    rewrite digitChar_isDigit by (apply Hf; reflexivity).
    rewrite Hne. reflexivity.
Qed.

Lemma compactLoop_compact (unit : string) (multiplier : Q) :
  In (unit, multiplier) compactUnits ->
  compactLoop
    ("rp " ++ minus neg ++ ds ++ fractionText "," f ++ " " ++ unit)
    compactUnits
  = Some (Num (literalValue * multiplier)).
Proof.
  intros Hin.
  assert (Hskip : forall c sub,
             isDigit c = false -> hasChar c "rp -," = false ->
             includes (String c sub) (front ++ " " ++ unit)
             = includes (String c sub) (" " ++ unit))
    by (intros; apply includes_skip, front_avoids; assumption).
  assert (Hfound : forall sub, includes sub (" " ++ unit) = true ->
                               includes sub (front ++ " " ++ unit) = true)
    by (intros; apply includes_suffix; assumption).
  assert (Hmatch := matchNumber_compact neg ds f unit Hds Hne Hf).
  rewrite text_front in *.
  cbn [In compactUnits] in Hin. cbn [compactLoop compactUnits].
  destruct Hin as [[= <- <-] | [[= <- <-] | [[= <- <-] | [[= <- <-] | []]]]];
    rewrite ?Hskip by reflexivity;
    repeat match goal with
           | |- context [includes ?u (" " ++ ?v)] =>
             let b := eval vm_compute in (includes u (" " ++ v)) in
             change (includes u (" " ++ v)) with b; cbv iota
           end;
    rewrite ?Hfound by reflexivity;
    rewrite Hmatch, replaceFirst_compact, parseFloat_compact; reflexivity.
Qed.

End CompactText.

(** *** The value read back *)

Lemma literalValue_tenths (neg : bool) (t : Z) :
  10 <= t ->
  (literalValue neg (digitsOf (t / 10)) (fractionOf t)
   == inject_Z (signed neg t) * (1 # 10))%Q.
Proof.
  intros Ht.
  assert (Hq : 0 <= t / 10) by (apply Z.div_pos; lia).
  pose proof (Z.div_mod t 10 ltac:(lia)) as Hdm.
  pose proof (Z.mod_pos_bound t 10 ltac:(lia)) as Hmod.
  unfold literalValue, fractionOf.
  destruct (Z.eqb_spec (t mod 10) 0) as [E | E].
  - rewrite digitsValue_digitsOf by assumption.
    unfold scale10. cbn [Z.leb Z.compare Z.pow]. 
    replace t with (t / 10 * 10) at 2 by lia.
    destruct neg; unfold signed, Qeq; cbn; lia.
  - rewrite digitsValue_app, digitsValue_digitsOf by assumption.
    cbn [digitsValue]. rewrite digitValue_digitChar by assumption.
    replace (t / 10 * 10 + t mod 10) with t by lia.
    unfold scale10. destruct neg; unfold signed, Qeq; cbn; lia.
Qed.

Lemma compactUnits_selected (abs : Q) (unit : string) (divisor : Q) :
  Spec.selectedUnit abs = Some (unit, divisor) ->
  In (unit, divisor) compactUnits.
Proof.
  intros H.
  destruct (selectedUnit_cases _ _ _ H)
    as [(-> & -> & _) | [(-> & -> & _) | [(-> & -> & _) | (-> & -> & _)]]];
    cbn; auto.
Qed.

(** In a unit-bearing range the text parses to the amount rounded to a
    tenth of the unit. *)
Lemma parse_format_unit (amount : Q) (unit : string) (divisor : Q) :
  let t := Qfloor (Qabs amount / divisor * 10 + (1 # 2)) in
  Spec.selectedUnit (Qabs amount) = Some (unit, divisor) ->
  (Qabs amount <= inject_Z (10 ^ 32))%Q ->
  exists r : Q,
    parseRupiah (formatCompact amount) = Some (Num r)
    /\ (r == inject_Z (signed (Qltb amount 0) t) * (1 # 10) * divisor)%Q.
Proof.
  intros t Hsel Hbound.
  destruct (selectedUnit_value _ _ _ Hsel Hbound) as (Hd & Hlo & Hhi).
  pose proof (tenths_bounds _ Hlo Hhi) as Ht. fold t in Ht.
  assert (Hq : 0 <= t / 10) by (apply Z.div_pos; lia).
  set (neg := Qltb amount 0). set (ds := digitsOf (t / 10)).
  set (f := fractionOf t).
  assert (Hds : allDigits ds = true) by (apply digitsOf_allDigits, Hq).
  assert (Hne : isEmpty ds = false) by (apply digitsOf_nonempty, Hq).
  assert (Hf : forall d, f = Tenth d -> 0 <= d < 10)
    by (intros d; apply fractionOf_digit).
  pose proof (compactUnits_selected _ _ _ Hsel) as Hin.
  exists (literalValue neg ds f * divisor)%Q. split.
  - rewrite (formatCompact_unit amount unit divisor) by assumption.
    fold t. rewrite compactBody_fraction. fold ds f.
    change (if Qltb amount 0 then "-" else "") with (minus neg).
    rewrite (app_assoc ds).
    unfold parseRupiah.
    change (isEmpty ("Rp " ++ ?x)) with false. cbv iota.
    rewrite (cleaned_compact neg ds f Hds Hf unit divisor Hin).
    rewrite (compactLoop_compact neg ds f Hds Hne Hf unit divisor Hin).
    reflexivity.
  - unfold ds, f. rewrite literalValue_tenths by lia. reflexivity.
Qed.

Lemma round_trip_unit (amount : Q) (unit : string) (divisor : Q) :
  Spec.selectedUnit (Qabs amount) = Some (unit, divisor) ->
  (Qabs amount <= inject_Z (10 ^ 32))%Q ->
  exists r : Q,
    parseRupiah (formatCompact amount) = Some (Num r)
    /\ (Qabs (r - amount) <= divisor / 20)%Q.
Proof.
  intros Hsel Hbound.
  destruct (parse_format_unit amount unit divisor Hsel Hbound)
    as (r & Hparse & Hr).
  exists r. split; [exact Hparse|].
  destruct (selectedUnit_value _ _ _ Hsel Hbound) as (Hd & _ & _).
  set (t := Qfloor (Qabs amount / divisor * 10 + (1 # 2))) in *.
  pose proof (Qfloor_le (Qabs amount / divisor * 10 + (1 # 2))) as Hle.
  pose proof (Qlt_floor (Qabs amount / divisor * 10 + (1 # 2))) as Hlt.
  fold t in Hle, Hlt. rewrite inject_Z_plus in Hlt.
  change (inject_Z 1) with 1%Q in Hlt.
  set (T := inject_Z t) in *.
  assert (Hscaled : (Qabs amount - divisor / 20
                     < T * (1 # 10) * divisor
                     /\ T * (1 # 10) * divisor
                        <= Qabs amount + divisor / 20)%Q).
  { assert (Ha : (Qabs amount == Qabs amount / divisor * divisor)%Q)
      by (field; lra).
    set (v := (Qabs amount / divisor)%Q) in *.
    assert (H1 : (T * divisor <= (v * 10 + (1 # 2)) * divisor)%Q)
      by (apply Qmult_le_compat_r; lra).
    assert (H2 : ((v * 10 + (1 # 2)) * divisor < (T + 1) * divisor)%Q)
      by (apply Qmult_lt_compat_r; lra).
    change (divisor / 20)%Q with (divisor * (1 # 20))%Q.
    rewrite Ha. split; lra. }
  destruct Hscaled as [Hlow Hhigh].
  assert (Hsigned : forall neg, (inject_Z (signed neg t)
                                 == if neg then - T else T)%Q).
  { intros []; unfold signed, T; [rewrite inject_Z_opp|]; reflexivity. }
  rewrite Hr, Hsigned. apply Qabs_Qle_condition.
  change (divisor / 20)%Q with (divisor * (1 # 20))%Q in *.
  destruct (Qlt_le_dec amount 0) as [Hneg | Hpos].
  - rewrite Qltb_true by assumption.
    rewrite Qabs_neg in Hlow, Hhigh by lra.
    split; lra.
  - rewrite Qltb_false by assumption.
    rewrite Qabs_pos in Hlow, Hhigh by assumption.
    split; lra.
Qed.

(** *** Amounts below the units *)

Lemma selectedUnit_none (abs : Q) :
  (abs < 100000)%Q -> Spec.selectedUnit abs = None.
Proof.
  intros H. unfold Spec.selectedUnit.
  rewrite !Qle_bool_false by lra. reflexivity.
Qed.

Lemma isWordChar_digit (c : ascii) : isDigit c = true -> isWordChar c = true.
Proof.
  destruct c as [[] [] [] [] [] [] [] []]; cbn; intros H;
    first [discriminate H | reflexivity].
Qed.

Ltac group_digits :=
  unfold groupThousands;
  repeat (cbn [groupFrom takeDigits String.length append];
          rewrite ?isWordChar_digit by assumption;
          repeat match goal with
                 | H : isDigit _ = true |- _ => rewrite H
                 end);
  reflexivity.

Lemma group_four (a x y z : ascii) :
  isDigit a = true ->
  isDigit x = true -> isDigit y = true -> isDigit z = true ->
  groupThousands "." (String a (String x (String y (String z ""))))
  = String a (String "." (String x (String y (String z "")))).
Proof. intros Ha Hx Hy Hz. group_digits. Qed.

Lemma group_five (a b x y z : ascii) :
  isDigit a = true -> isDigit b = true ->
  isDigit x = true -> isDigit y = true -> isDigit z = true ->
  groupThousands "."
    (String a (String b (String x (String y (String z "")))))
  = String a (String b (String "." (String x (String y (String z ""))))).
Proof. intros Ha Hb Hx Hy Hz. group_digits. Qed.

Lemma digitsOf_thousands (m : Z) :
  1000 <= m -> digitsOf m = digitsOf (m / 1000) ++ fixedDigits 3 (m mod 1000) "".
Proof.
  intros H.
  rewrite (digitsOf_step m), (digitsOf_step (m / 10)),
    (digitsOf_step (m / 10 / 10)) by (Z.div_mod_to_equations; lia).
  cbn [fixedDigits]. rewrite !app_assoc. cbn [append].
  replace (m / 10 / 10 / 10) with (m / 1000)
    by (Z.div_mod_to_equations; lia).
  replace (m mod 1000 / 10 / 10 mod 10) with (m / 10 / 10 mod 10)
    by (Z.div_mod_to_equations; lia).
  replace (m mod 1000 / 10 mod 10) with (m / 10 mod 10)
    by (Z.div_mod_to_equations; lia).
  replace (m mod 1000 mod 10) with (m mod 10)
    by (Z.div_mod_to_equations; lia).
  reflexivity.
Qed.

Lemma groupThousands_small (m : Z) :
  1000 <= m < 100000 ->
  groupThousands "." (digitsOf m)
  = digitsOf (m / 1000) ++ String "." (fixedDigits 3 (m mod 1000) "").
Proof.
  intros H. rewrite digitsOf_thousands by lia. cbn [fixedDigits].
  assert (Hd : forall z, isDigit (digitChar (z mod 10)) = true)
    by (intros z; apply digitChar_isDigit, Z.mod_pos_bound; lia).
  destruct (Z_lt_le_dec (m / 1000) 10) as [Hone | Htwo].
  - rewrite digitsOf_small by (Z.div_mod_to_equations; lia). cbn [append].
    apply group_four; auto.
    apply digitChar_isDigit. Z.div_mod_to_equations; lia.
  - rewrite (digitsOf_step (m / 1000)), digitsOf_small
      by (Z.div_mod_to_equations; lia).
    cbn [append]. apply group_five; auto.
    apply digitChar_isDigit. Z.div_mod_to_equations; lia.
Qed.

(** Text without a unit: ["Rp "] and a body that holds no letter. *)
Lemma includes_absent (c : ascii) (sub s : string) :
  hasChar c s = false -> includes (String c sub) s = false.
Proof.
  induction s as [|x s IH]; [reflexivity|].
  cbn [hasChar]. intros H. apply orb_false_iff in H. destruct H as [Hx H].
  cbn [includes startsWith]. rewrite Ascii.eqb_sym, Hx, IH by assumption.
  reflexivity.
Qed.

Lemma removeRp_unfold (c d : ascii) (r : string) :
  removeRp (String c (String d r))
  = if Ascii.eqb (toLowerChar c) "r" && Ascii.eqb (toLowerChar d) "p"
    then removeRp r
    else String c (removeRp (String d r)).
Proof. reflexivity. Qed.

Lemma removeRp_quiet (s : string) :
  toLowerCase s = s -> hasChar "r" s = false -> removeRp s = s.
Proof.
  induction s as [|c t IH]; [reflexivity|].
  cbn [toLowerCase hasChar]. intros [= Hc Ht] H.
  apply orb_false_iff in H. destruct H as [Hr H].
  destruct t as [|d r]; [reflexivity|].
  rewrite removeRp_unfold, Hc, Hr, IH by assumption. reflexivity.
Qed.

Lemma parse_plain (body : string) :
  isEmpty body = false -> trimStart body = body -> trimEnd body = body ->
  toLowerCase body = body ->
  hasChar "t" body = false -> hasChar "m" body = false ->
  hasChar "j" body = false -> hasChar "r" body = false ->
  parseRupiah ("Rp " ++ body) = orNull (parseFloat (canonical body)).
Proof.
  intros He Hstart Hend Hlow Ht Hm Hj Hr.
  assert (Hclean : toLowerCase (trim ("Rp " ++ body)) = "rp " ++ body).
  { unfold trim. change (trimStart ("Rp " ++ body)) with ("Rp " ++ body).
    rewrite trimEnd_app, Hend by (rewrite Hend; exact He).
    rewrite toLowerCase_app, Hlow. reflexivity. }
  rewrite parseRupiah_plain; unfold plainText; rewrite ?Hclean.
  - change (removeRp ("rp " ++ body)) with (removeRp (String " " body)).
    destruct body as [|x rest] eqn:E; [discriminate|]. rewrite <- E in *.
    rewrite E at 1. rewrite removeRp_unfold. cbn [andb]. rewrite <- E.
    change (Ascii.eqb (toLowerChar " ") "r") with false. cbn [andb].
    rewrite removeRp_quiet by assumption.
    unfold trim. cbn [trimStart]. change (isSpace " ") with true. cbv iota.
    rewrite Hstart, Hend. reflexivity.
  - reflexivity.
  - apply compactLoop_no_unit.
    + apply includes_absent. rewrite hasChar_app, Ht. reflexivity.
    + apply includes_absent. rewrite hasChar_app, Hm. reflexivity.
    + apply includes_absent. rewrite hasChar_app, Hj. reflexivity.
    + change (includes "ribu" ("rp " ++ body)) with (includes "ribu" body).
      apply includes_absent, Hr.
Qed.

Lemma trimEnd_digits (ds : string) : allDigits ds = true -> trimEnd ds = ds.
Proof.
  induction ds as [|c ds IH]; [reflexivity|].
  cbn [allDigits trimEnd]. intros H. apply andb_true_iff in H.
  destruct H as [Hc H]. rewrite IH by assumption.
  destruct (digit_cases c Hc) as (-> & _). rewrite andb_false_r. reflexivity.
Qed.

Section PlainText.

Variables (neg : bool) (hi lo : string).
Hypothesis Hhi : allDigits hi = true.
Hypothesis Hne : isEmpty hi = false.
Hypothesis Hlo : allDigits lo = true.

(** The body of a plain text: the sign and the digits, possibly grouped
    once. *)
Definition plainBody (grouped : bool) : string :=
  minus neg ++ hi ++ (if grouped then String "." lo else lo).

Lemma plainBody_avoids (grouped : bool) (c : ascii) :
  isDigit c = false -> Ascii.eqb "-" c = false -> Ascii.eqb "." c = false ->
  hasChar c (plainBody grouped) = false.
Proof.
  intros Hc Hm Hd. unfold plainBody. rewrite !hasChar_app.
  rewrite (hasChar_digits c hi Hc Hhi).
  assert (Htail : hasChar c (if grouped then String "." lo else lo) = false).
  { destruct grouped; cbn [hasChar]; rewrite ?Hd;
      apply (hasChar_digits c lo Hc Hlo). }
  rewrite Htail. destruct neg; cbn [minus hasChar]; rewrite ?Hm; reflexivity.
Qed.

Lemma plainBody_shape (grouped : bool) :
  isEmpty (plainBody grouped) = false
  /\ trimStart (plainBody grouped) = plainBody grouped
  /\ trimEnd (plainBody grouped) = plainBody grouped
  /\ toLowerCase (plainBody grouped) = plainBody grouped.
Proof.
  destruct hi as [|c r] eqn:E; [discriminate|]. rewrite <- E in *.
  assert (Hc : isDigit c = true).
  { rewrite E in Hhi. cbn [allDigits] in Hhi.
    apply andb_true_iff in Hhi. apply Hhi. }
  destruct (digit_cases c Hc) as (Hspace & _).
  assert (Htail : allDigits (hi ++ lo) = true)
    by (rewrite allDigits_app, Hhi, Hlo; reflexivity).
  unfold plainBody. repeat split.
  - rewrite !isEmpty_app, Hne, andb_false_r. reflexivity.
  - destruct neg; cbn [minus append]; [reflexivity|].
    rewrite E. cbn [append trimStart]. rewrite Hspace. reflexivity.
  - destruct grouped.
    + destruct lo as [|z lo'] eqn:El.
      * rewrite <- (app_assoc (minus neg) hi).
        assert (Hdot : trimEnd "." = "." /\ isEmpty (trimEnd ".") = false)
          by (split; reflexivity).
        destruct Hdot as [Hd1 Hd2].
        rewrite trimEnd_app, Hd1 by exact Hd2. reflexivity.
      * rewrite <- El in *.
        replace (minus neg ++ hi ++ String "." lo)
          with ((minus neg ++ hi ++ ".") ++ lo)
          by (rewrite !app_assoc; reflexivity).
        rewrite trimEnd_app; rewrite trimEnd_digits by assumption;
          [reflexivity | rewrite El; reflexivity].
    + rewrite trimEnd_app; rewrite trimEnd_digits by assumption.
      * reflexivity.
      * rewrite isEmpty_app, Hne. reflexivity.
  - rewrite !toLowerCase_app, (toLowerCase_digits hi) by assumption.
    f_equal; [destruct neg; reflexivity|]. f_equal.
    destruct grouped; cbn [toLowerCase];
      rewrite (toLowerCase_digits lo) by assumption; reflexivity.
Qed.

Lemma parse_plainBody (grouped : bool) :
  parseRupiah ("Rp " ++ plainBody grouped)
  = orNull (parseFloat (canonical (plainBody grouped))).
Proof.
  destruct (plainBody_shape grouped) as (He & Hs & Ht & Hl).
  apply parse_plain; try assumption;
    apply plainBody_avoids; reflexivity.
Qed.

Lemma removeAll_app (c : ascii) (a b : string) :
  removeAll c (a ++ b) = removeAll c a ++ removeAll c b.
Proof.
  induction a as [|x a IH]; [reflexivity|].
  cbn [append removeAll]. destruct (Ascii.eqb x c); [exact IH|].
  cbn [append]. rewrite IH. reflexivity.
Qed.

Lemma canonical_plainBody (grouped : bool) :
  (grouped = true -> String.length lo = 3%nat) ->
  canonical (plainBody grouped) = minus neg ++ hi ++ lo.
Proof.
  intros Hlen.
  assert (Hsign : forall c, Ascii.eqb "-" c = false ->
                            hasChar c (minus neg) = false)
    by (intros c Hc; destruct neg; cbn [minus hasChar]; rewrite ?Hc;
        reflexivity).
  assert (Hcomma : hasChar "," (plainBody grouped) = false)
    by (apply plainBody_avoids; reflexivity).
  assert (Hdot : hasChar "." (plainBody grouped) = grouped).
  { unfold plainBody. rewrite !hasChar_app, Hsign by reflexivity.
    rewrite (hasChar_digits "." hi) by (try reflexivity; assumption).
    destruct grouped; cbn [hasChar orb]; [reflexivity|].
    apply hasChar_digits; [reflexivity | assumption]. }
  unfold canonical. rewrite Hcomma, Hdot, andb_false_r.
  destruct grouped; unfold plainBody; [|reflexivity].
  replace (minus neg ++ hi ++ String "." lo)
    with ((minus neg ++ hi) ++ String "." lo)
    by (rewrite app_assoc; reflexivity).
  rewrite split_once
    by (rewrite ?hasChar_app, ?Hsign by reflexivity;
        rewrite ?hasChar_digits by (try reflexivity; assumption);
        reflexivity).
  change (at_ [?a; ?b] 1) with b. rewrite (Hlen eq_refl).
  cbn [List.length Nat.ltb Nat.leb Nat.eqb andb orb].
  rewrite !removeAll_app. cbn [removeAll]. rewrite Ascii.eqb_refl.
  rewrite !removeAll_absent
    by (rewrite ?Hsign by reflexivity;
        rewrite ?hasChar_digits by (try reflexivity; assumption);
        reflexivity).
  apply app_assoc.
Qed.

Lemma parse_plain_value (grouped : bool) :
  (grouped = true -> String.length lo = 3%nat) ->
  parseRupiah ("Rp " ++ plainBody grouped)
  = Some (Num (scale10 (signed neg (digitsValue 0 (hi ++ lo))) 0)).
Proof.
  intros Hlen. rewrite parse_plainBody, canonical_plainBody by assumption.
  assert (Hall : allDigits (hi ++ lo) = true)
    by (rewrite allDigits_app, Hhi, Hlo; reflexivity).
  assert (Hnonempty : isEmpty (hi ++ lo) = false)
    by (rewrite isEmpty_app, Hne; reflexivity).
  assert (Hwhole : forall d : Z, Whole = Tenth d -> 0 <= d < 10)
    by discriminate.
  pose proof (parseFloat_compact neg (hi ++ lo) Whole Hall Hnonempty Hwhole)
    as H.
  cbn [fractionText literalValue] in H.
  rewrite app_nil_r in H. rewrite H. reflexivity.
Qed.

End PlainText.

(** The compact text of an integer below the units. *)
Lemma formatCompact_integer (amount : Q) (n : Z) :
  (amount == inject_Z n)%Q -> -100000 < n < 100000 ->
  formatCompact amount
  = "Rp " ++ minus (n <? 0)
      ++ (if 1000 <=? Z.abs n
          then groupThousands "." (digitsOf (Z.abs n))
          else digitsOf (Z.abs n)).
Proof.
  intros Hn Hsmall.
  assert (Habs : (Qabs amount == inject_Z (Z.abs n))%Q)
    by (rewrite Hn; reflexivity).
  assert (Hlt : (inject_Z (Z.abs n) < 100000)%Q)
    by (apply (inject_Z_lt_pow (Z.abs n) 5); cbn; lia).
  rewrite formatCompact_select.
  rewrite selectedUnit_none by (rewrite Habs; exact Hlt).
  rewrite (toString_integer (Qabs amount) (Z.abs n) Habs) by lia.
  f_equal. f_equal.
  - unfold Qltb, minus. rewrite Hn.
    destruct (Z.ltb_spec n 0) as [Hneg | Hpos].
    + rewrite Qle_bool_false; [reflexivity|].
      change 0%Q with (inject_Z 0). rewrite <- Zlt_Qlt. exact Hneg.
    + replace (Qle_bool 0 (inject_Z n)) with true; [reflexivity|].
      symmetry. apply Qle_bool_iff, inject_Z_nonneg, Hpos.
  - rewrite Habs. change 1000%Q with (inject_Z 1000).
    destruct (Z.leb_spec 1000 (Z.abs n)) as [Hge | Hltk].
    + replace (Qle_bool (inject_Z 1000) (inject_Z (Z.abs n))) with true;
        [reflexivity|].
      symmetry. apply Qle_bool_iff, inject_Z_le, Hge.
    + rewrite Qle_bool_false; [reflexivity|].
      rewrite <- Zlt_Qlt. exact Hltk.
Qed.

(** Below the units an integer is read back exactly. *)
Lemma round_trip_integer (amount : Q) (n : Z) :
  (amount == inject_Z n)%Q -> -100000 < n < 100000 ->
  exists r : Q,
    parseRupiah (formatCompact amount) = Some (Num r) /\ (r == amount)%Q.
Proof.
  intros Hn Hsmall.
  set (m := Z.abs n).
  assert (Hm : 0 <= m < 100000) by (unfold m; lia).
  assert (Hvalue : (scale10 (signed (n <? 0) m) 0 == amount)%Q).
  { rewrite Hn. unfold scale10, signed, m. cbn [Z.leb Z.compare Z.pow].
    destruct (Z.ltb_spec n 0); rewrite Z.mul_1_r;
      [replace (- Z.abs n) with n by lia | replace (Z.abs n) with n by lia];
      reflexivity. }
  rewrite (formatCompact_integer amount n Hn Hsmall). fold m.
  eexists. split; [|exact Hvalue].
  destruct (Z.leb_spec 1000 m) as [Hge | Hlt].
  - rewrite groupThousands_small by lia.
    assert (Hq : 0 <= m / 1000) by (Z.div_mod_to_equations; lia).
    pose proof (parse_plain_value (n <? 0) (digitsOf (m / 1000))
                  (fixedDigits 3 (m mod 1000) "")
                  (digitsOf_allDigits _ Hq) (digitsOf_nonempty _ Hq)
                  (fixedDigits_allDigits 3 _) true
                  (fun _ => fixedDigits_length 3 _)) as H.
    unfold plainBody in H. rewrite H.
    rewrite <- digitsOf_thousands, digitsValue_digitsOf by lia.
    reflexivity.
  - assert (Hq : 0 <= m) by lia.
    pose proof (parse_plain_value (n <? 0) (digitsOf m) ""
                  (digitsOf_allDigits _ Hq) (digitsOf_nonempty _ Hq)
                  eq_refl false ltac:(discriminate)) as H.
    unfold plainBody in H. rewrite !app_nil_r in H. rewrite H.
    rewrite digitsValue_digitsOf by lia. reflexivity.
Qed.




(** Beyond 10^33 the digits of the value give way to the exponential
    notation, and only the first digit is read back. *)
Lemma compact_round_trip_huge :
  formatCompact (inject_Z (10 ^ 33)) = "Rp 1e+21 triliun"
  /\ parsesTo (parseRupiah (formatCompact (inject_Z (10 ^ 33))))
       (inject_Z (10 ^ 12)).
Proof. evaluate. Qed.

End RoundTrip.

(** * Further properties of the code *)

(** ** Rounding to clean amounts: laws *)

Module UtilsLaws.
Import JS Utils UtilsFacts.
Open Scope Q_scope.

Lemma Math_round_integer (x : Q) (k : Z) :
  x == inject_Z k -> Math_round x = inject_Z k.
Proof.
  intros H. unfold Math_round. f_equal.
  apply NumberFacts.Qfloor_half. exact H.
Qed.

Lemma Math_round_monotone (x y : Q) : x <= y -> Math_round x <= Math_round y.
Proof.
  intros H. unfold Math_round. rewrite <- Zle_Qle.
  apply Qfloor_resp_le. lra.
Qed.

Lemma roundToClean_multiple (x : Q) (k : Z) (unit : option RoundUnit) :
  let d := divisors (match unit with Some u => u | None => ribu end) in
  x == inject_Z k * d -> roundToClean x unit == inject_Z k * d.
Proof.
  intros d Hx. unfold roundToClean. fold d.
  assert (Hd : 0 < d) by apply divisors_pos.
  rewrite (Math_round_integer (x / d) k); [reflexivity|].
  rewrite Hx. field. lra.
Qed.


(** X2.  Rounding keeps the order of amounts. *)
Theorem roundToClean_monotone (a b : Q) (unit : option RoundUnit) :
  a <= b -> roundToClean a unit <= roundToClean b unit.
Proof.
  intros Hab. unfold roundToClean.
  set (d := divisors (match unit with Some u => u | None => ribu end)).
  assert (Hd : 0 < d) by apply divisors_pos.
  apply Qmult_le_compat_r; [|lra].
  apply Math_round_monotone.
  apply Qmult_le_compat_r; [exact Hab|].
  apply Qlt_le_weak, Qinv_lt_0_compat, Hd.
Qed.

Lemma roundToClean_monotone_witness :
  roundToClean 1499 (Some juta) <= roundToClean 1500000 (Some juta).
Proof. apply roundToClean_monotone. discriminate. Defined.

End UtilsLaws.

(** ** Terbilang: the range of the tables and the fraction *)

Module WordsLaws.
Import JS Words StringFacts WordsFacts.

(** *** Below 10^15 every word comes from the tables *)

Definition lowF (s : string) : bool := hasChar "f" (toLowerCase s).

Lemma lowF_app (a b : string) : lowF (a ++ b) = lowF a || lowF b.
Proof. unfold lowF. rewrite toLowerCase_app. apply hasChar_app. Qed.

Lemma lowF_capitalize (s : string) : lowF (capitalize s) = lowF s.
Proof.
  destruct s as [|c s]; [reflexivity|].
  unfold lowF. simpl. rewrite toLower_toUpper. reflexivity.
Qed.

Lemma lowF_spaced (w : string) : lowF (spaced w) = lowF w.
Proof.
  unfold spaced. destruct (truthy w); [|reflexivity].
  rewrite lowF_app. apply orb_false_r.
Qed.

Lemma lowF_convertGroup (num : Z) :
  0 <= num < 1000 -> lowF (convertGroup num) = false.
Proof.
  intros H. apply negb_true_iff.
  apply (Range.forallb_upto (fun z => negb (lowF (convertGroup z))) 0 1000);
    [vm_compute; reflexivity | lia].
Qed.

Lemma lowF_groupWords (n : Z) :
  0 <= n < 10 ^ 15 -> lowF (groupWords n) = false.
Proof.
  intros H. unfold groupWords.
  assert (H1 : lowF (convertGroup (n / 1000000000000)) = false)
    by (apply lowF_convertGroup; Z.div_mod_to_equations; lia).
  assert (H2 : lowF (convertGroup (n mod 1000000000000 / 1000000000)) = false)
    by (apply lowF_convertGroup; Z.div_mod_to_equations; lia).
  assert (H3 : lowF (convertGroup (n mod 1000000000 / 1000000)) = false)
    by (apply lowF_convertGroup; Z.div_mod_to_equations; lia).
  assert (H4 : lowF (convertGroup (n mod 1000000 / 1000)) = false)
    by (apply lowF_convertGroup; Z.div_mod_to_equations; lia).
  assert (H5 : lowF (convertGroup (n mod 1000)) = false)
    by (apply lowF_convertGroup; Z.div_mod_to_equations; lia).
  repeat match goal with
         | |- context [if ?b then _ else _] => destruct b
         end;
    repeat (rewrite ?lowF_app, ?lowF_spaced, ?H1, ?H2, ?H3, ?H4, ?H5; simpl);
    reflexivity.
Qed.

Lemma includes_undefined (s : string) :
  includes "undefined" s = true -> hasChar "f" s = true.
Proof.
  induction s as [|c s IH]; [discriminate|].
  cbn [includes hasChar]. intros H.
  apply orb_true_iff in H. destruct H as [H | H].
  - destruct s as [|c1 [|c2 [|c3 [|c4 s]]]]; cbn [startsWith] in H;
      rewrite ?andb_false_r in H; try discriminate H.
    do 4 (apply andb_true_iff in H; destruct H as [_ H]).
    apply andb_true_iff in H. destruct H as [H _].
    apply Ascii.eqb_eq in H. subst c4. cbn. rewrite !orb_true_r. reflexivity.
  - rewrite (IH H). apply orb_true_r.
Qed.

Lemma Qfloor_abs_below (amount : Q) (k : Z) :
  (Qabs amount < inject_Z k)%Q -> Qfloor (Qabs amount) < k.
Proof.
  intros H. pose proof (Qfloor_le (Qabs amount)) as Hle.
  assert (Hlt : (inject_Z (Qfloor (Qabs amount)) < inject_Z k)%Q)
    by (eapply Qle_lt_trans; eassumption).
  rewrite <- Zlt_Qlt in Hlt. exact Hlt.
Qed.

Lemma Qfloor_abs_above (amount : Q) (k : Z) :
  (inject_Z k <= Qabs amount)%Q -> k <= Qfloor (Qabs amount).
Proof.
  intros H. apply Qfloor_resp_le in H. rewrite Qfloor_Z in H. exact H.
Qed.

(** X3.  Below 10^15 every word of the text comes from the tables: no array
    is read out of range, so the text never holds "undefined". *)
Theorem toWords_within_tables (amount : Q) (options : option WordOptions) :
  (Qabs amount < inject_Z (10 ^ 15))%Q ->
  includes "undefined" (toLowerCase (toWords amount options)) = false.
Proof.
  intros Hlt. apply not_true_iff_false. intros H.
  apply includes_undefined in H.
  assert (E : forall s, lowF (cased options s) = lowF s)
    by (intros s; unfold cased; destruct (optUppercase options);
        [apply lowF_capitalize | reflexivity]).
  destruct (Qeq_dec amount 0) as [Hz | Hnz].
  - rewrite toWords_zero in H by assumption.
    fold (lowF (cased options ("nol" ++ suffix options))) in H.
    rewrite E in H. unfold suffix in H.
    destruct (optWithCurrency options); discriminate H.
  - rewrite toWords_nonzero in H by assumption.
    fold (lowF (cased options
                  ((if Qltb amount 0 then "minus " else "")
                     ++ groupWords (Qfloor (Qabs amount)) ++ suffix options)))
      in H.
    rewrite E, !lowF_app, lowF_groupWords in H
      by (split; [apply Qfloor_abs_nonneg | apply Qfloor_abs_below, Hlt]).
    unfold suffix in H.
    destruct (Qltb amount 0), (optWithCurrency options); discriminate H.
Qed.

Lemma toWords_within_tables_witness :
  includes "undefined"
    (toLowerCase (toWords (inject_Z (10 ^ 15 - 1)) None)) = false.
Proof. apply toWords_within_tables. reflexivity. Defined.

(** *** From 10^15 on the hundreds table is read out of range *)

Lemma joinWords_head (w : string) (rest : list string) :
  isEmpty w = false ->
  exists tail, Spec.joinWords (w :: rest) = w ++ tail.
Proof.
  intros H. cbn [Spec.joinWords]. rewrite H.
  destruct (isEmpty (Spec.joinWords rest)).
  - exists "". symmetry. apply app_nil_r.
  - eexists. reflexivity.
Qed.

Lemma convertGroup_overflow (num : Z) :
  1000 <= num -> exists tail, convertGroup num = "undefined ratus" ++ tail.
Proof.
  intros H. unfold convertGroup.
  replace (num =? 0) with false by (symmetry; apply Z.eqb_neq; lia).
  assert (Hh : 10 <= num / 100) by (Z.div_mod_to_equations; lia).
  replace (num / 100 >? 0) with true by (symmetry; apply Z.gtb_lt; lia).
  replace (num / 100 =? 1) with false by (symmetry; apply Z.eqb_neq; lia).
  assert (Hat : at_ BASIC_NUMBERS (num / 100) = "undefined").
  { unfold at_. replace (num / 100 <? 0) with false
      by (symmetry; apply Z.ltb_ge; lia).
    apply nth_overflow. cbn [length BASIC_NUMBERS]. lia. }
  rewrite Hat. cbn [append truthy].
  destruct (num mod 100 >? 0); eexists; [reflexivity|].
  symmetry. rewrite <- (app_nil_r "undefined ratus") at 1. reflexivity.
Qed.

(** X4.  From 10^15 on the triliun group exceeds 999, its hundreds digit is
    read beyond the table of digit words, and the text starts (after the
    sign) with "undefined ratus". *)
Theorem toWords_overflow (amount : Q) (options : option WordOptions) :
  (inject_Z (10 ^ 15) <= Qabs amount)%Q ->
  exists rest,
    toWords amount options
    = cased options
        ((if Qltb amount 0 then "minus " else "") ++ "undefined ratus" ++ rest).
Proof.
  intros Hge.
  assert (Hn : 10 ^ 15 <= Qfloor (Qabs amount))
    by (apply Qfloor_abs_above, Hge).
  assert (Hnz : ~ (amount == 0)%Q).
  { intros E. rewrite E in Hge. apply Qle_bool_iff in Hge.
    discriminate Hge. }
  rewrite toWords_nonzero by assumption.
  set (n := Qfloor (Qabs amount)) in *.
  rewrite groupWords_join by lia.
  destruct (convertGroup_overflow (n / 1000000000000)) as [t1 Ht1];
    [Z.div_mod_to_equations; lia|].
  destruct (joinWords_head (Spec.unitWords "triliun" (n / 1000000000000))
              [Spec.unitWords "miliar" (n mod 1000000000000 / 1000000000);
               Spec.unitWords "juta" (n mod 1000000000 / 1000000);
               Spec.unitWords "ribu" (n mod 1000000 / 1000);
               convertGroup (n mod 1000)]) as [t2 Ht2].
  { unfold Spec.unitWords.
    replace (n / 1000000000000 =? 0) with false
      by (symmetry; apply Z.eqb_neq; Z.div_mod_to_equations; lia).
    cbn [String.eqb Ascii.eqb Bool.eqb andb]. rewrite Ht1. reflexivity. }
  rewrite Ht2. unfold Spec.unitWords.
  replace (n / 1000000000000 =? 0) with false
    by (symmetry; apply Z.eqb_neq; Z.div_mod_to_equations; lia).
  cbn [String.eqb Ascii.eqb Bool.eqb andb]. rewrite Ht1.
  exists (t1 ++ " triliun" ++ t2 ++ suffix options).
  rewrite !app_assoc. reflexivity.
Qed.

Lemma toWords_overflow_witness :
  exists rest,
    toWords (inject_Z (10 ^ 15)) None = "undefined ratus" ++ rest.
Proof.
  apply (toWords_overflow (inject_Z (10 ^ 15)) None).
  apply Qle_bool_iff. vm_compute. reflexivity.
Defined.

(** *** The fraction is dropped *)

Lemma Qabs_floor_pos (amount : Q) :
  (0 <= amount)%Q -> Qfloor (Qabs (inject_Z (Qfloor amount))) = Qfloor (Qabs amount).
Proof.
  intros H. rewrite (Qfloor_comp _ _ (Qabs_pos amount H)).
  apply Qfloor_abs_inject. change 0 with (Qfloor 0). apply Qfloor_resp_le, H.
Qed.

(** X5.  The fraction of an amount is dropped: from 1 on an amount is
    spelled as its floor, and from -1 down as its ceiling. (Between -1 and 1
    only zero itself is spelled "nol".) *)
Theorem toWords_truncates (amount : Q) (options : option WordOptions) :
  (1 <= Qabs amount)%Q ->
  toWords amount options
  = toWords (inject_Z (if Qltb amount 0 then Qceiling amount
                       else Qfloor amount)) options.
Proof.
  intros Hbig.
  assert (Hnz : ~ (amount == 0)%Q).
  { intros E. rewrite E in Hbig. apply Qle_bool_iff in Hbig.
    discriminate Hbig. }
  rewrite toWords_nonzero by exact Hnz.
  destruct (Qlt_le_dec amount 0) as [Hneg | Hpos].
  - rewrite NumberFacts.Qltb_true by exact Hneg.
    assert (Habs : (Qabs amount == - amount)%Q) by (apply Qabs_neg; lra).
    assert (Hbig' : (1 <= - amount)%Q) by (rewrite <- Habs; exact Hbig).
    assert (Hc : Qceiling amount <= -1).
    { unfold Qceiling.
      assert (H : 1 <= Qfloor (- amount)).
      { change 1 with (Qfloor 1). apply Qfloor_resp_le. lra. }
      lia. }
    rewrite toWords_nonzero by (unfold Qeq; cbn; lia).
    rewrite NumberFacts.Qltb_true
      by (change 0%Q with (inject_Z 0); rewrite <- Zlt_Qlt; lia).
    replace (Qfloor (Qabs (inject_Z (Qceiling amount))))
      with (Qfloor (Qabs amount)); [reflexivity|].
    rewrite (Qfloor_comp _ _ Habs).
    unfold Qabs, inject_Z. cbn [Qnum Qden].
    change (Z.abs (Qceiling amount) # 1)%Q
      with (inject_Z (Z.abs (Qceiling amount))).
    rewrite Qfloor_Z. unfold Qceiling in *. lia.
  - rewrite NumberFacts.Qltb_false by exact Hpos.
    assert (Habs : (Qabs amount == amount)%Q) by (apply Qabs_pos; exact Hpos).
    assert (Hbig' : (1 <= amount)%Q) by (rewrite <- Habs; exact Hbig).
    assert (Hf : 1 <= Qfloor amount).
    { change 1 with (Qfloor 1). apply Qfloor_resp_le. lra. }
    rewrite toWords_nonzero by (unfold Qeq; cbn; lia).
    rewrite NumberFacts.Qltb_false
      by (change 0%Q with (inject_Z 0); rewrite <- Zle_Qle; lia).
    rewrite Qabs_floor_pos by exact Hpos. reflexivity.
Qed.

Lemma toWords_truncates_witness :
  toWords (-1500.75) None = toWords (inject_Z (-1500)) None.
Proof.
  apply (toWords_truncates (-1500.75) None).
  apply Qle_bool_iff. vm_compute. reflexivity.
Defined.

End WordsLaws.

(** ** Terbilang: the text determines the amount *)

Module WordsReading.
Import JS Words StringFacts WordsFacts.

(** *** Reading the words back

    A reader of terbilang, used to show that the text determines the
    amount.  It walks over the words, keeping whether "minus" was met,
    the total of the closed groups and the value of the open group. *)

Definition tokens (s : string) : list string := split " " s.

Definition addends : list (string * Z) :=
  [("satu", 1); ("dua", 2); ("tiga", 3); ("empat", 4); ("lima", 5);
   ("enam", 6); ("tujuh", 7); ("delapan", 8); ("sembilan", 9);
   ("sepuluh", 10); ("sebelas", 11); ("belas", 10); ("seratus", 100)].

Definition magnitudes : list (string * Z) :=
  [("triliun", 1000000000000); ("miliar", 1000000000); ("juta", 1000000);
   ("ribu", 1000)].

Fixpoint lookup (w : string) (table : list (string * Z)) : option Z :=
  match table with
  | [] => None
  | (k, v) :: rest => if String.eqb k w then Some v else lookup w rest
  end.

Definition reading : Type := bool * Z * Z.

Definition readWord (st : reading) (word : string) : reading :=
  let '(neg, total, cur) := st in
  let w := toLowerCase word in
  match lookup w addends with
  | Some v => (neg, total, cur + v)
  | None =>
    match lookup w magnitudes with
    | Some m => (neg, total + cur * m, 0)
    | None =>
      if String.eqb w "puluh" then (neg, total, cur + 9 * (cur mod 10))
      else if String.eqb w "ratus" then (neg, total, cur * 100)
      else if String.eqb w "seribu" then (neg, total + cur + 1000, 0)
      else if String.eqb w "minus" then (true, total, cur)
      else st
    end
  end.

Definition readWords (ws : list string) (st : reading) : reading :=
  fold_left readWord ws st.

Definition valueOf (st : reading) : Z :=
  let '(neg, total, cur) := st in
  if neg then - (total + cur) else total + cur.

Definition readAmount (text : string) : Z :=
  valueOf (readWords (tokens text) (false, 0, 0)).

(** Moving the start of a reading moves its end by as much. *)
Definition shift (neg : bool) (total : Z) (st : reading) : reading :=
  let '(n, t, c) := st in (neg || n, total + t, c).

Lemma readWord_shift (neg : bool) (total cur : Z) (w : string) :
  readWord (neg, total, cur) w = shift neg total (readWord (false, 0, cur) w).
Proof.
  unfold readWord, shift.
  destruct (lookup (toLowerCase w) addends);
    [rewrite orb_false_r; f_equal; f_equal; lia|].
  destruct (lookup (toLowerCase w) magnitudes);
    [rewrite orb_false_r; f_equal; f_equal; lia|].
  repeat match goal with
         | |- context [if ?b then _ else _] => destruct b
         end;
    rewrite ?orb_false_r, ?orb_true_r; f_equal; f_equal; lia.
Qed.

Lemma shift_shift (n1 n2 : bool) (t1 t2 : Z) (st : reading) :
  shift n1 t1 (shift n2 t2 st) = shift (n1 || n2) (t1 + t2) st.
Proof.
  destruct st as [[n t] c]. cbn. rewrite orb_assoc. f_equal. f_equal. lia.
Qed.

Lemma readWords_shift (ws : list string) (neg : bool) (total cur : Z) :
  readWords ws (neg, total, cur)
  = shift neg total (readWords ws (false, 0, cur)).
Proof.
  revert neg total cur. induction ws as [|w ws IH]; intros neg total cur.
  - cbn. rewrite orb_false_r. f_equal. f_equal. lia.
  - unfold readWords in *. cbn [fold_left].
    rewrite readWord_shift.
    destruct (readWord (false, 0, cur) w) as [[n t] c] eqn:E.
    cbn [shift]. rewrite IH. rewrite (IH n t c). rewrite shift_shift.
    reflexivity.
Qed.

(** *** Words and pieces *)

Lemma split_nonempty (c : ascii) (s : string) : split c s <> [].
Proof.
  destruct s as [|d s]; [discriminate|].
  cbn [split]. destruct (Ascii.eqb d c); [discriminate|].
  destruct (split c s); discriminate.
Qed.

Lemma split_app (c : ascii) (a b : string) :
  split c (a ++ String c b) = (split c a ++ split c b)%list.
Proof.
  induction a as [|d a IH].
  - cbn [append split]. rewrite Ascii.eqb_refl. reflexivity.
  - cbn [append split]. rewrite IH.
    destruct (Ascii.eqb d c); [reflexivity|].
    destruct (split c a) as [|h t] eqn:E; [|reflexivity].
    exfalso. exact (split_nonempty c a E).
Qed.

Lemma tokens_app (a b : string) :
  tokens (a ++ " " ++ b) = (tokens a ++ tokens b)%list.
Proof. apply split_app. Qed.

(** One piece of the text, read from a reading; an empty piece holds no
    word. *)
Definition readPiece (st : reading) (piece : string) : reading :=
  if isEmpty piece then st else readWords (tokens piece) st.

Lemma readWords_empty (st : reading) : readWords (tokens "") st = st.
Proof. destruct st as [[n t] c]. reflexivity. Qed.

Lemma readWords_join (pieces : list string) (st : reading) :
  readWords (tokens (Spec.joinWords pieces)) st = fold_left readPiece pieces st.
Proof.
  revert st. induction pieces as [|w rest IH]; intros st.
  - apply readWords_empty.
  - cbn [Spec.joinWords fold_left]. unfold readPiece at 2.
    destruct (isEmpty w) eqn:Ew; [apply IH|].
    destruct (isEmpty (Spec.joinWords rest)) eqn:Et.
    + rewrite <- IH. apply isEmpty_true in Et. rewrite Et.
      rewrite readWords_empty. reflexivity.
    + rewrite tokens_app. unfold readWords at 1.
      rewrite fold_left_app. apply IH.
Qed.

Lemma readPiece_shift (piece : string) (neg : bool) (total cur : Z) :
  readPiece (neg, total, cur) piece
  = shift neg total (readPiece (false, 0, cur) piece).
Proof.
  unfold readPiece. destruct (isEmpty piece).
  - cbn. rewrite orb_false_r. f_equal. f_equal. lia.
  - apply readWords_shift.
Qed.

Definition sameReading (a b : reading) : bool :=
  let '(n1, t1, c1) := a in
  let '(n2, t2, c2) := b in
  Bool.eqb n1 n2 && (t1 =? t2) && (c1 =? c2).

Lemma sameReading_eq (a b : reading) : sameReading a b = true -> a = b.
Proof.
  destruct a as [[n1 t1] c1], b as [[n2 t2] c2]. cbn. intros H.
  apply andb_true_iff in H. destruct H as [H Hc].
  apply andb_true_iff in H. destruct H as [Hn Ht].
  apply Bool.eqb_prop in Hn. apply Z.eqb_eq in Ht, Hc. congruence.
Qed.

Lemma readPiece_unit (unit : string) (m count total : Z) (neg : bool) :
  In (unit, m) magnitudes -> 0 <= count < 1000 ->
  readPiece (neg, total, 0) (Spec.unitWords unit count)
  = (neg, total + count * m, 0).
Proof.
  intros Hin Hc. rewrite readPiece_shift.
  assert (E : readPiece (false, 0, 0) (Spec.unitWords unit count)
              = (false, count * m, 0)).
  { apply sameReading_eq.
    apply (Range.forallb_upto
             (fun k => sameReading
                         (readPiece (false, 0, 0) (Spec.unitWords unit k))
                         (false, k * m, 0)) 0 1000); [|lia].
    cbn [magnitudes In] in Hin.
    destruct Hin as [H | [H | [H | [H | []]]]]; injection H as <- <-;
      vm_compute; reflexivity. }
  rewrite E. cbn. rewrite orb_false_r. reflexivity.
Qed.

Lemma readPiece_group (count total : Z) (neg : bool) :
  0 <= count < 1000 ->
  readPiece (neg, total, 0) (convertGroup count) = (neg, total, count).
Proof.
  intros Hc. rewrite readPiece_shift.
  assert (E : readPiece (false, 0, 0) (convertGroup count)
              = (false, 0, count)).
  { apply sameReading_eq.
    apply (Range.forallb_upto
             (fun k => sameReading
                         (readPiece (false, 0, 0) (convertGroup k))
                         (false, 0, k)) 0 1000); [|lia].
    vm_compute; reflexivity. }
  rewrite E. cbn. rewrite orb_false_r. f_equal. f_equal. lia.
Qed.

Lemma readWords_groupWords (n : Z) :
  0 <= n < 10 ^ 15 ->
  readWords (tokens (groupWords n)) (false, 0, 0)
  = (false, n - n mod 1000, n mod 1000).
Proof.
  intros Hn. rewrite groupWords_join, readWords_join by lia.
  cbn [fold_left].
  rewrite (readPiece_unit "triliun" 1000000000000),
    (readPiece_unit "miliar" 1000000000),
    (readPiece_unit "juta" 1000000),
    (readPiece_unit "ribu" 1000),
    readPiece_group
    by (first [ cbn; tauto | Z.div_mod_to_equations; lia ]).
  f_equal. f_equal. Z.div_mod_to_equations. lia.
Qed.


(** *** The whole text *)

Definition capitalizeFirst (ws : list string) : list string :=
  match ws with
  | [] => []
  | h :: t => capitalize h :: t
  end.

Lemma toUpperChar_space (c : ascii) :
  Ascii.eqb (toUpperChar c) " " = Ascii.eqb c " ".
Proof. destruct c as [[] [] [] [] [] [] [] []]; reflexivity. Qed.

Lemma tokens_capitalize (s : string) :
  tokens (capitalize s) = capitalizeFirst (tokens s).
Proof.
  destruct s as [|c s]; [reflexivity|].
  unfold tokens. cbn [capitalize split]. rewrite toUpperChar_space.
  destruct (Ascii.eqb_spec c " ") as [-> | _]; [reflexivity|].
  destruct (split " " s); reflexivity.
Qed.

Lemma toLowerCase_capitalize (s : string) :
  toLowerCase (capitalize s) = toLowerCase s.
Proof.
  destruct s as [|c s]; [reflexivity|].
  cbn [capitalize toLowerCase]. rewrite toLower_toUpper. reflexivity.
Qed.

Lemma readWord_capitalize (st : reading) (w : string) :
  readWord st (capitalize w) = readWord st w.
Proof. unfold readWord. rewrite toLowerCase_capitalize. reflexivity. Qed.

Lemma readWords_capitalizeFirst (ws : list string) (st : reading) :
  readWords (capitalizeFirst ws) st = readWords ws st.
Proof.
  destruct ws as [|h t]; [reflexivity|].
  unfold readWords. cbn [capitalizeFirst fold_left].
  rewrite readWord_capitalize. reflexivity.
Qed.

Lemma readAmount_cased (options : option WordOptions) (s : string) :
  readAmount (cased options s) = readAmount s.
Proof.
  unfold readAmount, cased. destruct (optUppercase options); [|reflexivity].
  rewrite tokens_capitalize, readWords_capitalizeFirst. reflexivity.
Qed.

Lemma tokens_suffix (options : option WordOptions) (s : string) :
  tokens (s ++ suffix options)
  = (tokens s ++ (if optWithCurrency options then ["rupiah"] else []))%list.
Proof.
  unfold suffix. destruct (optWithCurrency options).
  - apply (tokens_app s "rupiah").
  - rewrite app_nil_r. symmetry. apply List.app_nil_r.
Qed.

Lemma readAmount_toWords (z : Z) (options : option WordOptions) :
  - 10 ^ 15 < z < 10 ^ 15 ->
  readAmount (toWords (inject_Z z) options) = z.
Proof.
  intros Hz. destruct (Z.eq_dec z 0) as [-> | Hnz].
  - rewrite toWords_zero by reflexivity. rewrite readAmount_cased.
    unfold suffix. destruct (optWithCurrency options); reflexivity.
  - rewrite toWords_nonzero by (unfold Qeq; cbn; lia).
    rewrite readAmount_cased. unfold readAmount.
    assert (Habs : Qfloor (Qabs (inject_Z z)) = Z.abs z).
    { unfold Qabs, inject_Z. cbn [Qnum Qden]. apply (Qfloor_Z (Z.abs z)). }
    rewrite Habs.
    assert (Hg := readWords_groupWords (Z.abs z) ltac:(lia)).
    destruct (Z_lt_le_dec z 0) as [Hneg | Hpos].
    + rewrite NumberFacts.Qltb_true
        by (change 0%Q with (inject_Z 0); rewrite <- Zlt_Qlt; exact Hneg).
      change ("minus " ++ groupWords (Z.abs z) ++ suffix options)
        with ("minus" ++ " " ++ (groupWords (Z.abs z) ++ suffix options)).
      rewrite tokens_app, tokens_suffix. unfold readWords in *.
      rewrite !fold_left_app.
      change (fold_left readWord (tokens "minus") (false, 0, 0))
        with (true, 0, 0).
      change (fold_left readWord (tokens (groupWords (Z.abs z))) (true, 0, 0))
        with (readWords (tokens (groupWords (Z.abs z))) (true, 0, 0)).
      rewrite readWords_shift. unfold readWords. rewrite Hg.
      destruct (optWithCurrency options); cbn; lia.
    + rewrite NumberFacts.Qltb_false
        by (change 0%Q with (inject_Z 0); rewrite <- Zle_Qle; exact Hpos).
      cbn [append]. rewrite tokens_suffix. unfold readWords in *.
      rewrite fold_left_app, Hg.
      destruct (optWithCurrency options); cbn; lia.
Qed.

(** X6.  Distinct whole amounts below 10^15 in magnitude are spelled
    differently: the text determines the amount. *)
Theorem toWords_injective (m n : Z) (options : option WordOptions) :
  - 10 ^ 15 < m < 10 ^ 15 -> - 10 ^ 15 < n < 10 ^ 15 ->
  toWords (inject_Z m) options = toWords (inject_Z n) options -> m = n.
Proof.
  intros Hm Hn H.
  rewrite <- (readAmount_toWords m options Hm),
    <- (readAmount_toWords n options Hn), H.
  reflexivity.
Qed.

Lemma toWords_injective_witness :
  toWords (inject_Z 21) None = toWords (inject_Z (20 + 1)) None /\ 21 = 20 + 1.
Proof.
  split; [reflexivity|].
  apply (toWords_injective 21 (20 + 1) None); [lia | lia | reflexivity].
Defined.

(** *** Single spaces between the words *)

Definition tidy (s : string) : bool :=
  forallb (fun w => negb (isEmpty w)) (tokens s).

Lemma tidy_app (a b : string) : tidy (a ++ " " ++ b) = tidy a && tidy b.
Proof. unfold tidy. rewrite tokens_app. apply forallb_app. Qed.

Lemma tidy_capitalize (s : string) : tidy (capitalize s) = tidy s.
Proof.
  unfold tidy. rewrite tokens_capitalize.
  destruct (tokens s) as [|h t]; [reflexivity|].
  cbn [capitalizeFirst forallb]. destruct h; reflexivity.
Qed.

Lemma tidy_joinWords (pieces : list string) :
  forallb (fun w => isEmpty w || tidy w) pieces = true ->
  isEmpty (Spec.joinWords pieces) || tidy (Spec.joinWords pieces) = true.
Proof.
  induction pieces as [|w rest IH]; [reflexivity|].
  cbn [forallb Spec.joinWords]. intros H.
  apply andb_true_iff in H. destruct H as [Hw Hrest].
  specialize (IH Hrest).
  destruct (isEmpty w) eqn:Ew; [exact IH|].
  destruct (isEmpty (Spec.joinWords rest)) eqn:Et.
  - rewrite Ew. exact Hw.
  - cbn [orb] in *. rewrite tidy_app, Hw, IH. apply orb_true_r.
Qed.

Lemma tidy_unitWords (unit : string) (m count : Z) :
  In (unit, m) magnitudes -> 0 <= count < 1000 ->
  isEmpty (Spec.unitWords unit count) || tidy (Spec.unitWords unit count)
  = true.
Proof.
  intros Hin Hc.
  apply (Range.forallb_upto
           (fun k => isEmpty (Spec.unitWords unit k)
                     || tidy (Spec.unitWords unit k)) 0 1000); [|lia].
  cbn [magnitudes In] in Hin.
  destruct Hin as [H | [H | [H | [H | []]]]]; injection H as <- <-;
    vm_compute; reflexivity.
Qed.

Lemma tidy_convertGroup (count : Z) :
  0 <= count < 1000 ->
  isEmpty (convertGroup count) || tidy (convertGroup count) = true.
Proof.
  intros Hc.
  apply (Range.forallb_upto
           (fun k => isEmpty (convertGroup k) || tidy (convertGroup k))
           0 1000); [vm_compute; reflexivity | lia].
Qed.

Lemma groupWords_nonempty (n : Z) :
  1 <= n < 10 ^ 15 -> isEmpty (groupWords n) = false.
Proof.
  intros Hn. destruct (isEmpty (groupWords n)) eqn:E; [|reflexivity].
  apply isEmpty_true in E.
  pose proof (readWords_groupWords n ltac:(lia)) as H.
  rewrite E in H. cbn in H. injection H as H1 H2. lia.
Qed.

Lemma tidy_groupWords (n : Z) :
  1 <= n < 10 ^ 15 -> tidy (groupWords n) = true.
Proof.
  intros Hn.
  pose proof (groupWords_nonempty n Hn) as Hne.
  rewrite groupWords_join in * by lia.
  match goal with
  | |- tidy (Spec.joinWords ?l) = true =>
    pose proof (tidy_joinWords l) as H
  end.
  rewrite Hne in H. apply H. cbn [forallb].
  rewrite (tidy_unitWords "triliun" 1000000000000),
    (tidy_unitWords "miliar" 1000000000),
    (tidy_unitWords "juta" 1000000),
    (tidy_unitWords "ribu" 1000),
    tidy_convertGroup
    by (first [ cbn; tauto | Z.div_mod_to_equations; lia ]).
  reflexivity.
Qed.

(** X7.  For an amount of magnitude from 1 up to 10^15 the text is a
    sequence of words separated by single spaces: it neither starts nor ends
    with a space and holds no two spaces in a row. *)
Theorem toWords_single_spaces (amount : Q) (options : option WordOptions) :
  (1 <= Qabs amount)%Q -> (Qabs amount < inject_Z (10 ^ 15))%Q ->
  forallb (fun w => negb (isEmpty w)) (split " " (toWords amount options))
  = true.
Proof.
  intros Hlo Hhi.
  assert (Hnz : ~ (amount == 0)%Q).
  { intros E. rewrite E in Hlo. apply Qle_bool_iff in Hlo.
    discriminate Hlo. }
  rewrite toWords_nonzero by assumption.
  change (tidy (cased options
                  ((if Qltb amount 0 then "minus " else "")
                     ++ groupWords (Qfloor (Qabs amount)) ++ suffix options))
          = true).
  assert (Hg : tidy (groupWords (Qfloor (Qabs amount))) = true).
  { apply tidy_groupWords. split.
    - change 1 with (Qfloor 1). apply Qfloor_resp_le, Hlo.
    - pose proof (Qfloor_le (Qabs amount)) as Hle.
      assert (Hlt : (inject_Z (Qfloor (Qabs amount)) < inject_Z (10 ^ 15))%Q)
        by (eapply Qle_lt_trans; eassumption).
      rewrite <- Zlt_Qlt in Hlt. exact Hlt. }
  assert (Hs : tidy (groupWords (Qfloor (Qabs amount)) ++ suffix options)
               = true).
  { unfold suffix. destruct (optWithCurrency options).
    - rewrite (tidy_app _ "rupiah"), Hg. reflexivity.
    - rewrite app_nil_r. exact Hg. }
  assert (Hm : tidy ((if Qltb amount 0 then "minus " else "")
                       ++ groupWords (Qfloor (Qabs amount)) ++ suffix options)
               = true).
  { destruct (Qltb amount 0); [|exact Hs].
    change ("minus " ++ ?x) with ("minus" ++ " " ++ x).
    rewrite tidy_app, Hs. reflexivity. }
  unfold cased. destruct (optUppercase options); [|exact Hm].
  rewrite tidy_capitalize. exact Hm.
Qed.

Lemma toWords_single_spaces_witness :
  forallb (fun w => negb (isEmpty w))
    (split " " (toWords (inject_Z 1500000) None)) = true.
Proof.
  apply toWords_single_spaces.
  - apply Qle_bool_iff. vm_compute. reflexivity.
  - reflexivity.
Defined.

End WordsReading.

(** ** Grouping the digits *)

Module Grouping.
Import JS StringFacts NumberFacts FormatFacts RoundTrip.

Lemma getSubstitution_other (before after capture : string) (c : ascii)
    (r : string) :
  Ascii.eqb c "$" = false ->
  getSubstitution before after capture (String c r)
  = String c (getSubstitution before after capture r).
Proof.
  destruct c as [[] [] [] [] [] [] [] []]; intros H;
    first [discriminate H | reflexivity].
Qed.

Lemma getSubstitution_plain (before after capture template : string) :
  hasChar "$" template = false ->
  getSubstitution before after capture template = template.
Proof.
  induction template as [|c r IH]; [reflexivity|].
  cbn [hasChar]. intros H. apply orb_false_iff in H. destruct H as [Hc Hr].
  rewrite getSubstitution_other, IH by assumption. reflexivity.
Qed.

Section Separator.

Variable separator : string.
Hypothesis Hplain : hasChar "$" separator = false.

Lemma groupFrom_digit (before : string) (prevWord : bool) (c : ascii)
    (r : string) :
  allDigits (String c r) = true ->
  groupFrom separator before prevWord (String c r)
  = (if prevWord && (3 <=? S (String.length r))%nat
        && (S (String.length r) mod 3 =? 0)%nat
     then separator else "")
      ++ String c (groupFrom separator (before ++ String c "") true r).
Proof.
  intros H. cbn [groupFrom].
  rewrite (takeDigits_all (String c r) H).
  cbn [allDigits] in H. apply andb_true_iff in H. destruct H as [Hc _].
  rewrite (isWordChar_digit c Hc), getSubstitution_plain by exact Hplain.
  reflexivity.
Qed.

Lemma group_three (before : string) (t : string) :
  allDigits t = true -> String.length t = 3%nat ->
  groupFrom separator before true t = separator ++ t.
Proof.
  intros Ht Hlen.
  destruct t as [|x [|y [|z [|w t]]]]; try discriminate Hlen.
  assert (Hyz : allDigits (String y (String z "")) = true)
    by (cbn [allDigits] in *; apply andb_true_iff in Ht; apply Ht).
  assert (Hz : allDigits (String z "") = true)
    by (cbn [allDigits] in *; apply andb_true_iff in Hyz; apply Hyz).
  rewrite !groupFrom_digit by assumption. reflexivity.
Qed.

Lemma group_append (ds t : string) :
  allDigits ds = true -> allDigits t = true -> String.length t = 3%nat ->
  forall (before : string) (prevWord : bool),
    prevWord = true \/ isEmpty ds = false ->
    groupFrom separator before prevWord (ds ++ t)
    = groupFrom separator before prevWord ds ++ separator ++ t.
Proof.
  intros Hds Ht Hlen. induction ds as [|c r IH]; intros before prevWord Hor.
  - destruct Hor as [-> | H]; [|discriminate H].
    apply group_three; assumption.
  - assert (Hr : allDigits r = true)
      by (cbn [allDigits] in Hds; apply andb_true_iff in Hds; apply Hds).
    cbn [append].
    rewrite !groupFrom_digit
      by (try assumption; cbn [allDigits] in *;
          apply andb_true_iff in Hds; destruct Hds as [Hc _];
          rewrite Hc, allDigits_app, Hr, Ht; reflexivity).
    rewrite IH by (try assumption; left; reflexivity).
    rewrite length_app, Hlen.
    set (k := String.length r).
    replace ((3 <=? S (k + 3))%nat) with true
      by (symmetry; apply Nat.leb_le; lia).
    replace (S (k + 3) mod 3)%nat with (S k mod 3)%nat.
    2:{ replace (S (k + 3)) with (S k + 1 * 3)%nat by lia.
        symmetry. apply Nat.Div0.mod_add. }
    assert (E : ((3 <=? S k) && (S k mod 3 =? 0))%nat
                = (S k mod 3 =? 0)%nat).
    { destruct (Nat.eqb_spec (S k mod 3) 0) as [E | _];
        [|apply andb_false_r].
      rewrite andb_true_r. apply Nat.leb_le.
      apply Nat.Div0.div_exact in E. lia. }
    rewrite andb_true_r, <- andb_assoc, E.
    rewrite !app_assoc. reflexivity.
Qed.

Lemma group_short (ds : string) :
  allDigits ds = true -> (String.length ds <= 3)%nat ->
  groupThousands separator ds = ds.
Proof.
  intros Hds Hlen. unfold groupThousands.
  destruct ds as [|x [|y [|z [|w t]]]]; [reflexivity | | | |cbn in Hlen; lia].
  - rewrite groupFrom_digit by assumption. reflexivity.
  - assert (Hy : allDigits (String y "") = true)
      by (cbn [allDigits] in *; apply andb_true_iff in Hds; apply Hds).
    rewrite !groupFrom_digit by assumption. reflexivity.
  - assert (Hyz : allDigits (String y (String z "")) = true)
      by (cbn [allDigits] in *; apply andb_true_iff in Hds; apply Hds).
    assert (Hz : allDigits (String z "") = true)
      by (cbn [allDigits] in *; apply andb_true_iff in Hyz; apply Hyz).
    rewrite !groupFrom_digit by assumption. reflexivity.
Qed.

Lemma groupThousands_below (n : Z) :
  0 <= n < 1000 -> groupThousands separator (digitsOf n) = digitsOf n.
Proof.
  intros H. apply group_short; [apply digitsOf_allDigits; lia|].
  pose proof (digitsOf_length n 2 ltac:(cbn; lia)). lia.
Qed.

Lemma groupThousands_step (n : Z) :
  1000 <= n ->
  groupThousands separator (digitsOf n)
  = groupThousands separator (digitsOf (n / 1000)) ++ separator
      ++ fixedDigits 3 (n mod 1000) "".
Proof.
  intros H. rewrite digitsOf_thousands by exact H.
  apply group_append.
  - apply digitsOf_allDigits. Z.div_mod_to_equations; lia.
  - apply fixedDigits_allDigits.
  - apply fixedDigits_length.
  - right. apply digitsOf_nonempty. Z.div_mod_to_equations; lia.
Qed.

Lemma groupThousands_groups (fuel : nat) (n : Z) :
  0 <= n < 1000 ^ Z.of_nat (S fuel) ->
  groupThousands separator (digitsOf n) = Reference.groupsFuel fuel separator n.
Proof.
  revert n. induction fuel as [|fuel IH]; intros n Hn.
  - apply groupThousands_below. cbn in Hn. lia.
  - cbn [Reference.groupsFuel].
    destruct (Z.ltb_spec n 1000) as [Hlt | Hge].
    + apply groupThousands_below. lia.
    + rewrite groupThousands_step by exact Hge. rewrite IH; [reflexivity|].
      rewrite Nat2Z.inj_succ, Z.pow_succ_r in Hn by lia.
      Z.div_mod_to_equations; lia.
Qed.

End Separator.

End Grouping.

(** ** Whole amounts: format and parse *)

Module PlainFormat.
Import JS Format Parse StringFacts NumberFacts FormatFacts ParseFacts RoundTrip.
Import WordsReading Grouping.

Lemma thousands_ind (P : Z -> Prop) :
  (forall n, 0 <= n < 1000 -> P n) ->
  (forall n, 1000 <= n -> P (n / 1000) -> P n) ->
  forall n, 0 <= n -> P n.
Proof.
  intros Hsmall Hstep n Hn.
  pattern n. apply (Zlt_0_ind (fun n => P n)); [|exact Hn].
  intros x IH Hx. destruct (Z_lt_le_dec x 1000) as [Hlt | Hge].
  - apply Hsmall. lia.
  - apply Hstep; [exact Hge|]. apply IH.
    split; [apply Z.div_pos; lia | apply Z.div_lt; lia].
Qed.

(** *** Whole amounts *)

(** The text of an amount without decimals. *)
Lemma formatRupiah_floor (amount : Q) (o : RupiahOptions) :
  orDefault o.(decimal) false = false ->
  (Qabs amount < inject_Z (2 ^ 53))%Q ->
  formatRupiah amount (Some o)
  = Some (symbolText o ++ (if Qltb amount 0 then "-" else "")
            ++ groupThousands (orDefault o.(separator) ".")
                 (digitsOf (Qfloor (Qabs amount)))).
Proof.
  intros Hdec Hlt.
  unfold formatRupiah, symbolText. cbn [orDefault]. rewrite Hdec.
  unfold Math_floor.
  rewrite (toString_integer _ (Qfloor (Qabs amount))).
  - destruct (orDefault (symbol o) true),
      (orDefault (spaceAfterSymbol o) true), (Qltb amount 0); reflexivity.
  - reflexivity.
  - split; [apply WordsFacts.Qfloor_abs_nonneg|].
    pose proof (Qfloor_le (Qabs amount)) as Hle.
    assert (H : (inject_Z (Qfloor (Qabs amount)) < inject_Z (2 ^ 53))%Q)
      by (eapply Qle_lt_trans; eassumption).
    rewrite <- Zlt_Qlt in H.
    change (2 ^ 53) with 9007199254740992 in H.
    change (10 ^ 21) with 1000000000000000000000. lia.
Qed.


(** X8.  Without decimals [formatRupiah] cuts the fraction towards zero and
    shows the digits of the whole part in groups of three, counted from the
    right and joined by the separator, after the symbol and the sign. (A
    separator holding [$] is a replacement pattern and is not covered.) *)
Theorem formatRupiah_whole (amount : Q) (options : option RupiahOptions) :
  let o := orDefault options noOptions in
  let separator := orDefault o.(separator) "." in
  orDefault o.(decimal) false = false ->
  (Qabs amount < inject_Z (2 ^ 53))%Q ->
  hasChar "$" separator = false ->
  formatRupiah amount options
  = Some (symbolText o ++ (if Qltb amount 0 then "-" else "")
            ++ Reference.digitGroups separator (Qfloor (Qabs amount))).
Proof.
  intros o separator Hdec Hlt Hplain.
  assert (E : formatRupiah amount options = formatRupiah amount (Some o))
    by (destruct options; reflexivity).
  rewrite E, formatRupiah_floor by assumption.
  fold separator. unfold Reference.digitGroups.
  rewrite (groupThousands_groups separator Hplain 7); [reflexivity|].
  split; [apply WordsFacts.Qfloor_abs_nonneg|].
  pose proof (Qfloor_le (Qabs amount)) as Hle.
  assert (H : (inject_Z (Qfloor (Qabs amount)) < inject_Z (2 ^ 53))%Q)
    by (eapply Qle_lt_trans; eassumption).
  rewrite <- Zlt_Qlt in H.
  change (2 ^ 53) with 9007199254740992 in H.
  change (1000 ^ Z.of_nat 8) with 1000000000000000000000000. lia.
Qed.

Lemma formatRupiah_whole_witness :
  formatRupiah (-1234567.89) None = Some "Rp -1.234.567".
Proof.
  apply (formatRupiah_whole (-1234567.89) None); reflexivity.
Defined.

(** *** The grouped digits, read back *)

Definition dotted (n : Z) : string := groupThousands "." (digitsOf n).

Lemma dotted_below (n : Z) : 0 <= n < 1000 -> dotted n = digitsOf n.
Proof. apply groupThousands_below. reflexivity. Qed.

Lemma dotted_step (n : Z) :
  1000 <= n ->
  dotted n = dotted (n / 1000) ++ String "." (fixedDigits 3 (n mod 1000) "").
Proof. apply (groupThousands_step "."). reflexivity. Qed.

Lemma dotted_head (n : Z) :
  0 <= n -> exists c r, dotted n = String c r /\ isDigit c = true.
Proof.
  revert n. apply thousands_ind.
  - intros n Hn. rewrite dotted_below by exact Hn.
    pose proof (digitsOf_allDigits n ltac:(lia)) as Hall.
    pose proof (digitsOf_nonempty n ltac:(lia)) as Hne.
    destruct (digitsOf n) as [|c r]; [discriminate|].
    exists c, r. split; [reflexivity|].
    cbn [allDigits] in Hall. apply andb_true_iff in Hall. apply Hall.
  - intros n Hn (c & r & E & Hc). rewrite dotted_step, E by exact Hn.
    exists c. eexists. split; [reflexivity | exact Hc].
Qed.

Lemma dotted_avoids (c : ascii) (n : Z) :
  isDigit c = false -> Ascii.eqb "." c = false -> 0 <= n ->
  hasChar c (dotted n) = false.
Proof.
  intros Hc Hdot. revert n. apply thousands_ind.
  - intros n Hn. rewrite dotted_below by exact Hn.
    apply hasChar_digits; [exact Hc | apply digitsOf_allDigits; lia].
  - intros n Hn IH. rewrite dotted_step, hasChar_app, IH by exact Hn.
    cbn [hasChar orb]. rewrite Hdot.
    apply hasChar_digits; [exact Hc | apply fixedDigits_allDigits].
Qed.

Lemma dotted_digits (n : Z) : 0 <= n -> removeAll "." (dotted n) = digitsOf n.
Proof.
  revert n. apply thousands_ind.
  - intros n Hn. rewrite dotted_below by exact Hn.
    apply removeAll_absent, hasChar_digits;
      [reflexivity | apply digitsOf_allDigits; lia].
  - intros n Hn IH. rewrite dotted_step, removeAll_app, IH by exact Hn.
    cbn [removeAll]. rewrite Ascii.eqb_refl.
    rewrite removeAll_absent
      by (apply hasChar_digits; [reflexivity | apply fixedDigits_allDigits]).
    symmetry. apply digitsOf_thousands, Hn.
Qed.

Lemma dotted_lower (n : Z) : 0 <= n -> toLowerCase (dotted n) = dotted n.
Proof.
  revert n. apply thousands_ind.
  - intros n Hn. rewrite dotted_below by exact Hn.
    apply toLowerCase_digits, digitsOf_allDigits. lia.
  - intros n Hn IH. rewrite dotted_step, toLowerCase_app, IH by exact Hn.
    cbn [toLowerCase].
    rewrite toLowerCase_digits by apply fixedDigits_allDigits. reflexivity.
Qed.

Lemma dotted_trimEnd (n : Z) : 0 <= n -> trimEnd (dotted n) = dotted n.
Proof.
  intros Hn. destruct (Z_lt_le_dec n 1000) as [Hlt | Hge].
  - rewrite dotted_below by lia. apply trimEnd_digits, digitsOf_allDigits, Hn.
  - rewrite dotted_step by exact Hge.
    replace (dotted (n / 1000) ++ String "." (fixedDigits 3 (n mod 1000) ""))
      with ((dotted (n / 1000) ++ ".") ++ fixedDigits 3 (n mod 1000) "")
      by (rewrite app_assoc; reflexivity).
    rewrite trimEnd_app;
      rewrite trimEnd_digits by apply fixedDigits_allDigits;
      reflexivity.
Qed.

(** The body of a plain text: the sign and the grouped digits. *)
Definition wholeBody (neg : bool) (n : Z) : string := minus neg ++ dotted n.

Lemma wholeBody_shape (neg : bool) (n : Z) :
  0 <= n ->
  isEmpty (wholeBody neg n) = false
  /\ trimStart (wholeBody neg n) = wholeBody neg n
  /\ trimEnd (wholeBody neg n) = wholeBody neg n
  /\ toLowerCase (wholeBody neg n) = wholeBody neg n.
Proof.
  intros Hn. destruct (dotted_head n Hn) as (c & r & E & Hc).
  destruct (digit_cases c Hc) as (Hspace & _).
  unfold wholeBody. repeat split.
  - rewrite isEmpty_app, E. apply andb_false_r.
  - destruct neg; cbn [minus append]; [reflexivity|].
    rewrite E. cbn [trimStart]. rewrite Hspace. reflexivity.
  - rewrite trimEnd_app; rewrite dotted_trimEnd by exact Hn;
      [reflexivity | rewrite E; reflexivity].
  - rewrite toLowerCase_app, dotted_lower by exact Hn.
    destruct neg; reflexivity.
Qed.

Lemma wholeBody_avoids (neg : bool) (n : Z) (c : ascii) :
  isDigit c = false -> Ascii.eqb "-" c = false -> Ascii.eqb "." c = false ->
  0 <= n -> hasChar c (wholeBody neg n) = false.
Proof.
  intros Hc Hm Hd Hn. unfold wholeBody.
  rewrite hasChar_app, dotted_avoids by assumption.
  destruct neg; cbn [minus hasChar]; rewrite ?Hm; reflexivity.
Qed.

Lemma canonical_wholeBody (neg : bool) (n : Z) :
  0 <= n -> canonical (wholeBody neg n) = minus neg ++ digitsOf n.
Proof.
  intros Hn.
  assert (Hsign : forall c, Ascii.eqb "-" c = false ->
                            hasChar c (minus neg) = false)
    by (intros c Hc; destruct neg; cbn [minus hasChar]; rewrite ?Hc;
        reflexivity).
  assert (Hcomma : hasChar "," (wholeBody neg n) = false)
    by (apply wholeBody_avoids; [reflexivity ..| exact Hn]).
  unfold canonical. rewrite Hcomma, andb_false_r.
  destruct (Z_lt_le_dec n 1000) as [Hlt | Hge].
  - unfold wholeBody. rewrite dotted_below by lia.
    rewrite hasChar_app, Hsign, hasChar_digits
      by (first [reflexivity | apply digitsOf_allDigits; lia]).
    reflexivity.
  - assert (Hremove : removeAll "." (wholeBody neg n)
                      = minus neg ++ digitsOf n).
    { unfold wholeBody. rewrite removeAll_app, dotted_digits by exact Hn.
      rewrite removeAll_absent by (apply Hsign; reflexivity). reflexivity. }
    rewrite Hremove. unfold wholeBody.
    rewrite dotted_step by exact Hge.
    rewrite hasChar_app, (hasChar_app _ (dotted (n / 1000))).
    cbn [hasChar Ascii.eqb Bool.eqb orb]. rewrite !orb_true_r.
    replace (minus neg ++ dotted (n / 1000)
               ++ String "." (fixedDigits 3 (n mod 1000) ""))
      with ((minus neg ++ dotted (n / 1000))
              ++ String "." (fixedDigits 3 (n mod 1000) ""))
      by (rewrite app_assoc; reflexivity).
    rewrite split_app.
    rewrite (split_no_separator "." (fixedDigits 3 (n mod 1000) ""))
      by (apply hasChar_digits; [reflexivity | apply fixedDigits_allDigits]).
    destruct (split "." (minus neg ++ dotted (n / 1000))) as [|h [|h' t]] eqn:E.
    + exfalso. exact (split_nonempty _ _ E).
    + cbn [List.app]. change (at_ [?a; ?b] 1) with b.
      rewrite fixedDigits_length. reflexivity.
    + cbn [List.app List.length]. rewrite List.length_app.
      cbn [List.length].
      match goal with
      | |- context [(2 <? ?k)%nat] =>
        replace (2 <? k)%nat with true by (symmetry; apply Nat.ltb_lt; lia)
      end.
      reflexivity.
Qed.

Lemma parse_wholeBody (neg : bool) (n : Z) :
  0 <= n ->
  parseRupiah ("Rp " ++ wholeBody neg n)
  = Some (Num (scale10 (signed neg n) 0)).
Proof.
  intros Hn. destruct (wholeBody_shape neg n Hn) as (He & Hs & Ht & Hl).
  rewrite parse_plain
    by (try assumption; apply wholeBody_avoids; (reflexivity || exact Hn)).
  rewrite canonical_wholeBody by exact Hn.
  assert (Hwhole : forall d : Z, Whole = Tenth d -> 0 <= d < 10)
    by discriminate.
  pose proof (parseFloat_compact neg (digitsOf n) Whole
                (digitsOf_allDigits n Hn) (digitsOf_nonempty n Hn) Hwhole)
    as H.
  cbn [fractionText literalValue] in H. rewrite app_nil_r in H.
  rewrite H, digitsValue_digitsOf by exact Hn. reflexivity.
Qed.

(** X9.  A whole amount formatted with the default options is read back
    exactly. *)
Theorem formatRupiah_parse_whole (n : Z) :
  - 2 ^ 53 < n < 2 ^ 53 ->
  exists text,
    formatRupiah (inject_Z n) None = Some text
    /\ parsesTo (parseRupiah text) (inject_Z n).
Proof.
  intros Hn.
  assert (Habs : Qfloor (Qabs (inject_Z n)) = Z.abs n)
    by (unfold Qabs, inject_Z; cbn [Qnum Qden]; apply (Qfloor_Z (Z.abs n))).
  assert (E : formatRupiah (inject_Z n) None
              = Some ("Rp " ++ wholeBody (n <? 0) (Z.abs n))).
  { change (formatRupiah (inject_Z n) None)
      with (formatRupiah (inject_Z n) (Some noOptions)).
    rewrite formatRupiah_floor.
    - rewrite Habs. cbn [symbolText noOptions orDefault Format.symbol
                          Format.spaceAfterSymbol Format.separator].
      unfold wholeBody, dotted, minus.
      replace (Qltb (inject_Z n) 0) with (n <? 0); [reflexivity|].
      destruct (Z.ltb_spec n 0) as [Hneg | Hpos]; symmetry.
      + apply Qltb_true. change 0%Q with (inject_Z 0).
        rewrite <- Zlt_Qlt. exact Hneg.
      + apply Qltb_false. change 0%Q with (inject_Z 0).
        rewrite <- Zle_Qle. exact Hpos.
    - reflexivity.
    - unfold Qabs, inject_Z, Qlt. cbn [Qnum Qden]. lia. }
  eexists. split; [exact E|].
  rewrite parse_wholeBody by lia. unfold parsesTo, scale10, signed.
  cbn [Z.leb Z.compare Z.pow]. rewrite Z.mul_1_r.
  destruct (Z.ltb_spec n 0);
    [replace (- Z.abs n) with n by lia | replace (Z.abs n) with n by lia];
    reflexivity.
Qed.

Lemma formatRupiah_parse_whole_witness :
  exists text,
    formatRupiah (inject_Z (-1500000)) None = Some text
    /\ parsesTo (parseRupiah text) (inject_Z (-1500000)).
Proof. apply formatRupiah_parse_whole. cbn. lia. Defined.

End PlainFormat.

(** ** The two formats below the units *)

Module Agreement.
Import JS Format Parse StringFacts NumberFacts FormatFacts ParseFacts RoundTrip.
Import Grouping PlainFormat.

(** X13.  Below the compact units the two formats agree on whole amounts:
    for an integer of magnitude below 100000, [formatCompact] gives the text
    of [formatRupiah] with its default options. *)
Theorem formatCompact_formatRupiah (n : Z) :
  - 100000 < n < 100000 ->
  formatRupiah (inject_Z n) None = Some (formatCompact (inject_Z n)).
Proof.
  intros Hn.
  assert (Habs : Qfloor (Qabs (inject_Z n)) = Z.abs n)
    by (unfold Qabs, inject_Z; cbn [Qnum Qden]; apply (Qfloor_Z (Z.abs n))).
  change (formatRupiah (inject_Z n) None)
    with (formatRupiah (inject_Z n) (Some noOptions)).
  rewrite formatRupiah_floor;
    [|reflexivity | unfold Qabs, inject_Z, Qlt; cbn [Qnum Qden];
                    change (2 ^ 53) with 9007199254740992; lia].
  rewrite (formatCompact_integer (inject_Z n) n) by (reflexivity || lia).
  rewrite Habs.
  cbn [symbolText noOptions orDefault Format.symbol Format.spaceAfterSymbol
       Format.separator].
  f_equal. f_equal. f_equal.
  - unfold minus.
    replace (Qltb (inject_Z n) 0) with (n <? 0); [reflexivity|].
    destruct (Z.ltb_spec n 0) as [Hneg | Hpos]; symmetry.
    + apply Qltb_true. change 0%Q with (inject_Z 0).
      rewrite <- Zlt_Qlt. exact Hneg.
    + apply Qltb_false. change 0%Q with (inject_Z 0).
      rewrite <- Zle_Qle. exact Hpos.
  - destruct (Z.leb_spec 1000 (Z.abs n)); [reflexivity|].
    apply groupThousands_below; [reflexivity | lia].
Qed.

Lemma formatCompact_formatRupiah_witness :
  formatRupiah (inject_Z (-15750)) None
  = Some (formatCompact (inject_Z (-15750))).
Proof. apply formatCompact_formatRupiah. lia. Defined.

End Agreement.

(** ** Amounts with decimals: format and parse *)

Module DecimalFormat.
Import JS Format Parse StringFacts NumberFacts FormatFacts ParseFacts RoundTrip.
Import WordsReading Grouping PlainFormat.

(** Options that switch the decimals on and leave everything else to the
    defaults. *)
Definition decimals (precision : option Z) : RupiahOptions :=
  {| symbol := None; decimal := Some true; separator := None;
     decimalSeparator := None; precision := precision;
     spaceAfterSymbol := None |}.

(** The body of a text with decimals. *)
Definition decimalBody (neg : bool) (q : Z) (fp : string) : string :=
  wholeBody neg q ++ String "," fp.

Lemma formatRupiah_fixed (amount : Q) (precision : option Z) :
  let p := orDefault precision 2 in
  let N := Qfloor (Qabs amount * inject_Z (10 ^ p) + (1 # 2)) in
  1 <= p <= 100 -> (Qabs amount + 1 <= inject_Z (10 ^ 21))%Q ->
  formatRupiah amount (Some (decimals precision))
  = Some ("Rp " ++ decimalBody (Qltb amount 0) (N / 10 ^ p)
                     (fixedDigits (Z.to_nat p) (N mod 10 ^ p) "")).
Proof.
  intros p N Hp Hbound.
  assert (HP : (1 <= inject_Z (10 ^ p))%Q) by (apply pow10_pos; lia).
  destruct (rounded_below (Qabs amount) (inject_Z (10 ^ p)) N
              (Qabs_nonneg amount) HP Hbound eq_refl) as [HN HNlt].
  assert (Hround : Math_round (Qabs amount * Math_pow10 p) = inject_Z N).
  { unfold Math_round, N. f_equal. apply Qfloor_comp.
    rewrite pow10_inject by lia. reflexivity. }
  assert (Hrounded : ((Math_round (Qabs amount * Math_pow10 p)
                       / Math_pow10 p) * inject_Z (10 ^ p)
                      == inject_Z N)%Q).
  { rewrite Hround, pow10_inject by lia. field. lra. }
  assert (Ep : match precision with Some q => q | None => 2 end = p)
    by reflexivity.
  unfold formatRupiah, decimals. cbn [orDefault Format.symbol Format.decimal
    Format.separator Format.decimalSeparator Format.precision
    Format.spaceAfterSymbol].
  rewrite !Ep.
  set (rounded := (Math_round (Qabs amount * Math_pow10 p) / Math_pow10 p)%Q)
    in *.
  replace (p >? 0) with true by (symmetry; apply Z.gtb_lt; lia).
  unfold toFixed.
  replace ((p <? 0) || (100 <? p)) with false
    by (symmetry; apply orb_false_iff; split; apply Z.ltb_ge; lia).
  destruct (Z.to_nat p) as [|f] eqn:Ef; [lia|].
  assert (EP : 10 ^ Z.of_nat (S f) = 10 ^ p) by (f_equal; lia).
  rewrite (toFixedDigits_scaled rounded N f) by (rewrite ?EP; assumption).
  rewrite EP.
  rewrite split_once
    by (apply hasChar_digits;
        [reflexivity
        | first [apply fixedDigits_allDigits
                | apply digitsOf_allDigits, Z.div_pos; lia]]).
  change (at_ [?a; ?b] 0) with a. change (at_ [?a; ?b] 1) with b.
  unfold decimalBody, wholeBody, dotted, minus.
  destruct (Qltb amount 0); cbn [append]; rewrite ?app_assoc; reflexivity.
Qed.

Lemma trimStart_app (a b : string) :
  isEmpty a = false -> trimStart a = a -> trimStart (a ++ b) = a ++ b.
Proof.
  destruct a as [|c a]; [discriminate|]. intros _.
  cbn [append trimStart]. destruct (isSpace c); [|reflexivity].
  intros H. exfalso.
  assert (Hlen : (String.length (trimStart a) <= String.length a)%nat).
  { clear H. induction a as [|d a IH]; [reflexivity|].
    cbn [trimStart]. destruct (isSpace d); cbn [String.length]; lia. }
  rewrite H in Hlen. cbn [String.length] in Hlen. lia.
Qed.

Section Literal.

Variables (neg : bool) (ip fp : string).
Hypothesis Hip : allDigits ip = true.
Hypothesis Hnonip : isEmpty ip = false.
Hypothesis Hfp : allDigits fp = true.

Lemma readSign_literal : readSign (trimStart (minus neg ++ ip)) = (neg, ip).
Proof.
  destruct ip as [|c r] eqn:E; [discriminate|].
  assert (Hc : isDigit c = true)
    by (cbn [allDigits] in Hip; apply andb_true_iff in Hip; apply Hip).
  destruct neg; cbn [minus append]; [reflexivity|].
  cbn [trimStart]. destruct (digit_cases c Hc) as (-> & _). unfold readSign.
  destruct c as [[] [] [] [] [] [] [] []]; try discriminate Hc; reflexivity.
Qed.

Lemma readSign_app (s t : string) (b : bool) (r : string) :
  isEmpty r = false -> readSign (trimStart s) = (b, r) ->
  readSign (trimStart (s ++ t)) = (b, r ++ t).
Proof.
  intros Hr. induction s as [|c s IH].
  - cbn. intros [= <- <-]. discriminate Hr.
  - cbn [append trimStart]. destruct (isSpace c); [exact IH|].
    unfold readSign.
    destruct c as [[] [] [] [] [] [] [] []]; cbn [append];
      try (intros [= <- <-]; reflexivity).
Qed.

Lemma parseFloat_point :
  parseFloat (minus neg ++ ip ++ String "." fp)
  = Num (scale10 (signed neg (digitsValue 0 (ip ++ fp)))
           (0 - Z.of_nat (String.length fp))).
Proof.
  unfold parseFloat.
  rewrite <- app_assoc.
  rewrite (readSign_app _ _ neg ip Hnonip readSign_literal).
  rewrite takeDigits_app, dropDigits_app by (try reflexivity; assumption).
  rewrite takeDigits_all, dropDigits_all by exact Hfp.
  rewrite Hnonip. reflexivity.
Qed.

Lemma parseFloat_joined :
  parseFloat (minus neg ++ ip ++ fp)
  = Num (scale10 (signed neg (digitsValue 0 (ip ++ fp))) 0).
Proof.
  assert (Hboth : allDigits (ip ++ fp) = true)
    by (rewrite allDigits_app, Hip, Hfp; reflexivity).
  unfold parseFloat.
  rewrite <- app_assoc.
  rewrite (readSign_app _ _ neg ip Hnonip readSign_literal).
  rewrite takeDigits_all, dropDigits_all by exact Hboth.
  rewrite isEmpty_app, Hnonip. cbn [andb isEmpty readExponent].
  rewrite app_nil_r. reflexivity.
Qed.

End Literal.

Section DecimalText.

Variables (neg : bool) (q : Z) (fp : string).
Hypothesis Hq : 0 <= q.
Hypothesis Hfp : allDigits fp = true.
Hypothesis Hne : isEmpty fp = false.

Lemma decimalBody_shape :
  isEmpty (decimalBody neg q fp) = false
  /\ trimStart (decimalBody neg q fp) = decimalBody neg q fp
  /\ trimEnd (decimalBody neg q fp) = decimalBody neg q fp
  /\ toLowerCase (decimalBody neg q fp) = decimalBody neg q fp.
Proof.
  destruct (wholeBody_shape neg q Hq) as (He & Hs & Ht & Hl).
  unfold decimalBody. repeat split.
  - rewrite isEmpty_app, He. reflexivity.
  - apply trimStart_app; assumption.
  - replace (wholeBody neg q ++ String "," fp)
      with ((wholeBody neg q ++ ",") ++ fp)
      by (rewrite app_assoc; reflexivity).
    rewrite trimEnd_app; rewrite trimEnd_digits by exact Hfp;
      [reflexivity | exact Hne].
  - rewrite toLowerCase_app, Hl. cbn [toLowerCase].
    rewrite toLowerCase_digits by exact Hfp. reflexivity.
Qed.

Lemma decimalBody_avoids (c : ascii) :
  isDigit c = false -> hasChar c "-.," = false ->
  hasChar c (decimalBody neg q fp) = false.
Proof.
  intros Hc H. cbn [hasChar] in H.
  apply orb_false_iff in H. destruct H as [Hm H].
  apply orb_false_iff in H. destruct H as [Hd H].
  apply orb_false_iff in H. destruct H as [Hk _].
  unfold decimalBody. rewrite hasChar_app, wholeBody_avoids by assumption.
  cbn [hasChar orb]. rewrite Hk. apply hasChar_digits; assumption.
Qed.

Lemma parse_decimalBody :
  parseRupiah ("Rp " ++ decimalBody neg q fp)
  = orNull (parseFloat (canonical (decimalBody neg q fp))).
Proof.
  destruct decimalBody_shape as (He & Hs & Ht & Hl).
  apply parse_plain; try assumption;
    apply decimalBody_avoids; reflexivity.
Qed.

Lemma lastSeparator_app (a b : string) (c : ascii) :
  Spec.lastSeparator b = Some c -> Spec.lastSeparator (a ++ b) = Some c.
Proof.
  intros H. induction a as [|x a IH]; [exact H|].
  cbn [append Spec.lastSeparator]. rewrite IH. reflexivity.
Qed.

Lemma lastSeparator_digits (ds : string) :
  allDigits ds = true -> Spec.lastSeparator ds = None.
Proof.
  induction ds as [|c ds IH]; [reflexivity|].
  cbn [allDigits Spec.lastSeparator]. intros H.
  apply andb_true_iff in H. destruct H as [Hc H]. rewrite IH by exact H.
  destruct (digit_cases c Hc) as (_ & _ & _ & Hcomma & Hdot).
  unfold Spec.isSeparator. rewrite Hcomma, Hdot. reflexivity.
Qed.

Lemma replaceFirst_app (c d : ascii) (a r : string) :
  hasChar c a = false ->
  replaceFirst c d (a ++ String c r) = a ++ String d r.
Proof.
  intros Ha. induction a as [|x a IH].
  - cbn. rewrite Ascii.eqb_refl. reflexivity.
  - cbn [hasChar] in Ha. apply orb_false_iff in Ha. destruct Ha as [Hx Ha].
    cbn [append replaceFirst]. rewrite Hx, IH by exact Ha. reflexivity.
Qed.

Lemma plain_avoids (c : ascii) :
  isDigit c = false -> Ascii.eqb "-" c = false ->
  hasChar c (minus neg ++ digitsOf q) = false.
Proof.
  intros Hc Hm. rewrite hasChar_app, (hasChar_digits c (digitsOf q))
    by (try assumption; apply digitsOf_allDigits, Hq).
  destruct neg; cbn [minus hasChar]; rewrite ?Hm; reflexivity.
Qed.

(** With a comma and digits after the grouped digits, the canonical text
    has a decimal point, unless the comma is the only separator and more
    than two digits follow it. *)
Lemma canonical_decimalBody :
  canonical (decimalBody neg q fp)
  = if (1000 <=? q) || (String.length fp <=? 2)%nat
    then minus neg ++ digitsOf q ++ String "." fp
    else minus neg ++ digitsOf q ++ fp.
Proof.
  assert (Hremove : removeAll "." (decimalBody neg q fp)
                    = (minus neg ++ digitsOf q) ++ String "," fp).
  { unfold decimalBody, wholeBody.
    rewrite !removeAll_app, dotted_digits by exact Hq.
    cbn [removeAll]. change (Ascii.eqb "," ".") with false. cbv iota.
    rewrite !removeAll_absent
      by first [ apply hasChar_digits; [reflexivity | exact Hfp]
               | destruct neg; reflexivity ].
    reflexivity. }
  assert (Hcomma : hasChar "," (decimalBody neg q fp) = true).
  { unfold decimalBody. rewrite hasChar_app. cbn [hasChar].
    rewrite Ascii.eqb_refl. cbn [orb]. apply orb_true_r. }
  destruct (Z.leb_spec 1000 q) as [Hge | Hlt]; cbn [orb].
  - rewrite canonical_both.
    + unfold decimalBody at 1.
      rewrite (lastSeparator_app _ _ ",")
        by (cbn [Spec.lastSeparator]; rewrite lastSeparator_digits by exact Hfp;
            reflexivity).
      rewrite Hremove, replaceFirst_app by (apply plain_avoids; reflexivity).
      apply app_assoc.
    + unfold decimalBody, wholeBody. rewrite dotted_step by exact Hge.
      rewrite !hasChar_app. cbn [hasChar Ascii.eqb Bool.eqb orb].
      rewrite !orb_true_r. reflexivity.
    + exact Hcomma.
  - assert (Hbody : decimalBody neg q fp
                    = (minus neg ++ digitsOf q) ++ String "," fp)
      by (unfold decimalBody, wholeBody; rewrite dotted_below by lia;
          reflexivity).
    assert (Hdot : hasChar "." (decimalBody neg q fp) = false).
    { rewrite Hbody, hasChar_app, plain_avoids by reflexivity.
      cbn [hasChar orb]. apply hasChar_digits; [reflexivity | exact Hfp]. }
    unfold canonical. rewrite Hdot, Hcomma. cbn [andb].
    rewrite Hbody.
    rewrite split_once
      by first [ apply plain_avoids; reflexivity
               | apply hasChar_digits; [reflexivity | exact Hfp] ].
    change (at_ [?a; ?b] 1) with b.
    cbn [List.length Nat.eqb andb].
    destruct (String.length fp <=? 2)%nat.
    + rewrite replaceFirst_app by (apply plain_avoids; reflexivity).
      apply app_assoc.
    + rewrite removeAll_app. cbn [removeAll]. rewrite Ascii.eqb_refl.
      rewrite !removeAll_absent
        by first [ apply plain_avoids; reflexivity
                 | apply hasChar_digits; [reflexivity | exact Hfp] ].
      apply app_assoc.
Qed.

End DecimalText.


Lemma digitsValue_fixed (w : nat) (r acc : Z) :
  0 <= r < 10 ^ Z.of_nat w ->
  digitsValue acc (fixedDigits w r "") = acc * 10 ^ Z.of_nat w + r.
Proof.
  revert r. induction w as [|w IH]; intros r Hr.
  - cbn in *. lia.
  - cbn [fixedDigits]. rewrite fixedDigits_app, digitsValue_app.
    rewrite Nat2Z.inj_succ, Z.pow_succ_r in * by lia.
    rewrite IH by (Z.div_mod_to_equations; lia).
    cbn [digitsValue].
    rewrite digitValue_digitChar by (apply Z.mod_pos_bound; lia).
    Z.div_mod_to_equations. nia.
Qed.

Lemma scale10_down (m p : Z) :
  0 < p -> (scale10 m (0 - p) == inject_Z m / inject_Z (10 ^ p))%Q.
Proof.
  intros Hp. unfold scale10.
  replace (0 <=? 0 - p) with false by (symmetry; apply Z.leb_gt; lia).
  replace (- (0 - p)) with p by lia.
  assert (Hpow : 0 < 10 ^ p) by (apply Z.pow_pos_nonneg; lia).
  unfold Qeq, Qdiv, Qmult, Qinv, inject_Z. cbn [Qnum Qden].
  destruct (10 ^ p) as [|k|k] eqn:E; try lia.
  cbn [Z.to_pos Qnum Qden]. lia.
Qed.



End DecimalFormat.

(** ** Texts with one separator *)

Module SeparatorRule.
Import JS Format Parse StringFacts NumberFacts FormatFacts ParseFacts RoundTrip.
Import WordsReading Grouping PlainFormat DecimalFormat.

(** A text without the symbol. *)
Lemma parse_bare (body : string) :
  isEmpty body = false -> trimStart body = body -> trimEnd body = body ->
  toLowerCase body = body ->
  hasChar "t" body = false -> hasChar "m" body = false ->
  hasChar "j" body = false -> hasChar "r" body = false ->
  parseRupiah body = orNull (parseFloat (canonical body)).
Proof.
  intros He Hstart Hend Hlow Ht Hm Hj Hr.
  assert (Hclean : toLowerCase (trim body) = body)
    by (unfold trim; rewrite Hstart, Hend; exact Hlow).
  rewrite parseRupiah_plain; unfold plainText; rewrite ?Hclean.
  - rewrite removeRp_quiet by assumption.
    unfold trim. rewrite Hstart, Hend. reflexivity.
  - exact He.
  - apply compactLoop_no_unit; apply includes_absent; assumption.
Qed.

Section LoneSeparator.

Variables (neg : bool) (a b : string) (mark : ascii).
Hypothesis Ha : allDigits a = true.
Hypothesis Hne : isEmpty a = false.
Hypothesis Hb : allDigits b = true.
Hypothesis Hmark : mark = "."%char \/ mark = ","%char.

(** The sign, digits, one separator and further digits. *)
Definition marked : string := minus neg ++ a ++ String mark b.

Lemma mark_cases :
  isDigit mark = false /\ isSpace mark = false
  /\ toLowerChar mark = mark /\ Ascii.eqb "-" mark = false.
Proof. destruct Hmark as [-> | ->]; repeat split. Qed.

Lemma signed_avoids (c : ascii) :
  isDigit c = false -> Ascii.eqb "-" c = false ->
  hasChar c (minus neg ++ a) = false.
Proof.
  intros Hc Hm. rewrite hasChar_app, (hasChar_digits c a) by assumption.
  destruct neg; cbn [minus hasChar]; rewrite ?Hm; reflexivity.
Qed.

Lemma marked_has (c : ascii) :
  isDigit c = false -> Ascii.eqb "-" c = false ->
  hasChar c marked = Ascii.eqb mark c.
Proof.
  intros Hc Hm.
  unfold marked. rewrite <- app_assoc, hasChar_app, signed_avoids by assumption.
  cbn [hasChar orb]. rewrite (hasChar_digits c b) by assumption.
  apply orb_false_r.
Qed.

Lemma marked_avoids (c : ascii) :
  isDigit c = false -> hasChar c "-.," = false -> hasChar c marked = false.
Proof.
  intros Hc H. cbn [hasChar] in H.
  apply orb_false_iff in H. destruct H as [Hm H].
  apply orb_false_iff in H. destruct H as [Hd H].
  apply orb_false_iff in H. destruct H as [Hk _].
  rewrite marked_has by assumption.
  assert (Hcase := Hmark). destruct Hcase as [E | E]; rewrite E; assumption.
Qed.

Lemma marked_shape :
  isEmpty marked = false
  /\ trimStart marked = marked
  /\ trimEnd marked = marked
  /\ toLowerCase marked = marked.
Proof.
  destruct mark_cases as (Hmd & Hms & Hml & Hmm).
  assert (Hhead : isEmpty (minus neg ++ a) = false
                  /\ trimStart (minus neg ++ a) = minus neg ++ a).
  { destruct a as [|c r] eqn:E; [discriminate|].
    assert (Hc : isDigit c = true)
      by (cbn [allDigits] in Ha; apply andb_true_iff in Ha; apply Ha).
    destruct (digit_cases c Hc) as (Hspace & _).
    destruct neg; cbn [minus append trimStart]; rewrite ?Hspace;
      split; reflexivity. }
  destruct Hhead as [Hnonempty Hstart].
  assert (Htail : isEmpty (trimEnd (String mark b)) = false
                  /\ trimEnd (String mark b) = String mark b).
  { cbn [trimEnd]. rewrite trimEnd_digits, Hms, andb_false_r by exact Hb.
    split; reflexivity. }
  destruct Htail as [Htail1 Htail2].
  unfold marked. rewrite <- !app_assoc. repeat split.
  - rewrite isEmpty_app, Hnonempty. reflexivity.
  - apply trimStart_app; assumption.
  - rewrite trimEnd_app, Htail2 by exact Htail1. reflexivity.
  - rewrite !toLowerCase_app, (toLowerCase_digits a) by exact Ha.
    cbn [toLowerCase]. rewrite Hml, (toLowerCase_digits b) by exact Hb.
    destruct neg; reflexivity.
Qed.

(** A lone separator is kept as the decimal point when at most two
    digits follow it, and dropped otherwise. *)
Lemma canonical_marked :
  canonical marked
  = if (String.length b <=? 2)%nat
    then minus neg ++ a ++ String "." b
    else minus neg ++ a ++ b.
Proof.
  assert (Hsplit : split mark marked = [minus neg ++ a; b]).
  { unfold marked. rewrite <- app_assoc. apply split_once.
    - destruct mark_cases as (Hmd & _ & _ & Hmm).
      apply signed_avoids; assumption.
    - destruct mark_cases as (Hmd & _). apply hasChar_digits; assumption. }
  assert (Hremove : removeAll mark marked = minus neg ++ a ++ b).
  { unfold marked. rewrite <- app_assoc, removeAll_app. cbn [removeAll].
    rewrite Ascii.eqb_refl.
    destruct mark_cases as (Hmd & _ & _ & Hmm).
    rewrite !removeAll_absent
      by first [apply signed_avoids; assumption
               | apply hasChar_digits; assumption].
    apply app_assoc. }
  assert (Hreplace : replaceFirst mark "." marked
                     = minus neg ++ a ++ String "." b).
  { unfold marked. rewrite <- app_assoc, replaceFirst_app.
    - apply app_assoc.
    - destruct mark_cases as (Hmd & _ & _ & Hmm).
      apply signed_avoids; assumption. }
  assert (Hlen : (2 <? String.length b)%nat
                 = negb (String.length b <=? 2)%nat).
  { destruct (Nat.ltb_spec 2 (String.length b)),
      (Nat.leb_spec (String.length b) 2); first [reflexivity | lia]. }
  unfold canonical.
  rewrite (marked_has ".") , (marked_has ",") by reflexivity.
  assert (Hcase := Hmark). destruct Hcase as [E | E]; rewrite E in *.
  - cbn [Ascii.eqb Bool.eqb andb]. rewrite Hsplit.
    change (at_ [?x; ?y] 1) with y.
    cbn [List.length Nat.eqb]. change (2 <? 2)%nat with false.
    cbn [orb andb]. rewrite Hlen, Hremove.
    destruct (String.length b <=? 2)%nat; cbn [negb];
      [unfold marked; rewrite E | ]; reflexivity.
  - cbn [Ascii.eqb Bool.eqb andb]. rewrite Hsplit.
    change (at_ [?x; ?y] 1) with y.
    cbn [List.length Nat.eqb andb].
    rewrite Hremove, Hreplace. reflexivity.
Qed.

End LoneSeparator.


Lemma scale10_value (m : Z) (k : nat) :
  (scale10 m (0 - Z.of_nat k) == inject_Z m / inject_Z (10 ^ Z.of_nat k))%Q.
Proof.
  destruct k as [|k].
  - unfold scale10. cbn. rewrite Z.mul_1_r. unfold Qdiv.
    change (/ inject_Z 1)%Q with 1%Q. ring.
  - apply scale10_down. lia.
Qed.

(** X14.  The rule for a text with one separator, be it a dot or a comma,
    with or without the symbol: the separator is the decimal mark when at
    most two digits follow it, and a thousands separator otherwise. So "1.5"
    and "1,50" are one and a half, "1.500" and "1,500" are fifteen hundred. *)
Theorem parseRupiah_lone_separator (withSymbol neg : bool) (a b : string)
    (mark : ascii) :
  let decimals := if (String.length b <=? 2)%nat then String.length b else O in
  allDigits a = true -> isEmpty a = false -> allDigits b = true ->
  mark = "."%char \/ mark = ","%char ->
  parsesTo
    (parseRupiah ((if withSymbol then "Rp " else "")
                    ++ minus neg ++ a ++ String mark b))
    (inject_Z (signed neg (digitsValue 0 (a ++ b)))
     / inject_Z (10 ^ Z.of_nat decimals)).
Proof.
  intros decimals Ha Hne Hb Hmark.
  destruct (marked_shape neg a b mark Ha Hne Hb Hmark) as (He & Hs & Ht & Hl).
  assert (Hparse : parseRupiah ((if withSymbol then "Rp " else "")
                                  ++ marked neg a b mark)
                   = orNull (parseFloat (canonical (marked neg a b mark)))).
  { destruct withSymbol; [apply parse_plain | apply parse_bare];
      try assumption; apply marked_avoids; (assumption || reflexivity). }
  unfold marked in Hparse at 1.
  rewrite Hparse, canonical_marked by assumption.
  unfold decimals. destruct (String.length b <=? 2)%nat.
  - rewrite parseFloat_point by assumption.
    unfold orNull. cbn [isNaN parsesTo]. apply scale10_value.
  - rewrite parseFloat_joined by assumption.
    unfold orNull. cbn [isNaN parsesTo]. apply (scale10_value _ 0).
Qed.

Lemma parseRupiah_lone_separator_witness :
  parsesTo (parseRupiah "Rp 1.500") 1500
  /\ parsesTo (parseRupiah "1,50") 1.5.
Proof.
  split.
  - pose proof (parseRupiah_lone_separator true false "1" "500" "."
                  eq_refl eq_refl eq_refl (or_introl eq_refl)) as H.
    unfold parsesTo in *. cbn [append minus] in H.
    destruct (parseRupiah "Rp 1.500") as [[|q]|]; try contradiction.
    rewrite H. reflexivity.
  - pose proof (parseRupiah_lone_separator false false "1" "50" ","
                  eq_refl eq_refl eq_refl (or_intror eq_refl)) as H.
    unfold parsesTo in *. cbn [append minus] in H.
    destruct (parseRupiah "1,50") as [[|q]|]; try contradiction.
    rewrite H. reflexivity.
Defined.

End SeparatorRule.

(** ** Compact texts with a fraction *)

Module CompactParse.
Import JS Format Parse StringFacts NumberFacts FormatFacts ParseFacts RoundTrip.
Import DecimalFormat SeparatorRule.

Section UnitText.

Variables (withSymbol neg : bool) (a b : string) (mark : ascii).
Hypothesis Ha : allDigits a = true.
Hypothesis Hne : isEmpty a = false.
Hypothesis Hb : allDigits b = true.
Hypothesis Hmark : mark = "."%char \/ mark = ","%char.

(** The symbol, lower-cased. *)
Definition symbolPart : string := if withSymbol then "rp " else "".

(** The text in front of the unit, lower-cased. *)
Definition counted : string := symbolPart ++ marked neg a b mark.

Lemma counted_avoids (c : ascii) :
  isDigit c = false -> hasChar c "rp -.," = false ->
  hasChar c counted = false.
Proof.
  intros Hc H. cbn [hasChar] in H.
  apply orb_false_iff in H. destruct H as [Hr H].
  apply orb_false_iff in H. destruct H as [Hp H].
  apply orb_false_iff in H. destruct H as [Hs H].
  unfold counted. rewrite hasChar_app.
  rewrite (marked_avoids neg a b mark Ha Hb Hmark c Hc H).
  unfold symbolPart. destruct withSymbol; cbn [hasChar];
    rewrite ?Hr, ?Hp, ?Hs; reflexivity.
Qed.

Lemma numericBody_marked (rest : string) :
  numericBody (a ++ String mark b ++ " " ++ rest) = a ++ String mark b.
Proof.
  destruct (mark_cases mark Hmark) as (Hmd & _).
  unfold numericBody.
  change (String mark b ++ " " ++ rest) with (String mark (b ++ String " " rest)).
  rewrite takeDigits_app, dropDigits_app by assumption.
  replace (Ascii.eqb mark "," || Ascii.eqb mark ".") with true
    by (assert (Hc := Hmark); destruct Hc as [-> | ->]; reflexivity).
  cbn [append]. rewrite takeDigits_app by (try reflexivity; exact Hb).
  reflexivity.
Qed.

Lemma matchNumber_marked (rest : string) :
  matchNumber (counted ++ " " ++ rest) = Some (marked neg a b mark).
Proof.
  assert (Hbody : matchNumber (marked neg a b mark ++ " " ++ rest)
                  = Some (marked neg a b mark)).
  { pose proof (numericBody_marked rest) as Hnb.
    unfold marked. rewrite !app_assoc. cbn [append].
    destruct a as [|c r]; [discriminate|].
    assert (Hc : isDigit c = true)
      by (cbn [allDigits] in Ha; apply andb_true_iff in Ha; apply Ha).
    destruct (digit_cases c Hc) as (_ & Hm & _).
    cbn [append] in Hnb.
    destruct neg; cbn [minus append matchNumber startsWithDigit].
    - rewrite Hc, Ascii.eqb_refl. cbn [andb]. rewrite Hnb. reflexivity.
    - rewrite Hm, Hc. cbn [andb]. rewrite Hnb. reflexivity. }
  unfold counted, symbolPart. destruct withSymbol; [|exact Hbody].
  rewrite app_assoc. cbn [append matchNumber].
  change (Ascii.eqb "r" "-") with false. change (isDigit "r") with false.
  change (Ascii.eqb "p" "-") with false. change (isDigit "p") with false.
  change (Ascii.eqb " " "-") with false. change (isDigit " ") with false.
  cbn [andb]. exact Hbody.
Qed.

Lemma replaceFirst_marked :
  replaceFirst "," "." (marked neg a b mark) = minus neg ++ a ++ String "." b.
Proof.
  assert (Hsign : hasChar "," (minus neg ++ a) = false)
    by (apply signed_avoids; (assumption || reflexivity)).
  unfold marked. rewrite <- app_assoc.
  assert (Hc := Hmark). destruct Hc as [-> | ->].
  - rewrite replaceFirst_absent; [apply app_assoc|].
    rewrite hasChar_app, Hsign. cbn [hasChar orb].
    apply hasChar_digits; [reflexivity | exact Hb].
  - rewrite replaceFirst_app by exact Hsign. apply app_assoc.
Qed.

Lemma cleaned_counted (unit : string) (multiplier : Q) :
  In (unit, multiplier) compactUnits ->
  toLowerCase
    (trim ((if withSymbol then "Rp " else "") ++ marked neg a b mark
             ++ " " ++ unit))
  = counted ++ " " ++ unit.
Proof.
  intros Hin.
  assert (Hunit : isEmpty (trimEnd (" " ++ unit)) = false
                  /\ trimEnd (" " ++ unit) = " " ++ unit
                  /\ toLowerCase unit = unit).
  { cbn [In compactUnits] in Hin.
    destruct Hin as [[= <- _] | [[= <- _] | [[= <- _] | [[= <- _] | []]]]];
      repeat split. }
  destruct Hunit as (Hblank & Hend & Hlow).
  destruct (marked_shape neg a b mark Ha Hne Hb Hmark) as (He & Hs & Ht & Hl).
  assert (Hstart : trimStart ((if withSymbol then "Rp " else "")
                                ++ marked neg a b mark ++ " " ++ unit)
                   = (if withSymbol then "Rp " else "")
                       ++ marked neg a b mark ++ " " ++ unit).
  { destruct withSymbol; [reflexivity|]. cbn [append].
    apply trimStart_app; assumption. }
  unfold trim. rewrite Hstart.
  replace ((if withSymbol then "Rp " else "") ++ marked neg a b mark
             ++ " " ++ unit)
    with (((if withSymbol then "Rp " else "") ++ marked neg a b mark)
            ++ " " ++ unit) by (rewrite app_assoc; reflexivity).
  rewrite trimEnd_app, Hend by exact Hblank.
  rewrite !toLowerCase_app, Hl, Hlow. unfold counted, symbolPart.
  destruct withSymbol; reflexivity.
Qed.

Lemma compactLoop_counted (unit : string) (multiplier : Q) :
  In (unit, multiplier) compactUnits ->
  compactLoop (counted ++ " " ++ unit) compactUnits
  = Some (mul (parseFloat (minus neg ++ a ++ String "." b)) multiplier).
Proof.
  intros Hin.
  assert (Hskip : forall c sub,
             isDigit c = false -> hasChar c "rp -.," = false ->
             includes (String c sub) (counted ++ " " ++ unit)
             = includes (String c sub) (" " ++ unit))
    by (intros; apply includes_skip, counted_avoids; assumption).
  assert (Hfound : forall sub, includes sub (" " ++ unit) = true ->
                               includes sub (counted ++ " " ++ unit) = true)
    by (intros; apply includes_suffix; assumption).
  pose proof (matchNumber_marked unit) as Hmatch.
  cbn [In compactUnits] in Hin. cbn [compactLoop compactUnits].
  destruct Hin as [[= <- <-] | [[= <- <-] | [[= <- <-] | [[= <- <-] | []]]]];
    rewrite ?Hskip by reflexivity;
    repeat match goal with
           | |- context [includes ?u (" " ++ ?v)] =>
             let r := eval vm_compute in (includes u (" " ++ v)) in
             change (includes u (" " ++ v)) with r; cbv iota
           end;
    rewrite ?Hfound by reflexivity;
    rewrite Hmatch, replaceFirst_marked; reflexivity.
Qed.

End UnitText.



End CompactParse.

(** ** The compact notation at the edge of a unit *)

Module CompactEdge.
Import JS Format Parse StringFacts NumberFacts FormatFacts ParseFacts.

(** The units below "triliun" with their divisors. *)
Definition lowerUnits : list (string * Q) :=
  [("ribu", 1000%Q); ("juta", 1000000%Q); ("miliar", 1000000000%Q)].

(** X12.  Just below the threshold of the next unit the count of the unit
    selected rounds up to 1000, and the text shows 1000 of that unit: from
    999950 up to (but not including) 1000000 the text is "Rp 1000 ribu", not
    "Rp 1 juta". *)
Theorem formatCompact_thousand_units (amount : Q) (unit : string)
    (divisor : Q) :
  In (unit, divisor) lowerUnits ->
  (divisor * 999.95 <= Qabs amount)%Q -> (Qabs amount < divisor * 1000)%Q ->
  formatCompact amount
  = "Rp " ++ (if Qltb amount 0 then "-" else "") ++ "1000 " ++ unit.
Proof.
  intros Hin Hlo Hhi.
  assert (Hsel : Spec.selectedUnit (Qabs amount) = Some (unit, divisor)).
  { unfold Spec.selectedUnit. cbn [lowerUnits In] in Hin.
    destruct Hin as [H | [H | [H | []]]]; injection H as <- <-;
      repeat match goal with
             | |- context [Qle_bool ?a (Qabs amount)] =>
               first [ rewrite (Qle_bool_false a (Qabs amount)) by lra
                     | replace (Qle_bool a (Qabs amount)) with true
                         by (symmetry; apply Qle_bool_iff; lra) ]
             end; reflexivity. }
  assert (Hbound : (Qabs amount <= inject_Z (10 ^ 32))%Q).
  { assert (H : (divisor * 1000 <= inject_Z (10 ^ 32))%Q).
    { cbn [lowerUnits In] in Hin.
      destruct Hin as [H | [H | [H | []]]]; injection H as <- <-;
        apply Qle_bool_iff; vm_compute; reflexivity. }
    lra. }
  rewrite (formatCompact_unit amount unit divisor Hsel Hbound).
  assert (Ht : Qfloor (Qabs amount / divisor * 10 + (1 # 2)) = 10000).
  { assert (Hd : (0 < divisor)%Q).
    { cbn [lowerUnits In] in Hin.
      destruct Hin as [H | [H | [H | []]]]; injection H as <- <-; reflexivity. }
    assert (Hv1 : (999.95 <= Qabs amount / divisor)%Q)
      by (apply Qle_shift_div_l; lra).
    assert (Hv2 : (Qabs amount / divisor < 1000)%Q)
      by (apply Qlt_shift_div_r; lra).
    set (v := (Qabs amount / divisor)%Q) in *.
    assert (H1 : 10000 <= Qfloor (v * 10 + (1 # 2))).
    { change 10000 with (Qfloor (inject_Z 10000)).
      apply Qfloor_resp_le. change (inject_Z 10000) with 10000%Q. lra. }
    assert (H2 : Qfloor (v * 10 + (1 # 2)) < 10001).
    { pose proof (Qfloor_le (v * 10 + (1 # 2))) as Hle.
      assert (H : (inject_Z (Qfloor (v * 10 + (1 # 2))) < inject_Z 10001)%Q)
        by (change (inject_Z 10001) with 10001%Q; lra).
      rewrite <- Zlt_Qlt in H. exact H. }
    lia. }
  rewrite Ht. reflexivity.
Qed.

Lemma formatCompact_thousand_units_witness :
  formatCompact 999990 = "Rp 1000 ribu"
  /\ formatCompact (-999990000) = "Rp -1000 juta".
Proof.
  split.
  - apply (formatCompact_thousand_units 999990 "ribu" 1000);
      [cbn; tauto | vm_compute; discriminate | reflexivity].
  - apply (formatCompact_thousand_units (-999990000) "juta" 1000000);
      [cbn; tauto | vm_compute; discriminate | reflexivity].
Defined.

End CompactEdge.

(** ** The separator as a replacement pattern *)

Module SeparatorPattern.
Import JS Format StringFacts.

Lemma groupFrom_pattern (s before : string) (prevWord : bool) :
  groupFrom "$&" before prevWord s = s.
Proof.
  revert before prevWord. induction s as [|c r IH]; intros before prevWord;
    [reflexivity|].
  cbn [groupFrom]. rewrite IH.
  destruct (prevWord && _ && _); reflexivity.
Qed.

Lemma groupFrom_empty (s before : string) (prevWord : bool) :
  groupFrom "" before prevWord s = s.
Proof.
  revert before prevWord. induction s as [|c r IH]; intros before prevWord;
    [reflexivity|].
  cbn [groupFrom]. rewrite IH.
  destruct (prevWord && _ && _); reflexivity.
Qed.

(** X11.  The separator is handed to [String.prototype.replace] as a
    replacement pattern, not as plain text: the separator [$&] stands for
    the (empty) text matched and so groups nothing, like the empty
    separator. *)
Theorem formatRupiah_separator_pattern (amount : Q) (o : RupiahOptions) :
  formatRupiah amount
    (Some {| symbol := o.(symbol); decimal := o.(decimal);
             separator := Some "$&";
             decimalSeparator := o.(decimalSeparator);
             precision := o.(precision);
             spaceAfterSymbol := o.(spaceAfterSymbol) |})
  = formatRupiah amount
      (Some {| symbol := o.(symbol); decimal := o.(decimal);
               separator := Some "";
               decimalSeparator := o.(decimalSeparator);
               precision := o.(precision);
               spaceAfterSymbol := o.(spaceAfterSymbol) |}).
Proof.
  unfold formatRupiah, groupThousands.
  cbn [orDefault Format.symbol Format.decimal Format.separator
       Format.decimalSeparator Format.precision Format.spaceAfterSymbol].
  rewrite !groupFrom_pattern, !groupFrom_empty.
  destruct (toFixed _ _); [|reflexivity].
  rewrite !groupFrom_pattern, !groupFrom_empty. reflexivity.
Qed.

End SeparatorPattern.

(** ** Calendar dates *)

Module DateFacts.
Import JS Builtins.

Lemma daysInMonth_bounds (y m : Z) : 28 <= daysInMonth y m <= 31.
Proof.
  unfold daysInMonth.
  repeat match goal with
         | |- context [if ?b then _ else _] => destruct b
         end; lia.
Qed.

(** Months counted from the year 0. *)
Definition monthIndex (date : Date) : Z :=
  12 * date.(getFullYear) + date.(getMonth).

Lemma monthAfter_index (y m : Z) :
  0 <= m <= 11 ->
  let (y', m') := monthAfter y m in
  0 <= m' <= 11 /\ 12 * y' + m' = 12 * y + m + 1.
Proof.
  intros H. unfold monthAfter. destruct (Z.eqb_spec m 11); lia.
Qed.

Lemma monthBefore_index (y m : Z) :
  0 <= m <= 11 ->
  let (y', m') := monthBefore y m in
  0 <= m' <= 11 /\ 12 * y' + m' = 12 * y + m - 1.
Proof.
  intros H. unfold monthBefore. destruct (Z.eqb_spec m 0); lia.
Qed.

(** Days beyond the month are carried forward only. *)
Lemma carryDays_forward (fuel : nat) (y m d : Z) :
  0 <= m <= 11 -> 1 <= d ->
  let r := carryDays fuel y m d in
  0 <= r.(getMonth) <= 11
  /\ 12 * y + m <= monthIndex r
  /\ (fuel <> O -> daysInMonth y m < d -> 12 * y + m < monthIndex r).
Proof.
  revert y m d. induction fuel as [|fuel IH]; intros y m d Hm Hd.
  - cbn. unfold monthIndex. cbn. repeat split; first [lia | congruence].
  - cbn [carryDays].
    replace (d <? 1) with false by (symmetry; apply Z.ltb_ge; lia).
    destruct (Z.gtb_spec d (daysInMonth y m)) as [Hgt | Hle].
    + pose proof (monthAfter_index y m Hm) as Hnext.
      destruct (monthAfter y m) as [y' m']. destruct Hnext as [Hm' Hidx].
      specialize (IH y' m' (d - daysInMonth y m) Hm' ltac:(lia)).
      cbv zeta in IH. destruct IH as (H1 & H2 & _).
      repeat split; lia.
    + unfold monthIndex. cbn. repeat split; lia.
Qed.

(** Days before the month are carried backward only. *)
Lemma carryDays_backward (fuel : nat) (y m d : Z) :
  0 <= m <= 11 -> d <= daysInMonth y m ->
  let r := carryDays fuel y m d in
  0 <= r.(getMonth) <= 11
  /\ monthIndex r <= 12 * y + m
  /\ (fuel <> O -> d < 1 -> monthIndex r < 12 * y + m).
Proof.
  revert y m d. induction fuel as [|fuel IH]; intros y m d Hm Hd.
  - cbn. unfold monthIndex. cbn. repeat split; first [lia | congruence].
  - cbn [carryDays].
    destruct (Z.ltb_spec d 1) as [Hlt | Hge].
    + pose proof (monthBefore_index y m Hm) as Hprev.
      destruct (monthBefore y m) as [y' m']. destruct Hprev as [Hm' Hidx].
      specialize (IH y' m' (d + daysInMonth y' m') Hm' ltac:(lia)).
      cbv zeta in IH. destruct IH as (H1 & H2 & _).
      repeat split; lia.
    + destruct (Z.gtb_spec d (daysInMonth y m)) as [Hbad | _]; [lia|].
      unfold monthIndex. cbn. repeat split; lia.
Qed.

(** A date reads back as it was written exactly when it is a day of the
    calendar. *)
Lemma newDate_same (y m d : Z) :
  100 <= y ->
  let date := newDate y m d in
  (date.(getFullYear) =? y) && (date.(getMonth) =? m) && (date.(getDate) =? d)
  = (0 <=? m) && (m <=? 11) && (1 <=? d) && (d <=? daysInMonth y m).
Proof.
  intros Hy date.
  assert (Hdate : date = carryDays (S (Z.to_nat (Z.abs d)))
                           (y + m / 12) (m mod 12) d).
  { unfold date, newDate.
    replace ((0 <=? y) && (y <=? 99)) with false; [reflexivity|].
    symmetry. apply andb_false_iff. right. apply Z.leb_gt. lia. }
  assert (Hmod : 0 <= m mod 12 <= 11)
    by (pose proof (Z.mod_pos_bound m 12 ltac:(lia)); lia).
  pose proof (Z.div_mod m 12 ltac:(lia)) as Hdm.
  assert (Hstart : 12 * (y + m / 12) + m mod 12 = 12 * y + m) by lia.
  destruct ((0 <=? m) && (m <=? 11) && (1 <=? d) && (d <=? daysInMonth y m))
    eqn:Hvalid.
  - apply andb_true_iff in Hvalid. destruct Hvalid as [Hvalid H4].
    apply andb_true_iff in Hvalid. destruct Hvalid as [Hvalid H3].
    apply andb_true_iff in Hvalid. destruct Hvalid as [H1 H2].
    apply Z.leb_le in H1, H2, H3, H4.
    rewrite Hdate, Z.div_small, Z.mod_small, Z.add_0_r by lia.
    cbn [carryDays].
    replace (d <? 1) with false by (symmetry; apply Z.ltb_ge; lia).
    destruct (Z.gtb_spec d (daysInMonth y m)) as [Hbad | _]; [lia|].
    cbn. rewrite !Z.eqb_refl. reflexivity.
  - apply not_true_iff_false. intros Hsame.
    apply andb_true_iff in Hsame. destruct Hsame as [Hsame H3].
    apply andb_true_iff in Hsame. destruct Hsame as [H1 H2].
    apply Z.eqb_eq in H1, H2, H3.
    assert (Hidx : monthIndex date = 12 * y + m)
      by (unfold monthIndex; lia).
    assert (Hrange : 0 <= m <= 11 /\ 1 <= d
                     /\ d <= daysInMonth (y + m / 12) (m mod 12)).
    { destruct (Z_lt_le_dec d 1) as [Hlt | Hge].
      - pose proof (daysInMonth_bounds (y + m / 12) (m mod 12)) as Hdim.
        pose proof (carryDays_backward (S (Z.to_nat (Z.abs d)))
                      (y + m / 12) (m mod 12) d Hmod ltac:(lia)) as H.
        cbv zeta in H. rewrite <- Hdate in H.
        destruct H as (_ & _ & H). specialize (H ltac:(discriminate) Hlt).
        lia.
      - pose proof (carryDays_forward (S (Z.to_nat (Z.abs d)))
                      (y + m / 12) (m mod 12) d Hmod Hge) as H.
        cbv zeta in H. rewrite <- Hdate in H.
        destruct H as (Hmonth & _ & H).
        destruct (Z_lt_le_dec (daysInMonth (y + m / 12) (m mod 12)) d)
          as [Hbig | Hok].
        + specialize (H ltac:(discriminate) Hbig). lia.
        + lia. }
    destruct Hrange as (Hm & Hd1 & Hd2).
    rewrite Z.div_small, Z.mod_small, Z.add_0_r in Hd2 by lia.
    apply not_true_iff_false in Hvalid. apply Hvalid.
    repeat (apply andb_true_iff; split); apply Z.leb_le; lia.
Qed.

End DateFacts.

(** ** NIK: validation and parsing *)

Module NIKFacts.
Import JS Builtins NIK StringFacts NumberFacts DateFacts.

(** *** Digits of a NIK *)

Lemma allDigits_part (s : string) (n m : nat) :
  allDigits s = true -> allDigits (String.substring n m s) = true.
Proof.
  revert n m. induction s as [|c s IH]; intros n m H.
  - destruct n, m; reflexivity.
  - cbn [allDigits] in H. apply andb_true_iff in H. destruct H as [Hc H].
    destruct n as [|n]; cbn [String.substring].
    + destruct m as [|m]; [reflexivity|].
      cbn [allDigits]. rewrite Hc, IH by exact H. reflexivity.
    + apply IH, H.
Qed.

Lemma allDigits_substring (s : string) (a b : Z) :
  allDigits s = true -> allDigits (substring s a b) = true.
Proof. intros H. apply allDigits_part, H. Qed.

Lemma digitValue_bounds (c : ascii) : isDigit c = true -> 0 <= digitValue c <= 9.
Proof.
  destruct c as [[] [] [] [] [] [] [] []]; cbn; intros H;
    first [discriminate H | lia].
Qed.

Lemma digitsValue_bounds (s : string) (acc : Z) :
  allDigits s = true -> 0 <= acc ->
  acc * 10 ^ Z.of_nat (String.length s) <= digitsValue acc s
  < (acc + 1) * 10 ^ Z.of_nat (String.length s).
Proof.
  revert acc. induction s as [|c s IH]; intros acc H Hacc.
  - cbn. lia.
  - cbn [allDigits] in H. apply andb_true_iff in H. destruct H as [Hc H].
    pose proof (digitValue_bounds c Hc) as Hv.
    cbn [digitsValue String.length]. rewrite Nat2Z.inj_succ, Z.pow_succ_r by lia.
    specialize (IH (acc * 10 + digitValue c) H ltac:(lia)).
    assert (Hp : 0 < 10 ^ Z.of_nat (String.length s))
      by (apply Z.pow_pos_nonneg; lia).
    nia.
Qed.

Lemma length_part (s : string) (n m : nat) :
  (n + m <= String.length s)%nat ->
  String.length (String.substring n m s) = m.
Proof.
  revert n m. induction s as [|c s IH]; intros n m H.
  - cbn in H. destruct n, m; try reflexivity; lia.
  - destruct n as [|n]; cbn [String.substring].
    + destruct m as [|m]; [reflexivity|].
      cbn [String.length] in *. rewrite (IH 0%nat m) by lia. reflexivity.
    + cbn [String.length] in H. apply IH. lia.
Qed.

Lemma pair_bounds (nik : string) (a : Z) :
  isSixteenDigits nik = true -> 0 <= a <= 14 ->
  0 <= parseInt (substring nik a (a + 2)) <= 99.
Proof.
  intros H Ha. unfold isSixteenDigits in H.
  apply andb_true_iff in H. destruct H as [Hall Hlen].
  apply Nat.eqb_eq in Hlen.
  pose proof (digitsValue_bounds (substring nik a (a + 2)) 0
                (allDigits_substring nik a (a + 2) Hall) ltac:(lia)) as Hb.
  assert (Hl : String.length (substring nik a (a + 2)) = 2%nat).
  { unfold substring, clamp. rewrite Hlen.
    replace (Z.min (Z.max 0 (Z.min a (Z.of_nat 16)))
               (Z.max 0 (Z.min (a + 2) (Z.of_nat 16)))) with a by lia.
    replace (Z.max (Z.max 0 (Z.min a (Z.of_nat 16)))
               (Z.max 0 (Z.min (a + 2) (Z.of_nat 16)))) with (a + 2) by lia.
    replace (Z.to_nat (a + 2 - a)) with 2%nat by lia.
    apply length_part. lia. }
  rewrite Hl in Hb. unfold parseInt. cbn in Hb. lia.
Qed.

(** *** The birth date written in a NIK *)

Definition yearOf (nik : string) : Z :=
  let year := parseInt (substring nik 6 8) in
  if year >? 30 then 1900 + year else 2000 + year.

Definition monthOf (nik : string) : Z := parseInt (substring nik 8 10).

Definition dayField (nik : string) : Z := parseInt (substring nik 10 12).

Definition dayOf (nik : string) : Z :=
  if dayField nik >? 40 then dayField nik - 40 else dayField nik.

Definition bornOn (nik : string) : Date :=
  {| getFullYear := yearOf nik; getMonth := monthOf nik - 1;
     getDate := dayOf nik |}.

(** A day of the calendar: a month index from 0 to 11 and a day that
    the month has. *)
Definition calendarDay (date : Date) : bool :=
  (0 <=? date.(getMonth)) && (date.(getMonth) <=? 11)
  && (1 <=? date.(getDate))
  && (date.(getDate) <=? daysInMonth date.(getFullYear) date.(getMonth)).

Definition knownProvince (nik : string) : bool :=
  match lookup PROVINCES (substring nik 0 2) with
  | Some _ => true
  | None => false
  end.

Lemma province_truthy (key name : string) :
  lookup PROVINCES key = Some name -> truthy name = true.
Proof.
  unfold PROVINCES. cbn [lookup].
  repeat match goal with
         | |- context [if ?b then _ else _] =>
           destruct b; [intros [= <-]; reflexivity|]
         end.
  discriminate.
Qed.

Lemma yearOf_bounds (nik : string) :
  isSixteenDigits nik = true -> 1931 <= yearOf nik <= 2030.
Proof.
  intros H. pose proof (pair_bounds nik 6 H ltac:(lia)) as Hy.
  cbn [Z.add Pos.add Pos.succ] in Hy. unfold yearOf.
  destruct (Z.gtb_spec (parseInt (substring nik 6 8)) 30); lia.
Qed.

(** The test of both functions that the date reads back as written. *)
Lemma birthDate_check (nik : string) :
  isSixteenDigits nik = true ->
  let date := newDate (yearOf nik) (monthOf nik - 1) (dayOf nik) in
  negb (date.(getFullYear) =? yearOf nik)
  || negb (date.(getMonth) =? monthOf nik - 1)
  || negb (date.(getDate) =? dayOf nik)
  = negb (calendarDay (bornOn nik)).
Proof.
  intros H date. pose proof (yearOf_bounds nik H) as Hy.
  rewrite <- !negb_andb. f_equal.
  apply (newDate_same (yearOf nik) (monthOf nik - 1) (dayOf nik)). lia.
Qed.

Lemma birthDate_written (nik : string) :
  isSixteenDigits nik = true -> calendarDay (bornOn nik) = true ->
  newDate (yearOf nik) (monthOf nik - 1) (dayOf nik) = bornOn nik.
Proof.
  intros H Hc. pose proof (birthDate_check nik H) as Hcheck.
  cbv zeta in Hcheck. rewrite Hc in Hcheck. cbn [negb] in Hcheck.
  apply orb_false_iff in Hcheck. destruct Hcheck as [Hcheck H3].
  apply orb_false_iff in Hcheck. destruct Hcheck as [H1 H2].
  apply negb_false_iff, Z.eqb_eq in H1, H2, H3.
  destruct (newDate (yearOf nik) (monthOf nik - 1) (dayOf nik)) as [y m d].
  cbn in H1, H2, H3. unfold bornOn. congruence.
Qed.

Lemma validateNIK_unfold (now : Date) (nik : string) :
  validateNIK now nik
  = isSixteenDigits nik && knownProvince nik
    && calendarDay (bornOn nik) && negb (dateAfter (bornOn nik) now).
Proof.
  unfold validateNIK, knownProvince.
  destruct (isSixteenDigits nik) eqn:Hfmt; [|reflexivity]. cbn [negb andb].
  destruct (lookup PROVINCES (substring nik 0 2)) as [name|] eqn:Hp;
    [|reflexivity].
  rewrite (province_truthy _ _ Hp). cbn [negb andb].
  fold (yearOf nik) (monthOf nik) (dayField nik) (dayOf nik).
  pose proof (birthDate_check nik Hfmt) as Hcheck. cbv zeta in Hcheck.
  rewrite Hcheck.
  destruct (calendarDay (bornOn nik)) eqn:Hc.
  - pose proof Hc as Hc'. unfold calendarDay, bornOn in Hc'.
    cbn [getFullYear getMonth getDate] in Hc'.
    apply andb_true_iff in Hc'. destruct Hc' as [Hc' H4].
    apply andb_true_iff in Hc'. destruct Hc' as [Hc' H3].
    apply andb_true_iff in Hc'. destruct Hc' as [H1 H2].
    apply Z.leb_le in H1, H2, H3, H4.
    pose proof (daysInMonth_bounds (yearOf nik) (monthOf nik - 1)).
    replace ((monthOf nik <? 1) || (monthOf nik >? 12)) with false
      by (symmetry; apply orb_false_iff; split;
          [apply Z.ltb_ge | rewrite Z.gtb_ltb; apply Z.ltb_ge]; lia).
    replace ((dayOf nik <? 1) || (dayOf nik >? 31)) with false
      by (symmetry; apply orb_false_iff; split;
          [apply Z.ltb_ge | rewrite Z.gtb_ltb; apply Z.ltb_ge]; lia).
    cbn [negb]. rewrite (birthDate_written nik Hfmt Hc).
    assert (Hold : dateAfter (newDate 1900 0 1) (bornOn nik) = false).
    { pose proof (yearOf_bounds nik Hfmt) as Hy.
      unfold dateAfter, bornOn. cbn.
      replace (yearOf nik <? 1900) with false
        by (symmetry; apply Z.ltb_ge; lia).
      replace (yearOf nik =? 1900) with false
        by (symmetry; apply Z.eqb_neq; lia).
      reflexivity. }
    rewrite Hold, orb_false_r.
    destruct (dateAfter (bornOn nik) now); reflexivity.
  - cbn [negb andb].
    destruct ((monthOf nik <? 1) || (monthOf nik >? 12)); [reflexivity|].
    destruct ((dayOf nik <? 1) || (dayOf nik >? 31)); reflexivity.
Qed.


(** X16.  [validateNIK] accepts a text exactly when it is sixteen digits,
    its first two digits are the code of a province, the digits of the birth
    date name a day of the calendar (the day may carry the 40 that marks a
    woman; the year is 19yy for yy above 30 and 20yy otherwise), and that
    day is not after today. The test against the year 1900 never fails. *)
Theorem validateNIK_calendar (now : Date) (nik : string) :
  validateNIK now nik
  = isSixteenDigits nik && knownProvince nik
    && calendarDay (bornOn nik) && negb (dateAfter (bornOn nik) now).
Proof. apply validateNIK_unfold. Qed.

(** X17.  [parseNIK] reads exactly the texts that [validateNIK] accepts,
    together with those whose birth date lies after today. What it reads is
    the day of the calendar written in the NIK, between 1931 and 2030, and
    the gender told by the 40 added to the day. *)
Theorem parseNIK_validateNIK (now : Date) (nik : string) :
  match parseNIK nik with
  | Some info =>
    info.(birthDate) = Some (bornOn nik)
    /\ calendarDay (bornOn nik) = true
    /\ 1931 <= yearOf nik <= 2030
    /\ info.(gender) = Some (if dayField nik >? 40 then female else male)
    /\ info.(isValid) = true
    /\ validateNIK now nik = negb (dateAfter (bornOn nik) now)
  | None => validateNIK now nik = false
  end.
Proof.
  rewrite validateNIK_unfold. unfold parseNIK, knownProvince.
  destruct (isSixteenDigits nik) eqn:Hfmt; [|reflexivity]. cbn [negb andb].
  destruct (lookup PROVINCES (substring nik 0 2)) as [name|] eqn:Hp;
    [|reflexivity].
  rewrite (province_truthy _ _ Hp). cbn [negb andb].
  fold (monthOf nik) (dayField nik).
  assert (Hday : (if dayField nik >? 40
                  then (female, dayField nik - 40)
                  else (male, dayField nik))
                 = (if dayField nik >? 40 then female else male, dayOf nik)).
  { unfold dayOf. destruct (dayField nik >? 40); reflexivity. }
  rewrite Hday. fold (yearOf nik).
  pose proof (birthDate_check nik Hfmt) as Hcheck. cbv zeta in Hcheck.
  rewrite Hcheck.
  destruct (calendarDay (bornOn nik)) eqn:Hc; cbn [negb andb];
    [|reflexivity].
  cbn [birthDate gender isValid].
  rewrite (birthDate_written nik Hfmt Hc).
  repeat split; try reflexivity; apply (yearOf_bounds nik Hfmt).
Qed.

End NIKFacts.

(** ** NIK: formatting and masking *)

Module NIKFormat.
Import JS Builtins NIK StringFacts NumberFacts NIKFacts Reference.

(** *** Cutting at the separator *)

Section Separator.

Variable separator : string.
Hypothesis Hne : isEmpty separator = false.
Hypothesis Hhead : startsWithDigit separator = false.

Lemma startsWith_digit (c : ascii) (r : string) :
  isDigit c = true -> startsWith separator (String c r) = false.
Proof.
  intros Hc. destruct separator as [|x t]; [discriminate|].
  cbn [startsWithDigit] in Hhead. cbn [startsWith].
  destruct (Ascii.eqb_spec x c) as [-> | _]; [congruence | reflexivity].
Qed.

Lemma splitFrom_digits (ds piece rest : string) :
  allDigits ds = true ->
  splitFrom separator O piece (ds ++ rest)
  = splitFrom separator O (piece ++ ds) rest.
Proof.
  revert piece. induction ds as [|c ds IH]; intros piece H.
  - rewrite app_nil_r. reflexivity.
  - cbn [allDigits] in H. apply andb_true_iff in H. destruct H as [Hc H].
    cbn [append splitFrom]. rewrite startsWith_digit by exact Hc.
    rewrite IH by exact H. rewrite app_assoc. reflexivity.
Qed.

Lemma splitFrom_skip (t piece rest : string) :
  splitFrom separator (String.length t) piece (t ++ rest)
  = splitFrom separator O piece rest.
Proof.
  induction t as [|c t IH]; [destruct rest; reflexivity|].
  cbn [String.length append splitFrom]. exact IH.
Qed.

Lemma startsWith_app (p rest : string) : startsWith p (p ++ rest) = true.
Proof.
  induction p as [|c p IH]; [reflexivity|].
  cbn [append startsWith]. rewrite Ascii.eqb_refl. exact IH.
Qed.

Lemma splitFrom_separator (piece rest : string) :
  splitFrom separator O piece (separator ++ rest)
  = piece :: splitFrom separator O "" rest.
Proof.
  pose proof (startsWith_app separator rest) as Hs.
  pose proof (fun t => splitFrom_skip t "" rest) as IHskip.
  destruct separator as [|c t] eqn:E; [discriminate|].
  cbn [append] in *. cbn [splitFrom]. rewrite Hs.
  cbn [String.length].
  replace (S (String.length t) - 1)%nat with (String.length t) by lia.
  f_equal. rewrite <- E. rewrite <- E in IHskip. apply IHskip.
Qed.

Lemma splitFrom_join (parts : list string) (p piece : string) :
  forallb allDigits (p :: parts) = true ->
  splitFrom separator O piece (join separator (p :: parts))
  = (piece ++ p) :: parts.
Proof.
  revert p piece. induction parts as [|q parts IH]; intros p piece H.
  - cbn [forallb] in H. apply andb_true_iff in H. destruct H as [Hp _].
    cbn [join String.concat].
    rewrite <- (app_nil_r p) at 1. rewrite splitFrom_digits by exact Hp.
    reflexivity.
  - cbn [forallb] in H. apply andb_true_iff in H. destruct H as [Hp H].
    change (join separator (p :: q :: parts))
      with (p ++ separator ++ join separator (q :: parts)).
    rewrite splitFrom_digits by exact Hp.
    rewrite splitFrom_separator, IH by exact H. reflexivity.
Qed.

Lemma splitOn_join (parts : list string) (p : string) :
  forallb allDigits (p :: parts) = true ->
  splitOn separator (join separator (p :: parts)) = p :: parts.
Proof.
  intros H. unfold splitOn. rewrite Hne. apply splitFrom_join, H.
Qed.

End Separator.

(** *** The sixteen digits *)

Lemma sixteen_digits (nik : string) :
  isSixteenDigits nik = true ->
  exists c0 c1 c2 c3 c4 c5 c6 c7 c8 c9 c10 c11 c12 c13 c14 c15,
    nik = String c0 (String c1 (String c2 (String c3 (String c4 (String c5
            (String c6 (String c7 (String c8 (String c9 (String c10
            (String c11 (String c12 (String c13 (String c14
            (String c15 "")))))))))))))))
    /\ forallb isDigit
         [c0; c1; c2; c3; c4; c5; c6; c7; c8; c9; c10; c11; c12; c13; c14;
          c15] = true.
Proof.
  unfold isSixteenDigits. intros H.
  apply andb_true_iff in H. destruct H as [Hall Hlen].
  apply Nat.eqb_eq in Hlen.
  do 16 (destruct nik as [|? nik]; [discriminate Hlen|]).
  destruct nik; [|discriminate Hlen].
  repeat eexists. cbn [allDigits] in Hall. cbn [forallb].
  exact Hall.
Qed.


Ltac sixteen nik H :=
  let Hd := fresh "Hdigits" in
  destruct (sixteen_digits nik H)
    as (c0 & c1 & c2 & c3 & c4 & c5 & c6 & c7 & c8 & c9 & c10 & c11 & c12
        & c13 & c14 & c15 & -> & Hd);
  cbn [forallb] in Hd;
  repeat match type of Hd with
         | _ && _ = true =>
           let Hc := fresh "Hc" in
           apply andb_true_iff in Hd; destruct Hd as [Hc Hd]
         end;
  clear Hd.

Ltac cut_parts :=
  repeat match goal with
         | |- context [substring ?s ?a ?b] =>
           let v := eval vm_compute in (substring s a b) in
           change (substring s a b) with v
         | |- context [substringFrom ?s ?a] =>
           let v := eval vm_compute in (substringFrom s a) in
           change (substringFrom s a) with v
         end.

Ltac count_known :=
  repeat match goal with
         | |- context [Z.to_nat ?k] =>
           let v := eval vm_compute in (Z.to_nat k) in
           change (Z.to_nat k) with v
         end.

Ltac digits_known :=
  repeat match goal with
         | Hc : isDigit ?c = true |- _ => rewrite Hc
         end.

(** The separator in use: a dash unless one is given. *)
Definition separatorOf (separator : option string) : string :=
  match separator with Some s => s | None => "-" end.

Lemma formatNIK_valid (nik : string) (separator : option string) :
  isSixteenDigits nik = true ->
  formatNIK nik separator
  = join (separatorOf separator)
      [substring nik 0 2; substring nik 2 4; substring nik 4 6;
       substring nik 6 8; substring nik 8 10; substring nik 10 12;
       substring nik 12 16].
Proof.
  intros H. unfold formatNIK. rewrite H. destruct separator; reflexivity.
Qed.

(** X18.  Formatting keeps the digits: cutting the formatted text at the
    separator gives seven groups which, glued together, are the NIK; and the
    text is longer than the NIK by six separators. *)
Theorem formatNIK_round_trip (nik : string) (separator : option string) :
  isSixteenDigits nik = true ->
  isEmpty (separatorOf separator) = false ->
  startsWithDigit (separatorOf separator) = false ->
  join "" (splitOn (separatorOf separator) (formatNIK nik separator)) = nik
  /\ List.length (splitOn (separatorOf separator) (formatNIK nik separator))
     = 7%nat
  /\ String.length (formatNIK nik separator)
     = (16 + 6 * String.length (separatorOf separator))%nat.
Proof.
  intros Hvalid Hne Hhead. rewrite formatNIK_valid by exact Hvalid.
  set (s := separatorOf separator) in *. clearbody s.
  sixteen nik Hvalid.
  cut_parts.
  rewrite splitOn_join
    by (try assumption; cbn [forallb allDigits]; digits_known; reflexivity).
  repeat split.
  cbn [join String.concat append String.length].
  repeat (rewrite length_app; cbn [String.length]). lia.
Qed.

Lemma formatNIK_round_trip_witness :
  join "" (splitOn " / " (formatNIK "3201018901310123" (Some " / ")))
  = "3201018901310123".
Proof.
  apply (formatNIK_round_trip "3201018901310123" (Some " / "));
    reflexivity.
Defined.


(** X19.  Formatting twice is formatting once, for every text and separator:
    a formatted NIK is no longer sixteen digits and is returned as it is
    (and with the empty separator the NIK itself is returned). *)
Theorem formatNIK_idempotent (nik : string) (separator : option string) :
  formatNIK (formatNIK nik separator) separator = formatNIK nik separator.
Proof.
  destruct (isSixteenDigits nik) eqn:Hvalid.
  - destruct (isSixteenDigits (formatNIK nik separator)) eqn:Hagain.
    + assert (Hlen : String.length (formatNIK nik separator) = 16%nat).
      { unfold isSixteenDigits in Hagain.
        apply andb_true_iff in Hagain. destruct Hagain as [_ H].
        apply Nat.eqb_eq, H. }
      assert (Hsame : formatNIK nik separator = nik).
      { rewrite formatNIK_valid in * by exact Hvalid.
        set (s := separatorOf separator) in *. clearbody s.
        sixteen nik Hvalid. revert Hlen. cut_parts. intros Hlen.
        cbn [join String.concat append String.length] in Hlen.
        repeat (rewrite length_app in Hlen; cbn [String.length] in Hlen).
        destruct s; [reflexivity | cbn [String.length] in Hlen; lia]. }
      rewrite Hsame. exact Hsame.
    + unfold formatNIK at 1. rewrite Hagain. reflexivity.
  - assert (Hsame : formatNIK nik separator = nik)
      by (unfold formatNIK; rewrite Hvalid; reflexivity).
    rewrite Hsame. exact Hsame.
Qed.

(** *** Masking *)

Definition maskWith (start end_ : Z) (char : string)
    (separator : option string) : option MaskOptions :=
  Some {| start := Some start; end_ := Some end_; char := Some char;
          separator := separator |}.

Lemma window_cases (start end_ : Z) :
  0 <= start -> 0 <= end_ -> start + end_ < 16 ->
  In start (Range.upto 0 16) /\ In end_ (Range.upto 0 16).
Proof. intros. split; apply Range.in_upto; cbn; lia. Qed.

Ltac each_window start end_ H1 H2 H3 :=
  let Hs := fresh "Hs" in
  let He := fresh "He" in
  destruct (window_cases start end_ H1 H2 H3) as [Hs He];
  cbn [Range.upto In Z.add Pos.add Pos.succ] in Hs, He;
  repeat (destruct Hs as [Hs | Hs]; [subst start|]); try contradiction;
  repeat (destruct He as [He | He]; [subst end_|]); try contradiction;
  try (exfalso; lia).

Lemma maskNIK_plain (nik : string) (start end_ : Z) (char : string) :
  isSixteenDigits nik = true ->
  0 <= start -> 0 <= end_ -> start + end_ < 16 ->
  maskNIK nik (maskWith start end_ char None)
  = maskFrom start end_ char 0 nik.
Proof.
  intros Hvalid H1 H2 H3. unfold maskNIK, maskWith.
  cbn [NIK.start NIK.end_ NIK.char NIK.separator]. rewrite Hvalid.
  cbn [negb].
  replace (start + end_ >=? 16) with false
    by (symmetry; rewrite Z.geb_leb; apply Z.leb_gt; lia).
  sixteen nik Hvalid.
  each_window start end_ H1 H2 H3;
    cut_parts; unfold repeat; count_known; cbn;
    rewrite ?app_assoc, ?app_nil_r; reflexivity.
Qed.


(** The seven groups of a NIK, each masked in its place. *)
Definition maskedGroups (start end_ : Z) (char : string) (nik : string)
  : list string :=
  [maskFrom start end_ char 0 (substring nik 0 2);
   maskFrom start end_ char 2 (substring nik 2 4);
   maskFrom start end_ char 4 (substring nik 4 6);
   maskFrom start end_ char 6 (substring nik 6 8);
   maskFrom start end_ char 8 (substring nik 8 10);
   maskFrom start end_ char 10 (substring nik 10 12);
   maskFrom start end_ char 12 (substring nik 12 16)].

Section MaskPart.

Variables (start end_ : Z) (char : string).

Lemma maskFrom_kept (part : string) (count : Z) :
  count + Z.of_nat (String.length part) <= start \/ 16 - end_ <= count ->
  maskFrom start end_ char count part = part.
Proof.
  revert count. induction part as [|ch r IH]; intros count H; [reflexivity|].
  cbn [maskFrom]. cbn [String.length] in H. rewrite Nat2Z.inj_succ in H.
  replace ((count <? start) || (count >=? 16 - end_)) with true.
  - cbn [append]. rewrite IH by lia. reflexivity.
  - symmetry. apply orb_true_iff. rewrite Z.geb_leb, Z.ltb_lt, Z.leb_le. lia.
Qed.

Lemma maskFrom_hidden (part : string) (count : Z) :
  start <= count -> count + Z.of_nat (String.length part) <= 16 - end_ ->
  maskFrom start end_ char count part = repeatNat char (String.length part).
Proof.
  revert count. induction part as [|ch r IH]; intros count H1 H2;
    [reflexivity|].
  cbn [maskFrom String.length repeatNat].
  cbn [String.length] in H2. rewrite Nat2Z.inj_succ in H2.
  replace ((count <? start) || (count >=? 16 - end_)) with false.
  - rewrite IH by lia. reflexivity.
  - symmetry. apply orb_false_iff. rewrite Z.geb_leb, Z.ltb_ge, Z.leb_gt. lia.
Qed.

Lemma join_empty_cons (x : string) (l : list string) :
  join "" (x :: l) = x ++ join "" l.
Proof.
  destruct l; cbn [join String.concat append];
    [symmetry; apply app_nil_r | reflexivity].
Qed.

Lemma join_empty_app (a b : list string) :
  join "" (a ++ b) = join "" a ++ join "" b.
Proof.
  induction a as [|x a IH]; [reflexivity|].
  cbn [List.app]. rewrite !join_empty_cons, IH, app_assoc. reflexivity.
Qed.

Lemma maskFrom_chars (part : string) (partStart idx : Z) (out : list string) :
  join ""
    (snd (fold_left
            (fun (st : Z * list string) (ch : string) =>
               let (idx, out) := st in
               let pos := partStart + idx in
               (idx + 1,
                (out ++ [if (pos <? start) || (pos >=? 16 - end_)
                         then ch else char])%list))
            (chars part) (idx, out)))
  = join "" out ++ maskFrom start end_ char (partStart + idx) part.
Proof.
  revert idx out. induction part as [|ch r IH]; intros idx out.
  - cbn. symmetry. apply app_nil_r.
  - cbn [chars fold_left maskFrom]. rewrite IH, join_empty_app.
    rewrite join_empty_cons. cbn [join String.concat].
    rewrite app_nil_r, Z.add_assoc, !app_assoc. reflexivity.
Qed.

(** One part masked as [maskNIK] does it is the part masked position by
    position. *)
Lemma maskPart_maskFrom (part : string) (count : Z) :
  maskPart start end_ char count part = maskFrom start end_ char count part.
Proof.
  unfold maskPart.
  destruct (Z.leb_spec (count + Z.of_nat (String.length part)) start);
    [symmetry; apply maskFrom_kept; lia|].
  rewrite Z.geb_leb.
  destruct (Z.leb_spec (16 - end_) count);
    [symmetry; apply maskFrom_kept; lia|].
  rewrite Z.geb_leb.
  destruct (Z.leb_spec start count); cbn [andb].
  - destruct (Z.leb_spec (count + Z.of_nat (String.length part)) (16 - end_)).
    + unfold repeat. rewrite Nat2Z.id. symmetry.
      apply maskFrom_hidden; lia.
    + rewrite maskFrom_chars, Z.add_0_r. reflexivity.
  - rewrite maskFrom_chars, Z.add_0_r. reflexivity.
Qed.

Lemma maskParts_maskFrom (parts : list string) (count : Z) :
  maskParts start end_ char count parts
  = match parts with
    | [] => []
    | part :: rest =>
      maskFrom start end_ char count part
        :: maskParts start end_ char
             (count + Z.of_nat (String.length part)) rest
    end.
Proof.
  destruct parts as [|part rest]; [reflexivity|].
  cbn [maskParts]. rewrite maskPart_maskFrom. reflexivity.
Qed.

Lemma maskFrom_app (a b : string) (count : Z) :
  maskFrom start end_ char count (a ++ b)
  = maskFrom start end_ char count a
      ++ maskFrom start end_ char (count + Z.of_nat (String.length a)) b.
Proof.
  revert count. induction a as [|ch a IH]; intros count.
  - cbn. rewrite Z.add_0_r. reflexivity.
  - cbn [append maskFrom String.length]. rewrite IH, app_assoc.
    rewrite Nat2Z.inj_succ.
    replace (count + 1 + Z.of_nat (String.length a))
      with (count + Z.succ (Z.of_nat (String.length a))) by lia.
    reflexivity.
Qed.

End MaskPart.

(** X21.  With a separator the mask falls on the same positions: the text is
    the seven groups of the NIK, each masked in its place, joined by the
    separator; glued without the separator they are the text masked without
    one. *)
Theorem maskNIK_separator (nik : string) (start end_ : Z)
    (char separator : string) :
  isSixteenDigits nik = true ->
  0 <= start -> 0 <= end_ -> start + end_ < 16 ->
  isEmpty separator = false -> startsWithDigit separator = false ->
  maskNIK nik (maskWith start end_ char (Some separator))
  = join separator (maskedGroups start end_ char nik)
  /\ join "" (maskedGroups start end_ char nik)
     = maskNIK nik (maskWith start end_ char None).
Proof.
  intros Hvalid H1 H2 H3 Hne Hhead. split.
  - unfold maskNIK, maskWith, maskedGroups.
    cbn [NIK.start NIK.end_ NIK.char NIK.separator]. rewrite Hvalid.
    cbn [negb].
    replace (start + end_ >=? 16) with false
      by (symmetry; rewrite Z.geb_leb; apply Z.leb_gt; lia).
    replace (truthy separator) with true
      by (destruct separator; [discriminate Hne | reflexivity]).
    rewrite (formatNIK_valid nik (Some separator) Hvalid).
    cbn [separatorOf].
    sixteen nik Hvalid. cut_parts.
    rewrite splitOn_join
      by (try assumption; cbn [forallb allDigits]; digits_known;
          reflexivity).
    repeat (rewrite maskParts_maskFrom;
            cbn [String.length Z.of_nat Pos.of_succ_nat Pos.succ Z.add
                 Pos.add]).
    reflexivity.
  - rewrite (maskNIK_plain nik start end_ char Hvalid H1 H2 H3).
    unfold maskedGroups. sixteen nik Hvalid. cut_parts.
    repeat rewrite join_empty_cons.
    cbn [join String.concat].
    change (String c0 (String c1 (String c2 (String c3 (String c4
              (String c5 (String c6 (String c7 (String c8 (String c9
              (String c10 (String c11 (String c12 (String c13 (String c14
              (String c15 ""))))))))))))))))
      with ((String c0 (String c1 "")) ++ (String c2 (String c3 ""))
              ++ (String c4 (String c5 "")) ++ (String c6 (String c7 ""))
              ++ (String c8 (String c9 "")) ++ (String c10 (String c11 ""))
              ++ String c12 (String c13 (String c14 (String c15 "")))).
    repeat (rewrite maskFrom_app;
            cbn [String.length Z.of_nat Pos.of_succ_nat Pos.succ Z.add
                 Pos.add]).
    rewrite app_nil_r. reflexivity.
Qed.

(** X20.  Without a separator the mask replaces every character from
    position [start] up to (not including) position [16 - end] by the mask
    character and keeps the others. *)
Theorem maskNIK_window (nik : string) (start end_ : Z) (char : string) :
  isSixteenDigits nik = true ->
  0 <= start -> 0 <= end_ -> start + end_ < 16 ->
  maskNIK nik (maskWith start end_ char None)
  = maskFrom start end_ char 0 nik.
Proof. apply maskNIK_plain. Qed.

Lemma maskNIK_separator_witness :
  maskNIK "3201234567890123" (maskWith 3 5 "*" (Some " - "))
  = "32 - 0* - ** - ** - ** - *9 - 0123".
Proof.
  apply (maskNIK_separator "3201234567890123" 3 5 "*" " - ");
    first [reflexivity | lia].
Defined.

Lemma maskNIK_window_witness :
  maskNIK "3201234567890123" (maskWith 6 4 "X" None) = "320123XXXXXX0123".
Proof.
  apply (maskNIK_window "3201234567890123" 6 4 "X");
    first [reflexivity | lia].
Defined.

End NIKFormat.

(** ** Phone numbers: the E.164 notation and masking *)

Module PhoneFacts.
Import JS Builtins Phone StringFacts.

(** *** Substrings *)

Lemma substring_all (s : string) :
  String.substring 0 (String.length s) s = s.
Proof.
  induction s as [|c s IH]; [reflexivity|].
  cbn [String.length String.substring]. rewrite IH. reflexivity.
Qed.

Lemma substring_drop (a r : string) :
  String.substring (String.length a) (String.length r) (a ++ r) = r.
Proof.
  induction a as [|c a IH]; [apply substring_all|].
  cbn [String.length append String.substring]. exact IH.
Qed.

Lemma substringFrom_app (a r : string) :
  substringFrom (a ++ r) (Z.of_nat (String.length a)) = r.
Proof.
  unfold substringFrom, substring, clamp. rewrite length_app.
  rewrite Nat2Z.inj_add.
  replace (Z.min (Z.max 0 (Z.min (Z.of_nat (String.length a))
                             (Z.of_nat (String.length a)
                              + Z.of_nat (String.length r))))
             (Z.max 0 (Z.min (Z.of_nat (String.length a)
                              + Z.of_nat (String.length r))
                         (Z.of_nat (String.length a)
                          + Z.of_nat (String.length r)))))
    with (Z.of_nat (String.length a)) by lia.
  replace (Z.max (Z.max 0 (Z.min (Z.of_nat (String.length a))
                             (Z.of_nat (String.length a)
                              + Z.of_nat (String.length r))))
             (Z.max 0 (Z.min (Z.of_nat (String.length a)
                              + Z.of_nat (String.length r))
                         (Z.of_nat (String.length a)
                          + Z.of_nat (String.length r)))))
    with (Z.of_nat (String.length a) + Z.of_nat (String.length r)) by lia.
  replace (Z.of_nat (String.length a) + Z.of_nat (String.length r)
           - Z.of_nat (String.length a))
    with (Z.of_nat (String.length r)) by lia.
  rewrite !Nat2Z.id. apply substring_drop.
Qed.

Lemma startsWith_prefix (p s : string) :
  startsWith p s = true -> exists r, s = p ++ r.
Proof.
  revert s. induction p as [|c p IH]; intros s H.
  - exists s. reflexivity.
  - destruct s as [|d s]; [discriminate|]. cbn [startsWith] in H.
    apply andb_true_iff in H. destruct H as [Hc H].
    apply Ascii.eqb_eq in Hc. subst d.
    destruct (IH s H) as [r ->]. exists r. reflexivity.
Qed.

(** *** Cleaning *)

Lemma keep_idempotent (s : string) :
  keepDigitsAndPlus (keepDigitsAndPlus s) = keepDigitsAndPlus s.
Proof.
  induction s as [|c s IH]; [reflexivity|].
  cbn [keepDigitsAndPlus]. destruct (isDigit c || Ascii.eqb c "+") eqn:E;
    [|exact IH].
  cbn [keepDigitsAndPlus]. rewrite E, IH. reflexivity.
Qed.

Lemma keep_app (a b : string) :
  keepDigitsAndPlus (a ++ b) = keepDigitsAndPlus a ++ keepDigitsAndPlus b.
Proof.
  induction a as [|c a IH]; [reflexivity|].
  cbn [append keepDigitsAndPlus]. rewrite IH.
  destruct (isDigit c || Ascii.eqb c "+"); reflexivity.
Qed.

Lemma clean_keep (phone : string) :
  cleanPhoneNumber phone = keepDigitsAndPlus phone.
Proof. destruct phone; reflexivity. Qed.

(** A cleaned text splits into cleaned texts. *)
Lemma keep_split (a b : string) :
  keepDigitsAndPlus (a ++ b) = a ++ b ->
  keepDigitsAndPlus a = a /\ keepDigitsAndPlus b = b.
Proof.
  intros H.
  assert (Hlen : forall s, (String.length (keepDigitsAndPlus s)
                            <= String.length s)%nat).
  { induction s as [|c s IH]; [reflexivity|].
    cbn [keepDigitsAndPlus]. destruct (isDigit c || Ascii.eqb c "+");
      cbn [String.length]; lia. }
  induction a as [|c a IH]; [split; [reflexivity | exact H]|].
  cbn [append keepDigitsAndPlus] in H |- *.
  destruct (isDigit c || Ascii.eqb c "+") eqn:E.
  - injection H as H. destruct (IH H) as [Ha Hb]. rewrite Ha. split;
      [reflexivity | exact Hb].
  - exfalso. pose proof (Hlen (a ++ b)) as Hl. rewrite H in Hl.
    cbn [String.length] in Hl. lia.
Qed.

(** *** The E.164 notation *)

Lemma toE164_clean (cleaned rest : string) :
  keepDigitsAndPlus cleaned = cleaned ->
  normalizeToNational cleaned = "0" ++ rest ->
  toE164 cleaned = "62" ++ rest.
Proof.
  intros Hc Hn. unfold toE164. rewrite clean_keep, Hc.
  destruct cleaned as [|c r]; [discriminate Hn|].
  cbn [truthy negb]. rewrite Hn. cbn [append truthy negb].
  f_equal. f_equal. apply (substringFrom_app "0" rest).
Qed.

Lemma toE164_punctuation (phone : string) :
  truthy (normalizeToNational (cleanPhoneNumber phone)) = true ->
  toE164 phone = toE164 (cleanPhoneNumber phone).
Proof.
  intros H. unfold toE164.
  assert (Hc : cleanPhoneNumber (cleanPhoneNumber phone)
               = cleanPhoneNumber phone)
    by (rewrite !clean_keep; apply keep_idempotent).
  rewrite Hc, H.
  destruct (cleanPhoneNumber phone); [discriminate H | reflexivity].
Qed.

Lemma normalize_plus (rest : string) :
  normalizeToNational ("+62" ++ rest) = "0" ++ rest.
Proof.
  unfold normalizeToNational. cbn [append startsWith Ascii.eqb Bool.eqb andb].
  f_equal. apply (substringFrom_app "+62" rest).
Qed.

Lemma normalize_zero (rest : string) :
  normalizeToNational ("0" ++ rest) = "0" ++ rest.
Proof. reflexivity. Qed.

Lemma startsWith_cancel (a p s : string) :
  startsWith (a ++ p) (a ++ s) = startsWith p s.
Proof.
  induction a as [|c a IH]; [reflexivity|].
  cbn [append startsWith]. rewrite Ascii.eqb_refl. exact IH.
Qed.

Lemma normalize_country_code (rest : string) :
  normalizeToNational ("62" ++ rest)
  = if startsWith "0" rest then "" else "0" ++ rest.
Proof.
  unfold normalizeToNational.
  change (startsWith "+62" ("62" ++ rest)) with false. cbv iota.
  change (startsWith "62" ("62" ++ rest))
    with (startsWith ("62" ++ "") ("62" ++ rest)).
  change (startsWith "620" ("62" ++ rest))
    with (startsWith ("62" ++ "0") ("62" ++ rest)).
  change (startsWith "0" ("62" ++ rest)) with false.
  rewrite !startsWith_cancel.
  change (startsWith "" rest) with true. cbn [andb].
  destruct (startsWith "0" rest); cbn [negb]; [reflexivity|].
  f_equal. apply (substringFrom_app "62" rest).
Qed.

Lemma normalize_country (rest : string) :
  startsWith "0" rest = false ->
  normalizeToNational ("62" ++ rest) = "0" ++ rest.
Proof. intros H. rewrite normalize_country_code, H. reflexivity. Qed.

(** X22.  The three notations of a number, however punctuated, have the same
    E.164 text: with [+62], with [62] or with the leading [0] in front of
    the same digits, the result is [62] followed by those digits. *)
Theorem toE164_notations (phone rest : string) :
  cleanPhoneNumber phone = "+62" ++ rest
  \/ cleanPhoneNumber phone = "0" ++ rest
  \/ (cleanPhoneNumber phone = "62" ++ rest /\ startsWith "0" rest = false) ->
  toE164 phone = "62" ++ rest.
Proof.
  intros H.
  assert (Hn : normalizeToNational (cleanPhoneNumber phone) = "0" ++ rest).
  { destruct H as [-> | [-> | [-> H]]];
      [apply normalize_plus | apply normalize_zero
      | apply normalize_country, H]. }
  rewrite toE164_punctuation by (rewrite Hn; reflexivity).
  apply toE164_clean; [|exact Hn].
  rewrite clean_keep. apply keep_idempotent.
Qed.

Lemma toE164_notations_witness :
  toE164 "+62 812-3456-7890" = "6281234567890"
  /\ toE164 "(0812) 3456 7890" = "6281234567890"
  /\ toE164 "62.812.3456.7890" = "6281234567890".
Proof.
  split; [|split].
  - apply (toE164_notations "+62 812-3456-7890" "81234567890").
    left. reflexivity.
  - apply (toE164_notations "(0812) 3456 7890" "81234567890").
    right. left. reflexivity.
  - apply (toE164_notations "62.812.3456.7890" "81234567890").
    right. right. split; reflexivity.
Defined.

Lemma normalize_cases (cleaned : string) :
  normalizeToNational cleaned = ""
  \/ exists rest,
       normalizeToNational cleaned = "0" ++ rest
       /\ exists head, cleaned = head ++ rest.
Proof.
  unfold normalizeToNational.
  destruct (startsWith "+62" cleaned) eqn:E1.
  { right. destruct (startsWith_prefix _ _ E1) as [r ->].
    exists r. split; [|exists "+62"; reflexivity].
    f_equal. apply (substringFrom_app "+62" r). }
  destruct (startsWith "62" cleaned && negb (startsWith "620" cleaned))
    eqn:E2.
  { right. apply andb_true_iff in E2. destruct E2 as [E2 _].
    destruct (startsWith_prefix _ _ E2) as [r ->].
    exists r. split; [|exists "62"; reflexivity].
    f_equal. apply (substringFrom_app "62" r). }
  destruct (startsWith "0" cleaned) eqn:E3; [|left; reflexivity].
  right. destruct (startsWith_prefix _ _ E3) as [r ->].
  exists r. split; [reflexivity | exists "0"; reflexivity].
Qed.

(** X23.  Converting to E.164 twice is converting once, for every text. *)
Theorem toE164_idempotent (phone : string) :
  toE164 (toE164 phone) = toE164 phone.
Proof.
  assert (Hfix : forall rest, keepDigitsAndPlus rest = rest ->
                              toE164 ("62" ++ rest) = "62" ++ rest).
  { intros rest Hrest.
    assert (Hclean : keepDigitsAndPlus ("62" ++ rest) = "62" ++ rest)
      by (rewrite keep_app, Hrest; reflexivity).
    destruct (startsWith "0" rest) eqn:E.
    - unfold toE164. rewrite clean_keep, Hclean. cbn [append truthy negb].
      change (String "6" (String "2" rest)) with ("62" ++ rest).
      rewrite normalize_country_code, E. reflexivity.
    - apply toE164_clean; [exact Hclean | apply normalize_country, E]. }
  assert (Hcases : toE164 phone = phone
                   \/ exists rest, keepDigitsAndPlus rest = rest
                                   /\ toE164 phone = "62" ++ rest).
  { unfold toE164.
    destruct (truthy (cleanPhoneNumber phone)) eqn:Ht; cbn [negb];
      [|left; reflexivity].
    destruct (normalize_cases (cleanPhoneNumber phone))
      as [Hn | (rest & Hn & head & Hc)].
    - rewrite Hn. left. reflexivity.
    - rewrite Hn. right. exists rest. split.
      + assert (Hk : keepDigitsAndPlus (head ++ rest) = head ++ rest)
          by (rewrite <- Hc, clean_keep; apply keep_idempotent).
        apply (keep_split head rest Hk).
      + cbn [append truthy negb]. f_equal. f_equal.
        apply (substringFrom_app "0" rest). }
  destruct Hcases as [H | (rest & Hrest & H)]; rewrite H.
  - exact H.
  - apply Hfix, Hrest.
Qed.

(** *** Masking *)

(** The text [maskPhoneNumber] masks: the cleaned text when it starts
    with [+], else its national form when it has one. *)
Definition maskedText (phone : string) : string :=
  let cleaned := cleanPhoneNumber phone in
  if startsWith "+" cleaned then cleaned
  else if truthy (normalizeToNational cleaned)
       then normalizeToNational cleaned else cleaned.

(** X24.  With the default options a number of four characters or more is
    never returned in clear: at least one character is replaced by a star.
    Eight characters stay visible, or all but one when the number has eight
    characters or fewer, shared evenly between the two ends (the odd one
    goes to the end): from nine characters on exactly four stay at each end. *)
Theorem maskPhoneNumber_default (phone : string) :
  let text := maskedText phone in
  let len := Z.of_nat (String.length text) in
  4 <= len ->
  exists start end_ : Z,
    1 <= start <= end_ /\ end_ <= start + 1
    /\ start + end_ = Z.min 8 (len - 1)
    /\ maskPhoneNumber phone None
       = substring text 0 start ++ repeat "*" (len - start - end_)
           ++ substringFrom text (len - end_).
Proof.
  intros text len Hlen.
  assert (Hclean : truthy (cleanPhoneNumber phone) = true).
  { destruct (cleanPhoneNumber phone) eqn:E; [|reflexivity].
    unfold len, text, maskedText in Hlen. rewrite E in Hlen.
    cbn in Hlen. lia. }
  unfold maskPhoneNumber. rewrite Hclean. cbn [negb].
  fold (maskedText phone). fold text. fold len.
  replace (len <? 4) with false by (symmetry; apply Z.ltb_ge; lia).
  cbn [noMaskOptions Phone.start Phone.end_ Phone.char Phone.separator].
  cbn [Z.add Pos.add Pos.succ].
  destruct (Z.geb_spec 8 len) as [Hshort | Hlong].
  - replace (len <? 10) with true by (symmetry; apply Z.ltb_lt; lia).
    replace (len - 1 >=? 2) with true
      by (symmetry; rewrite Z.geb_leb; apply Z.leb_le; lia).
    exists ((len - 1) / 2), (len - 1 - (len - 1) / 2).
    repeat split; try (Z.div_mod_to_equations; lia).
  - exists 4, 4. repeat split; lia.
Qed.

Lemma maskPhoneNumber_default_witness :
  exists start end_ : Z,
    1 <= start <= end_ /\ end_ <= start + 1 /\ start + end_ = 6
    /\ maskPhoneNumber "0812-345" None
       = substring "0812345" 0 start ++ repeat "*" (7 - start - end_)
           ++ substringFrom "0812345" (7 - end_).
Proof.
  apply (maskPhoneNumber_default "0812-345"). cbn. lia.
Defined.

End PhoneFacts.
